(** * apm: package metadata store, query engine and name resolution

    A shallow embedding of the database services of apm
    ([cmd/system/apt] host table, [cmd/distrobox/service] container table)
    and of the resolution stage of the system actions, with the properties
    of the specification stated over it. *)

From Stdlib Require Import ZArith Ascii String List Bool Lia DecimalString.
From stdpp Require Import base gmap strings list.

Local Open Scope Z_scope.

(** ** Go strings: the parts of package [strings] and [fmt] the code uses *)

Module GoStrings.

(** [strings.Join(elems, sep)]. *)
Fixpoint Join (elems : list string) (sep : string) : string :=
  match elems with
  | [] => ""
  | e :: rest =>
      match rest with
      | [] => e
      | _ :: _ => e +:+ sep +:+ Join rest sep
      end
  end.

(** [strings.Split(s, sep)] for a separator of one byte, the only way the
    code calls it ([","]).  The result is never empty: [Split("", ",")]
    is [[""]]. *)
Fixpoint Split (s : string) (sep : ascii) : list string :=
  match s with
  | EmptyString => [""]
  | String c s' =>
      if Ascii.eqb c sep then "" :: Split s' sep
      else match Split s' sep with
           | t :: ts => String c t :: ts
           | [] => [String c ""]
           end
  end.

(** ASCII letters to upper case, bytes outside [a-z] unchanged. *)
Definition upper (c : ascii) : ascii :=
  let n := nat_of_ascii c in
  if ((97 <=? n) && (n <=? 122))%nat then ascii_of_nat (n - 32) else c.

(** [strings.ToUpper] on ASCII text. *)
Fixpoint ToUpper (s : string) : string :=
  match s with
  | EmptyString => EmptyString
  | String c s' => String (upper c) (ToUpper s')
  end.

(** [s[len(s)-1]], when [len(s) > 0]. *)
Fixpoint lastByte (s : string) : option ascii :=
  match s with
  | EmptyString => None
  | String c s' =>
      match s' with
      | EmptyString => Some c
      | String _ _ => lastByte s'
      end
  end.

(** [s[:len(s)-1]]; the code only slices non-empty strings. *)
Fixpoint dropLast (s : string) : string :=
  match s with
  | EmptyString => EmptyString
  | String c s' =>
      match s' with
      | EmptyString => EmptyString
      | String _ _ => String c (dropLast s')
      end
  end.

(** Decimal rendering of an integer, as [%d] and [%v] print it. *)
Definition itoa (z : Z) : string := NilZero.string_of_int (Z.to_int z).

End GoStrings.

(** ** The SQL engine, as far as the statements of the code need it *)

Module Sql.

(** A Go value passed as [interface{}] (a filter value or a bound
    argument). *)
Inductive Value :=
| VString (s : string)
| VInt (z : Z)
| VBool (b : bool).

(** [value.(string)]. *)
Definition asString (v : Value) : option string :=
  match v with VString s => Some s | _ => None end.

(** [fmt.Sprintf("%v", value)]. *)
Definition formatV (v : Value) : string :=
  match v with
  | VString s => s
  | VInt z => GoStrings.itoa z
  | VBool true => "true"
  | VBool false => "false"
  end.

(** A stored SQL value; the tables of the code have INTEGER and TEXT
    columns only and never store NULL. *)
Inductive SqlVal :=
| SInt (z : Z)
| SText (s : string).

(** How [database/sql] binds a Go argument. *)
Definition bind (v : Value) : SqlVal :=
  match v with
  | VString s => SText s
  | VInt z => SInt z
  | VBool b => SInt (if b then 1 else 0)
  end.

(** The text an operand has for [LIKE] and [||]. *)
Definition text_of (v : SqlVal) : string :=
  match v with
  | SInt z => GoStrings.itoa z
  | SText s => s
  end.

(** [column = ?]: values of one storage class compare directly; when the
    classes differ, the integer is compared through its decimal text. *)
Definition sql_eq (stored arg : SqlVal) : bool :=
  match stored, arg with
  | SInt a, SInt b => Z.eqb a b
  | _, _ => String.eqb (text_of stored) (text_of arg)
  end.

(** How [LIKE] compares two literal characters: byte equality when the
    connection has [case_sensitive_like] on, equality up to ASCII case
    otherwise (the engine's default). *)
Definition char_eq (cs : bool) (p c : ascii) : bool :=
  if cs then Ascii.eqb p c
  else Ascii.eqb (GoStrings.upper p) (GoStrings.upper c).

(** [text LIKE pat], no ESCAPE clause: [%] matches any run of
    characters, [_] any single one, every other pattern character matches
    itself under [char_eq].  Texts are read byte by byte, as the engine
    reads ASCII text. *)
Fixpoint like (cs : bool) (pat text : string) : bool :=
  match pat with
  | EmptyString =>
      match text with EmptyString => true | String _ _ => false end
  | String p pat' =>
      if Ascii.eqb p "%" then
        (fix any (t : string) : bool :=
           like cs pat' t
           || match t with
              | EmptyString => false
              | String _ t' => any t'
              end) text
      else
        match text with
        | EmptyString => false
        | String c text' =>
            (Ascii.eqb p "_" || char_eq cs p c) && like cs pat' text'
        end
  end.

(** Two texts [LIKE] cannot tell apart: the same length, and the same
    characters under [char_eq]. *)
Fixpoint text_eq (cs : bool) (a b : string) : bool :=
  match a, b with
  | EmptyString, EmptyString => true
  | String x a', String y b' => char_eq cs x y && text_eq cs a' b'
  | _, _ => false
  end.

(** Whether the byte [c] occurs in [s]. *)
Fixpoint has_byte (c : ascii) (s : string) : bool :=
  match s with
  | EmptyString => false
  | String x s' => Ascii.eqb x c || has_byte c s'
  end.

(** One condition of a WHERE clause, with its bound argument. *)
Inductive Cond :=
| CEq (field : string) (arg : Value)        (* field = ? *)
| CLike (field : string) (pat : string)     (* field LIKE ? *)
| CWrapLike (field : string) (pat : string). (* ',' || field || ',' LIKE ? *)

Definition cond_field (c : Cond) : string :=
  match c with
  | CEq f _ | CLike f _ | CWrapLike f _ => f
  end.

(** A SELECT over one table: conditions joined by AND, at most one
    ORDER BY term, LIMIT and OFFSET. *)
Record Select := {
  sel_where : list Cond;
  sel_order : option (string * string);
  sel_limit : option Z;
  sel_offset : option Z
}.

Section Engine.
(** Rows of type [R]; [column f] gives the reader of column [f], or
    [None] when the table has no such column. *)
Context {R : Type}.
Variable column : string -> option (R -> SqlVal).
Variable cs : bool.

Definition known (c : Cond) : bool :=
  match column (cond_field c) with Some _ => true | None => false end.

Definition read (f : string) (r : R) : SqlVal :=
  match column f with Some get => get r | None => SText "" end.

Definition holds (c : Cond) (r : R) : bool :=
  match c with
  | CEq f arg => sql_eq (read f r) (bind arg)
  | CLike f pat => like cs pat (text_of (read f r))
  | CWrapLike f pat => like cs pat ("," +:+ text_of (read f r) +:+ ",")
  end.

Definition satisfies (cs_ : list Cond) (r : R) : bool :=
  forallb (fun c => holds c r) cs_.

(** Ordering of stored values: integers before text, integers by
    value, text byte-wise. *)
Definition sql_leb (a b : SqlVal) : bool :=
  match a, b with
  | SInt x, SInt y => Z.leb x y
  | SInt _, SText _ => true
  | SText _, SInt _ => false
  | SText x, SText y => String.leb x y
  end.

Fixpoint insert_sorted (le : R -> R -> bool) (r : R) (l : list R) : list R :=
  match l with
  | [] => [r]
  | x :: l' => if le r x then r :: l else x :: insert_sorted le r l'
  end.

Definition sort_rows (le : R -> R -> bool) (l : list R) : list R :=
  fold_right (insert_sorted le) [] l.

Definition order_rows (o : option (string * string)) (l : list R) : list R :=
  match o with
  | None => l
  | Some (f, dir) =>
      if String.eqb dir "DESC"
      then sort_rows (fun a b => sql_leb (read f b) (read f a)) l
      else sort_rows (fun a b => sql_leb (read f a) (read f b)) l
  end.

Definition page (limit offset : option Z) (l : list R) : list R :=
  match limit with
  | None => l
  | Some n =>
      firstn (Z.to_nat n)
        (match offset with
         | None => l
         | Some k => skipn (Z.to_nat k) l
         end)
  end.

Definition order_known (o : option (string * string)) : bool :=
  match o with
  | None => true
  | Some (f, _) => match column f with Some _ => true | None => false end
  end.

(** Preparing fails on a column the table does not have. *)
Definition prepared (q : Select) : bool :=
  forallb known (sel_where q) && order_known (sel_order q).

(** The rows a prepared SELECT returns. *)
Definition run_select (q : Select) (rows : list R) : list R :=
  page (sel_limit q) (sel_offset q)
    (order_rows (sel_order q) (List.filter (satisfies (sel_where q)) rows)).

End Engine.

(** The statements the code sends, as the connection sees them. *)
Inductive Stmt :=
| CreateTable (table : string)
| Delete (table : string) (container : option string)
| Begin
| Commit
| Rollback
| Insert (table : string) (nrows : nat)
| SelectName (table : string) (container : option string) (name : string)
| SelectWhere (table : string) (q : Select)
| CountWhere (table : string) (conds : list Cond)
| CreateTemp (table : string)
| InsertTemp (table : string) (nrows : nat)
| UpdateInstalled (table : string)
| UpdateField (table field : string) (value : Z) (container name : string).

(** What the driver reports when a statement fails. *)
Inductive DriverError :=
| NoSuchTable
| NoSuchColumn
| TableExists
| NoRows
| Failure. (* the engine or the medium failed: I/O error, disk full, busy *)

(** A connection: the tables ([T] is the record of tables a service
    works on), the LIKE pragma, the statements executed so far (newest
    first) and the failures still to come: the n-th entry of [faults]
    tells whether the n-th statement from now fails; past its end no
    statement fails. *)
Record Conn (T : Type) := {
  tables : T;
  case_sensitive_like : bool;
  faults : list bool;
  journal : list Stmt
}.
Arguments tables {T} _.
Arguments case_sensitive_like {T} _.
Arguments faults {T} _.
Arguments journal {T} _.

Definition with_tables {T} (t : T) (c : Conn T) : Conn T :=
  {| tables := t;
     case_sensitive_like := case_sensitive_like c;
     faults := faults c;
     journal := journal c |}.

(** Sending a statement: it is recorded, and the next entry of [faults]
    says whether it fails (a failed statement changes no table). *)
Definition issue {T} (st : Stmt) (c : Conn T) : bool * Conn T :=
  match faults c with
  | [] =>
      (false, {| tables := tables c;
                 case_sensitive_like := case_sensitive_like c;
                 faults := [];
                 journal := st :: journal c |})
  | b :: rest =>
      (b, {| tables := tables c;
             case_sensitive_like := case_sensitive_like c;
             faults := rest;
             journal := st :: journal c |})
  end.

End Sql.

(** ** cmd/system/apt: the host package table *)

Module Apt.
Import Sql.

(** The Go struct [Package] ([Section_] is its field [Section]). *)
Record Package := {
  Name : string;
  Section_ : string;
  InstalledSize : Z;
  Maintainer : string;
  Version : string;
  VersionInstalled : string;
  Depends : list string;
  Provides : list string;
  Size : Z;
  Filename : string;
  Description : string;
  Changelog : string;
  Installed : bool
}.

(** A row of [host_image_packages], column by column as CREATE TABLE
    declares them. *)
Record Row := {
  col_name : string;
  col_section : string;
  col_installed_size : Z;
  col_maintainer : string;
  col_version : string;
  col_versionInstalled : string;
  col_depends : string;
  col_provides : string;
  col_size : Z;
  col_filename : string;
  col_description : string;
  col_changelog : string;
  col_installed : Z
}.

Definition columns : list (string * (Row -> SqlVal)) :=
  [ ("name", fun r => SText (col_name r));
    ("section", fun r => SText (col_section r));
    ("installed_size", fun r => SInt (col_installed_size r));
    ("maintainer", fun r => SText (col_maintainer r));
    ("version", fun r => SText (col_version r));
    ("versionInstalled", fun r => SText (col_versionInstalled r));
    ("depends", fun r => SText (col_depends r));
    ("provides", fun r => SText (col_provides r));
    ("size", fun r => SInt (col_size r));
    ("filename", fun r => SText (col_filename r));
    ("description", fun r => SText (col_description r));
    ("changelog", fun r => SText (col_changelog r));
    ("installed", fun r => SInt (col_installed r)) ].

Definition column (f : string) : option (Row -> SqlVal) :=
  snd <$> List.find (fun p => String.eqb (fst p) f) columns.

Definition tableName : string := "host_image_packages".

(** The tables the service touches: [host_image_packages] ([None] while
    it does not exist) and the temporary table [tmp_installed] of the
    connection. *)
Record Tables := {
  packages : option (list Row);
  tmp_installed : option (list (string * string))
}.

Definition DB := Conn Tables.

Definition allowedSortFields : list string :=
  ["name"; "section"; "installedSize"; "maintainer"; "version";
   "versionInstalled"; "depends"; "provides"; "size"; "filename";
   "description"; "changelog"; "installed"].

Definition allowedFilterFields : list string :=
  ["name"; "section"; "installedSize"; "maintainer"; "version";
   "versionInstalled"; "depends"; "provides"; "size"; "filename";
   "description"; "changelog"; "installed"].

(** The errors the service returns; [cause] is the wrapped driver
    error. *)
Inductive error :=
| ErrCreateTable (cause : DriverError)
| ErrTableCleanup (cause : DriverError)
| ErrTxStart (cause : DriverError)
| ErrRollback (cause : DriverError)
| ErrBatchInsert (cause : DriverError)
| ErrTxCommit (cause : DriverError)
| ErrGetPackage (packageName : string)
| ErrTempTable (cause : DriverError)
| ErrTempInsert (cause : DriverError)
| ErrBatchUpdate (cause : DriverError)
| ErrInvalidFilterField (field : string) (allowed : list string)
| ErrInvalidSortField (field : string) (allowed : list string)
| ErrQueryExec (cause : DriverError)
| ErrCount (cause : DriverError).

(** The text of an error; [lib.T_] (the message catalogue) is taken as
    the identity. *)
Definition Error (e : error) : string :=
  match e with
  | ErrInvalidFilterField field allowed =>
      "Invalid filter field: " +:+ field +:+ ". Available fields: "
        +:+ GoStrings.Join allowed ", "
  | ErrInvalidSortField field allowed =>
      "Invalid sort field: " +:+ field +:+ ". Available fields: "
        +:+ GoStrings.Join allowed ", "
  | ErrGetPackage packageName =>
      "failed to get information about package " +:+ packageName
  | ErrCreateTable _ => "Error creating table"
  | ErrTableCleanup _ => "Table cleanup error"
  | ErrTxStart _ => "Transaction start error"
  | ErrRollback _ => "rollback failed"
  | ErrBatchInsert _ => "Batch insert error"
  | ErrTxCommit _ => "Transaction commit error"
  | ErrTempTable _ => "Temporary table creation error"
  | ErrTempInsert _ => "Batch insert into temporary table error"
  | ErrBatchUpdate _ => "Batch update error"
  | ErrQueryExec _ => "Query execution error"
  | ErrCount _ => "Package count error"
  end.

(** The arguments one package contributes to a batch INSERT. *)
Definition toRow (pkg : Package) : Row :=
  {| col_name := Name pkg;
     col_section := Section_ pkg;
     col_installed_size := InstalledSize pkg;
     col_maintainer := Maintainer pkg;
     col_version := Version pkg;
     col_versionInstalled := VersionInstalled pkg;
     col_depends := GoStrings.Join (Depends pkg) ",";
     col_provides := GoStrings.Join (Provides pkg) ",";
     col_size := Size pkg;
     col_filename := Filename pkg;
     col_description := Description pkg;
     col_changelog := Changelog pkg;
     col_installed := if Installed pkg then 1 else 0 |}.

(** A stored list read back: split on the separator, the empty text
    being the empty list. *)
Definition splitList (s : string) : list string :=
  if String.eqb s "" then [] else GoStrings.Split s ",".

(** [rows.Scan] and the conversions that follow it. *)
Definition fromRow (r : Row) : Package :=
  {| Name := col_name r;
     Section_ := col_section r;
     InstalledSize := col_installed_size r;
     Maintainer := col_maintainer r;
     Version := col_version r;
     VersionInstalled := col_versionInstalled r;
     Depends := splitList (col_depends r);
     Provides := splitList (col_provides r);
     Size := col_size r;
     Filename := col_filename r;
     Description := col_description r;
     Changelog := col_changelog r;
     Installed := negb (Z.eqb (col_installed r) 0) |}.

Definition batchSize : nat := 1000.

Definition with_packages (rows : option (list Row)) (t : Tables) : Tables :=
  {| packages := rows; tmp_installed := tmp_installed t |}.

(** The batch loop of [SavePackagesToDB]: [rest] is [packages[i:]],
    [work] the table as the open transaction sees it.  Every turn takes
    at least one package, so [fuel = len(packages)] turns suffice. *)
Fixpoint insertBatches (fuel : nat) (rest : list Package) (work : list Row)
    (db : DB) : option error * list Row * DB :=
  match fuel with
  | O => (None, work, db)
  | S fuel' =>
      match rest with
      | [] => (None, work, db)
      | _ :: _ =>
          let batch := firstn batchSize rest in
          let '(failed, db1) := issue (Insert tableName (length batch)) db in
          if failed then
            let '(failedRollback, db2) := issue Rollback db1 in
            if failedRollback
            then (Some (ErrRollback Failure), work, db2)
            else (Some (ErrBatchInsert Failure), work, db2)
          else
            insertBatches fuel' (skipn batchSize rest)
              (work ++ map toRow batch) db1
      end
  end.

(** [SavePackagesToDB]: CREATE TABLE IF NOT EXISTS and DELETE run on the
    connection itself, the batches inside the transaction begun after
    them. *)
Definition SavePackagesToDB (pkgs : list Package) (db : DB)
    : option error * DB :=
  let '(failed, db1) := issue (CreateTable tableName) db in
  if failed then (Some (ErrCreateTable Failure), db1) else
  let db1 :=
    match packages (tables db1) with
    | None => with_tables (with_packages (Some []) (tables db1)) db1
    | Some _ => db1
    end in
  let '(failed, db2) := issue (Delete tableName None) db1 in
  if failed then (Some (ErrTableCleanup Failure), db2) else
  let db2 := with_tables (with_packages (Some []) (tables db2)) db2 in
  let '(failed, db3) := issue Begin db2 in
  if failed then (Some (ErrTxStart Failure), db3) else
  match insertBatches (length pkgs) pkgs [] db3 with
  | (Some e, _, db4) => (Some e, db4)
  | (None, work, db4) =>
      let '(failed, db5) := issue Commit db4 in
      if failed then (Some (ErrTxCommit Failure), db5)
      else (None, with_tables (with_packages (Some work) (tables db5)) db5)
  end.

(** [GetPackageByName]: the first row with that name; every failure of
    the query, an absent row included, gives the same error. *)
Definition GetPackageByName (packageName : string) (db : DB)
    : (error + Package) * DB :=
  let '(failed, db1) := issue (SelectName tableName None packageName) db in
  if failed then (inl (ErrGetPackage packageName), db1) else
  match packages (tables db1) with
  | None => (inl (ErrGetPackage packageName), db1)
  | Some rows =>
      match List.find (fun r => String.eqb (col_name r) packageName) rows with
      | None => (inl (ErrGetPackage packageName), db1)
      | Some r => (inr (fromRow r), db1)
      end
  end.

(** Whether the table holds a row with that name. *)
Definition hasPackage (rows : list Row) (packageName : string) : bool :=
  match List.find (fun r => String.eqb (col_name r) packageName) rows with
  | Some _ => true
  | None => false
  end.

(** [d'] is [d] after the statements [new] (newest first) ran without a
    failure and without changing a table. *)
Definition advances (new : list Stmt) (d d' : DB) : Prop :=
  faults d' = []
  /\ tables d' = tables d
  /\ case_sensitive_like d' = case_sensitive_like d
  /\ journal d' = new ++ journal d.

(** The UPDATE of [SyncPackageInstallationInfo] on one row, [tmp] being
    the rows of [tmp_installed]. *)
Definition reconcileRow (tmp : list (string * string)) (r : Row) : Row :=
  let hit := List.find (fun t => String.eqb (fst t) (col_name r)) tmp in
  {| col_name := col_name r;
     col_section := col_section r;
     col_installed_size := col_installed_size r;
     col_maintainer := col_maintainer r;
     col_version := col_version r;
     col_versionInstalled :=
       match hit with Some t => snd t | None => "" end;
     col_depends := col_depends r;
     col_provides := col_provides r;
     col_size := col_size r;
     col_filename := col_filename r;
     col_description := col_description r;
     col_changelog := col_changelog r;
     col_installed := match hit with Some _ => 1 | None => 0 end |}.

(** The deferred [tx.Rollback()], whose own result is dropped. *)
Definition rollbackDeferred (e : error) (db : DB) : option error * DB :=
  let '(_, db1) := issue Rollback db in (Some e, db1).

(** [SyncPackageInstallationInfo]: every statement runs in the
    transaction, which sees [work]; only a successful commit stores
    it. *)
Definition SyncPackageInstallationInfo (installedPackages : gmap string string)
    (db : DB) : option error * DB :=
  let '(failed, db1) := issue Begin db in
  if failed then (Some (ErrTxStart Failure), db1) else
  let work := tables db1 in
  let '(failed, db2) := issue (CreateTemp "tmp_installed") db1 in
  if failed then rollbackDeferred (ErrTempTable Failure) db2 else
  match tmp_installed work with
  | Some _ => rollbackDeferred (ErrTempTable TableExists) db2
  | None =>
      let entries := map_to_list installedPackages in
      let '(failed, db3) :=
        match entries with
        | [] => (false, db2)
        | _ :: _ => issue (InsertTemp "tmp_installed" (length entries)) db2
        end in
      if failed then rollbackDeferred (ErrTempInsert Failure) db3 else
      let '(failed, db4) := issue (UpdateInstalled tableName) db3 in
      if failed then rollbackDeferred (ErrBatchUpdate Failure) db4 else
      match packages work with
      | None => rollbackDeferred (ErrBatchUpdate NoSuchTable) db4
      | Some rows =>
          let work' :=
            {| packages := Some (map (reconcileRow entries) rows);
               tmp_installed := Some entries |} in
          let '(failed, db5) := issue Commit db4 in
          if failed then rollbackDeferred (ErrTxCommit Failure) db5
          else (None, with_tables work' db5)
      end
  end.

(** [PackageDatabaseExist]: COUNT over the table, the count scanned and
    not looked at. *)
Definition PackageDatabaseExist (db : DB) : option DriverError * DB :=
  let '(failed, db1) := issue (CountWhere tableName []) db in
  if failed then (Some Failure, db1) else
  match packages (tables db1) with
  | None => (Some NoSuchTable, db1)
  | Some rows =>
      let count := length rows in
      (None, db1)
  end.

(** [isAllowedField]. *)
Fixpoint isAllowedField (field : string) (allowed : list string) : bool :=
  match allowed with
  | [] => false
  | f :: rest => if String.eqb f field then true else isAllowedField field rest
  end.

(** Two rows that differ at most in [installed] and
    [versionInstalled]. *)
Definition same_metadata (r r' : Row) : Prop :=
  col_name r' = col_name r
  /\ col_section r' = col_section r
  /\ col_installed_size r' = col_installed_size r
  /\ col_maintainer r' = col_maintainer r
  /\ col_version r' = col_version r
  /\ col_depends r' = col_depends r
  /\ col_provides r' = col_provides r
  /\ col_size r' = col_size r
  /\ col_filename r' = col_filename r
  /\ col_description r' = col_description r
  /\ col_changelog r' = col_changelog r.

(** The error of the taxonomy's [InvalidField]: [e] rejects [field] and
    carries the allow-list [allowed]. *)
Definition InvalidField (e : error) (field : string) (allowed : list string)
    : Prop :=
  e = ErrInvalidFilterField field allowed \/ e = ErrInvalidSortField field allowed.

Section Queries.
(** [helper.ParseBool] (cmd/common/helper is not under src/): the
    boolean a value stands for, [None] when it stands for none. *)
Variable ParseBool : Value -> option bool.

(** The loop over [filters] that builds the WHERE clause.  A Go map is
    ranged over in an order the language leaves open; [filters] is the
    sequence of entries in the order of this run.  [conditions] and
    [args] grow together, so each condition carries its argument. *)
Fixpoint buildConditions (filters : list (string * Value))
    (conditions : list Cond) : error + list Cond :=
  match filters with
  | [] => inr conditions
  | (field, value) :: rest =>
      if negb (isAllowedField field allowedFilterFields) then
        inl (ErrInvalidFilterField field allowedFilterFields)
      else if String.eqb field "installed" then
        match ParseBool value with
        | None => buildConditions rest conditions
        | Some boolVal =>
            buildConditions rest
              (conditions ++ [CEq field (VInt (if boolVal then 1 else 0))])
        end
      else if String.eqb field "provides" || String.eqb field "depends" then
        match asString value with
        | Some strVal =>
            buildConditions rest
              (conditions ++ [CWrapLike field ("%," +:+ strVal +:+ ",%")])
        | None =>
            buildConditions rest
              (conditions ++ [CWrapLike field ("%," +:+ formatV value +:+ ",%")])
        end
      else
        match asString value with
        | Some strVal =>
            buildConditions rest
              (conditions ++ [CLike field ("%" +:+ strVal +:+ "%")])
        | None =>
            buildConditions rest (conditions ++ [CEq field value])
        end
  end.

(** The condition one allow-listed entry adds to the WHERE clause, if
    any: the body of the loop above for that entry. *)
Definition conditionOf (entry : string * Value) : list Cond :=
  let '(field, value) := entry in
  if String.eqb field "installed" then
    match ParseBool value with
    | None => []
    | Some boolVal => [CEq field (VInt (if boolVal then 1 else 0))]
    end
  else if String.eqb field "provides" || String.eqb field "depends" then
    match asString value with
    | Some strVal => [CWrapLike field ("%," +:+ strVal +:+ ",%")]
    | None => [CWrapLike field ("%," +:+ formatV value +:+ ",%")]
    end
  else
    match asString value with
    | Some strVal => [CLike field ("%" +:+ strVal +:+ "%")]
    | None => [CEq field value]
    end.

(** ORDER BY: checked only when a sort field is given; an order other
    than ASC or DESC becomes ASC. *)
Definition buildOrder (sortField sortOrder : string)
    : error + option (string * string) :=
  if String.eqb sortField "" then inr None
  else if negb (isAllowedField sortField allowedSortFields) then
    inl (ErrInvalidSortField sortField allowedSortFields)
  else
    let upperOrder := GoStrings.ToUpper sortOrder in
    let upperOrder :=
      if negb (String.eqb upperOrder "ASC") && negb (String.eqb upperOrder "DESC")
      then "ASC" else upperOrder in
    inr (Some (sortField, upperOrder)).

(** The statement [QueryHostImagePackages] builds before it touches
    the connection. *)
Definition buildQuery (filters : list (string * Value))
    (sortField sortOrder : string) (limit offset : Z) : error + Select :=
  match buildConditions filters [] with
  | inl e => inl e
  | inr conditions =>
      match buildOrder sortField sortOrder with
      | inl e => inl e
      | inr order =>
          inr {| sel_where := conditions;
                 sel_order := order;
                 sel_limit := if 0 <? limit then Some limit else None;
                 sel_offset :=
                   if (0 <? limit) && (0 <? offset) then Some offset else None |}
      end
  end.

(** Running a SELECT on the connection and scanning its rows. *)
Definition runQuery (q : Select) (db : DB) : (error + list Package) * DB :=
  let '(failed, db1) := issue (SelectWhere tableName q) db in
  if failed then (inl (ErrQueryExec Failure), db1) else
  match packages (tables db1) with
  | None => (inl (ErrQueryExec NoSuchTable), db1)
  | Some rows =>
      if prepared column q
      then (inr (map fromRow
                   (run_select column (case_sensitive_like db1) q rows)), db1)
      else (inl (ErrQueryExec NoSuchColumn), db1)
  end.

(** [QueryHostImagePackages]. *)
Definition QueryHostImagePackages (filters : list (string * Value))
    (sortField sortOrder : string) (limit offset : Z) (db : DB)
    : (error + list Package) * DB :=
  match buildQuery filters sortField sortOrder limit offset with
  | inl e => (inl e, db)
  | inr q => runQuery q db
  end.

(** [CountHostImagePackages]: the same WHERE clause under COUNT. *)
Definition CountHostImagePackages (filters : list (string * Value)) (db : DB)
    : (error + Z) * DB :=
  match buildConditions filters [] with
  | inl e => (inl e, db)
  | inr conditions =>
      let '(failed, db1) := issue (CountWhere tableName conditions) db in
      if failed then (inl (ErrCount Failure), db1) else
      match packages (tables db1) with
      | None => (inl (ErrCount NoSuchTable), db1)
      | Some rows =>
          if forallb (known column) conditions
          then (inr (Z.of_nat
                       (length (List.filter
                          (satisfies column (case_sensitive_like db1) conditions)
                          rows))), db1)
          else (inl (ErrCount NoSuchColumn), db1)
      end
  end.

End Queries.

(** The list a multi-valued field holds for a package, as the scan of
    its row gives it. *)
Definition listField (field : string) (pkg : Package) : list string :=
  if String.eqb field "provides" then Provides pkg else Depends pkg.

(** The rows a WHERE clause built from [filters] selects. *)
Definition selects (ParseBool : Value -> option bool) (cs : bool)
    (filters : list (string * Value)) (r : Row) : bool :=
  match buildConditions ParseBool filters [] with
  | inl _ => false
  | inr conditions => satisfies column cs conditions r
  end.

(** [SearchPackagesByName]: the rows whose name is LIKE [%namePart%],
    restricted to [installed = 1] when [installed] is set. *)
Definition SearchPackagesByName (namePart : string) (installed : bool) (db : DB)
    : (error + list Package) * DB :=
  let searchPattern := "%" +:+ namePart +:+ "%" in
  let conditions :=
    CLike "name" searchPattern
    :: (if installed then [CEq "installed" (VInt 1)] else []) in
  runQuery {| sel_where := conditions;
              sel_order := None;
              sel_limit := None;
              sel_offset := None |} db.

(** A list that [strings.Join] followed by the reading of [fromRow] gives
    back: no element holds the separator, and the list is not the one
    empty name (which is stored as the empty text, like the empty
    list). *)
Definition storable (l : list string) : Prop :=
  l <> [""] /\ Forall (fun t => has_byte "," t = false) l.

End Apt.

(** ** cmd/distrobox/service: the container package table *)

Module Distro.
Import Sql.

(** The Go struct [PackageInfo]. *)
Record PackageInfo := {
  Name : string;
  Version : string;
  Description : string;
  Container : string;
  Installed : bool;
  Exporting : bool;
  Manager : string
}.

(** A row of [distrobox_packages]. *)
Record Row := {
  col_container : string;
  col_name : string;
  col_version : string;
  col_description : string;
  col_installed : Z;
  col_exporting : Z;
  col_manager : string
}.

Definition columns : list (string * (Row -> SqlVal)) :=
  [ ("container", fun r => SText (col_container r));
    ("name", fun r => SText (col_name r));
    ("version", fun r => SText (col_version r));
    ("description", fun r => SText (col_description r));
    ("installed", fun r => SInt (col_installed r));
    ("exporting", fun r => SInt (col_exporting r));
    ("manager", fun r => SText (col_manager r)) ].

Definition column (f : string) : option (Row -> SqlVal) :=
  snd <$> List.find (fun p => String.eqb (fst p) f) columns.

Definition packagesTableName : string := "distrobox_packages".

(** The service state: the connection, whose one table is
    [distrobox_packages] ([None] while it does not exist), and what
    [lib.Log] has been given. *)
Definition DB := Conn (option (list Row)).

Inductive LogEntry :=
| LogFieldNotUpdatable (fieldName : string)
| LogDriverError (cause : DriverError).

Record State := {
  conn : DB;
  log : list LogEntry
}.

Definition allowedSortFields : list string :=
  ["name"; "version"; "description"; "container"; "installed";
   "exporting"; "manager"].

Definition allowedFilterFields : list string :=
  ["name"; "version"; "description"; "container"; "installed";
   "exporting"; "manager"].

Inductive error :=
| ErrEmptyContainer
| ErrDriver (cause : DriverError)
| ErrNoTable
| ErrNoRecordsAtAll
| ErrNoRecords (containerName : string)
| ErrInvalidFilterField (field : string) (allowed : list string)
| ErrInvalidSortField (field : string) (allowed : list string).

(** The text of an error; [lib.T_] is taken as the identity. *)
Definition Error (e : error) : string :=
  match e with
  | ErrEmptyContainer =>
      "The 'container' field cannot be empty when saving packages to the database"
  | ErrDriver NoSuchTable => "no such table"
  | ErrDriver _ => "driver error"
  | ErrNoTable =>
      "The database does not have any records, it is necessary to create or update any container"
  | ErrNoRecordsAtAll =>
      "The database contains no records, you need to create or update any container."
  | ErrNoRecords containerName =>
      "No records found for container " +:+ containerName +:+ "."
  | ErrInvalidFilterField field allowed =>
      "Invalid filter field: " +:+ field +:+ ". Available fields: "
        +:+ GoStrings.Join allowed ", " +:+ "."
  | ErrInvalidSortField field allowed =>
      "Invalid sort field: " +:+ field +:+ ". Available fields: "
        +:+ GoStrings.Join allowed ", " +:+ "."
  end.

Definition toRow (containerName : string) (pkg : PackageInfo) : Row :=
  {| col_container := containerName;
     col_name := Name pkg;
     col_version := Version pkg;
     col_description := Description pkg;
     col_installed := if Installed pkg then 1 else 0;
     col_exporting := if Exporting pkg then 1 else 0;
     col_manager := Manager pkg |}.

Definition fromRow (r : Row) : PackageInfo :=
  {| Name := col_name r;
     Version := col_version r;
     Description := col_description r;
     Container := col_container r;
     Installed := negb (Z.eqb (col_installed r) 0);
     Exporting := negb (Z.eqb (col_exporting r) 0);
     Manager := col_manager r |}.

Definition batchSize : nat := 1000.

(** The batch loop of [SavePackagesToDB]; [work] is the table as the
    open transaction sees it. *)
Fixpoint insertBatches (fuel : nat) (containerName : string)
    (rest : list PackageInfo) (work : list Row) (db : DB)
    : option error * list Row * DB :=
  match fuel with
  | O => (None, work, db)
  | S fuel' =>
      match rest with
      | [] => (None, work, db)
      | _ :: _ =>
          let batch := firstn batchSize rest in
          let '(failed, db1) := issue (Insert packagesTableName (length batch)) db in
          if failed then
            let '(_, db2) := issue Rollback db1 in
            (Some (ErrDriver Failure), work, db2)
          else
            insertBatches fuel' containerName (skipn batchSize rest)
              (work ++ map (toRow containerName) batch) db1
      end
  end.

(** [SavePackagesToDB]: the rows of one container are deleted on the
    connection, then the new ones inserted in a transaction. *)
Definition SavePackagesToDB (containerName : string) (pkgs : list PackageInfo)
    (db : DB) : option error * DB :=
  if String.eqb containerName "" then (Some ErrEmptyContainer, db) else
  let '(failed, db1) := issue (CreateTable packagesTableName) db in
  if failed then (Some (ErrDriver Failure), db1) else
  let rows1 := match tables db1 with None => [] | Some rows => rows end in
  let db1 := with_tables (Some rows1) db1 in
  let '(failed, db2) := issue (Delete packagesTableName (Some containerName)) db1 in
  if failed then (Some (ErrDriver Failure), db2) else
  let rows2 :=
    List.filter (fun r => negb (String.eqb (col_container r) containerName)) rows1 in
  let db2 := with_tables (Some rows2) db2 in
  let '(failed, db3) := issue Begin db2 in
  if failed then (Some (ErrDriver Failure), db3) else
  match insertBatches (length pkgs) containerName pkgs rows2 db3 with
  | (Some e, _, db4) => (Some e, db4)
  | (None, work, db4) =>
      let '(failed, db5) := issue Commit db4 in
      if failed then (Some (ErrDriver Failure), db5)
      else (None, with_tables (Some work) db5)
  end.

(** [DatabaseExist]: an error unless the table holds a row. *)
Definition DatabaseExist (db : DB) : option error * DB :=
  let '(failed, db1) := issue (CountWhere packagesTableName []) db in
  if failed then (Some (ErrDriver Failure), db1) else
  match tables db1 with
  | None => (Some ErrNoTable, db1)
  | Some rows =>
      let count := length rows in
      if Nat.eqb count 0 then (Some ErrNoRecordsAtAll, db1) else (None, db1)
  end.

(** [ContainerDatabaseExist]: an error unless the table holds a row of
    the container. *)
Definition ContainerDatabaseExist (containerName : string) (db : DB)
    : option error * DB :=
  let '(failed, db1) :=
    issue (CountWhere packagesTableName [CEq "container" (VString containerName)]) db in
  if failed then (Some (ErrDriver Failure), db1) else
  match tables db1 with
  | None => (Some (ErrDriver NoSuchTable), db1)
  | Some rows =>
      let count :=
        length (List.filter (fun r => String.eqb (col_container r) containerName) rows) in
      if Nat.eqb count 0 then (Some (ErrNoRecords containerName), db1)
      else (None, db1)
  end.

Definition isAllowedField (field : string) (allowed : list string) : bool :=
  existsb (String.eqb field) allowed.

(** The error of the taxonomy's [InvalidField]. *)
Definition InvalidField (e : error) (field : string) (allowed : list string)
    : Prop :=
  e = ErrInvalidFilterField field allowed \/ e = ErrInvalidSortField field allowed.

Section Queries.
(** [helper.ParseBool] (cmd/common/helper is not under src/). *)
Variable ParseBool : Value -> option bool.

(** The loop of [QueryPackages] over [filters], entries in the order
    the run ranges over the map. *)
Fixpoint buildConditions (filters : list (string * Value))
    (conditions : list Cond) : error + list Cond :=
  match filters with
  | [] => inr conditions
  | (field, value) :: rest =>
      if negb (isAllowedField field allowedFilterFields) then
        inl (ErrInvalidFilterField field allowedFilterFields)
      else if String.eqb field "installed" || String.eqb field "exporting" then
        match ParseBool value with
        | None => buildConditions rest conditions
        | Some boolVal =>
            buildConditions rest
              (conditions ++ [CEq field (VInt (if boolVal then 1 else 0))])
        end
      else
        match asString value with
        | Some strVal =>
            buildConditions rest
              (conditions ++ [CLike field ("%" +:+ strVal +:+ "%")])
        | None =>
            buildConditions rest (conditions ++ [CEq field value])
        end
  end.

(** The condition one allow-listed entry adds to the WHERE clause, if
    any: the body of the loop above for that entry. *)
Definition conditionOf (entry : string * Value) : list Cond :=
  let '(field, value) := entry in
  if String.eqb field "installed" || String.eqb field "exporting" then
    match ParseBool value with
    | None => []
    | Some boolVal => [CEq field (VInt (if boolVal then 1 else 0))]
    end
  else
    match asString value with
    | Some strVal => [CLike field ("%" +:+ strVal +:+ "%")]
    | None => [CEq field value]
    end.

Definition buildOrder (sortField sortOrder : string)
    : error + option (string * string) :=
  if String.eqb sortField "" then inr None
  else if negb (isAllowedField sortField allowedSortFields) then
    inl (ErrInvalidSortField sortField allowedSortFields)
  else
    let upperOrder := GoStrings.ToUpper sortOrder in
    let upperOrder :=
      if negb (String.eqb upperOrder "ASC") && negb (String.eqb upperOrder "DESC")
      then "ASC" else upperOrder in
    inr (Some (sortField, upperOrder)).

(** The statement [QueryPackages] builds; a container name, when
    given, is the first condition. *)
Definition buildQuery (containerName : string) (filters : list (string * Value))
    (sortField sortOrder : string) (limit offset : Z) : error + Select :=
  let conditions :=
    if String.eqb containerName "" then []
    else [CEq "container" (VString containerName)] in
  match buildConditions filters conditions with
  | inl e => inl e
  | inr conditions =>
      match buildOrder sortField sortOrder with
      | inl e => inl e
      | inr order =>
          inr {| sel_where := conditions;
                 sel_order := order;
                 sel_limit := if 0 <? limit then Some limit else None;
                 sel_offset :=
                   if (0 <? limit) && (0 <? offset) then Some offset else None |}
      end
  end.

Definition runQuery (q : Select) (db : DB) : (error + list PackageInfo) * DB :=
  let '(failed, db1) := issue (SelectWhere packagesTableName q) db in
  if failed then (inl (ErrDriver Failure), db1) else
  match tables db1 with
  | None => (inl (ErrDriver NoSuchTable), db1)
  | Some rows =>
      if prepared column q
      then (inr (map fromRow
                   (run_select column (case_sensitive_like db1) q rows)), db1)
      else (inl (ErrDriver NoSuchColumn), db1)
  end.

(** [QueryPackages]. *)
Definition QueryPackages (containerName : string)
    (filters : list (string * Value)) (sortField sortOrder : string)
    (limit offset : Z) (db : DB) : (error + list PackageInfo) * DB :=
  match buildQuery containerName filters sortField sortOrder limit offset with
  | inl e => (inl e, db)
  | inr q => runQuery q db
  end.

End Queries.

(** The fields [UpdatePackageField] may write. *)
Definition allowedFields : gmap string bool :=
  {[ "installed" := true; "exporting" := true ]}.

(** The UPDATE of [UpdatePackageField] on one row. *)
Definition setField (fieldName : string) (intVal : Z) (r : Row) : Row :=
  {| col_container := col_container r;
     col_name := col_name r;
     col_version := col_version r;
     col_description := col_description r;
     col_installed :=
       if String.eqb fieldName "installed" then intVal else col_installed r;
     col_exporting :=
       if String.eqb fieldName "exporting" then intVal else col_exporting r;
     col_manager := col_manager r |}.

(** [UpdatePackageField]: it has no result; a refused field and a failed
    UPDATE are both only logged. *)
Definition UpdatePackageField (containerName name fieldName : string)
    (value : bool) (st : State) : State :=
  if negb (default false (allowedFields !! fieldName)) then
    {| conn := conn st; log := LogFieldNotUpdatable fieldName :: log st |}
  else
    let intVal := if value then 1 else 0 in
    let '(failed, db1) :=
      issue (UpdateField packagesTableName fieldName intVal containerName name)
        (conn st) in
    if failed then
      {| conn := db1; log := LogDriverError Failure :: log st |}
    else
      match tables db1 with
      | None =>
          {| conn := db1; log := LogDriverError NoSuchTable :: log st |}
      | Some rows =>
          {| conn :=
               with_tables
                 (Some (map (fun r =>
                               if String.eqb (col_container r) containerName
                                  && String.eqb (col_name r) name
                               then setField fieldName intVal r else r) rows))
                 db1;
             log := log st |}
      end.

Section Counting.
(** [helper.ParseBool] (cmd/common/helper is not under src/). *)
Variable ParseBool : Value -> option bool.

(** [CountTotalPackages]: the WHERE clause of [QueryPackages] under
    COUNT. *)
Definition CountTotalPackages (containerName : string)
    (filters : list (string * Value)) (db : DB) : (error + Z) * DB :=
  let conditions :=
    if String.eqb containerName "" then []
    else [CEq "container" (VString containerName)] in
  match buildConditions ParseBool filters conditions with
  | inl e => (inl e, db)
  | inr conditions =>
      let '(failed, db1) := issue (CountWhere packagesTableName conditions) db in
      if failed then (inl (ErrDriver Failure), db1) else
      match tables db1 with
      | None => (inl (ErrDriver NoSuchTable), db1)
      | Some rows =>
          if forallb (known column) conditions
          then (inr (Z.of_nat
                       (length (List.filter
                          (satisfies column (case_sensitive_like db1) conditions)
                          rows))), db1)
          else (inl (ErrDriver NoSuchColumn), db1)
      end
  end.

End Counting.

(** [FindPackagesByName]: the rows of the container (of every container
    when no name is given) whose name is LIKE [%partialName%]; an empty
    [partialName] adds no condition. *)
Definition FindPackagesByName (containerName partialName : string) (db : DB)
    : (error + list PackageInfo) * DB :=
  let conditions :=
    (if String.eqb containerName "" then []
     else [CEq "container" (VString containerName)])
    ++ (if String.eqb partialName "" then []
        else [CLike "name" ("%" +:+ partialName +:+ "%")]) in
  runQuery {| sel_where := conditions;
              sel_order := None;
              sel_limit := None;
              sel_offset := None |} db.

(** [GetPackageInfoByName]: the first row of the container with that
    name; the driver's error is returned as it is. *)
Definition GetPackageInfoByName (containerName name : string) (db : DB)
    : (error + PackageInfo) * DB :=
  let '(failed, db1) :=
    issue (SelectName packagesTableName (Some containerName) name) db in
  if failed then (inl (ErrDriver Failure), db1) else
  match tables db1 with
  | None => (inl (ErrDriver NoSuchTable), db1)
  | Some rows =>
      match List.find (fun r => String.eqb (col_container r) containerName
                                && String.eqb (col_name r) name) rows with
      | None => (inl (ErrDriver NoRows), db1)
      | Some r => (inr (fromRow r), db1)
      end
  end.

(** The error of [DeletePackagesFromContainer]: the container and the
    driver's error. *)
Inductive DeleteError :=
| ErrDeleteRecords (containerName : string) (cause : DriverError).

(** [DeletePackagesFromContainer]: DELETE of the rows of one
    container. *)
Definition DeletePackagesFromContainer (containerName : string) (db : DB)
    : option DeleteError * DB :=
  let '(failed, db1) :=
    issue (Delete packagesTableName (Some containerName)) db in
  if failed then (Some (ErrDeleteRecords containerName Failure), db1) else
  match tables db1 with
  | None => (Some (ErrDeleteRecords containerName NoSuchTable), db1)
  | Some rows =>
      (None,
       with_tables
         (Some (List.filter
                  (fun r => negb (String.eqb (col_container r) containerName))
                  rows))
         db1)
  end.

End Distro.

(** ** cmd/distrobox/service: the ALT provider's reading of the package
    dump *)

Module AltProvider.

(** [strings.SplitN(line, ":", 2)] when it has two parts: the text before
    the first colon and the text after it. *)
Fixpoint splitColon (line : string) : option (string * string) :=
  match line with
  | EmptyString => None
  | String c rest =>
      if Ascii.eqb c ":" then Some ("", rest)
      else match splitColon rest with
           | Some (key, value) => Some (String c key, value)
           | None => None
           end
  end.

(** The Go string of one line feed. *)
Definition newline : string := String (Ascii.ascii_of_nat 10) EmptyString.

(** The package being read, as [PackageInfo{}] starts it. *)
Definition emptyInfo : Distro.PackageInfo :=
  {| Distro.Name := ""; Distro.Version := ""; Distro.Description := "";
     Distro.Container := ""; Distro.Installed := false;
     Distro.Exporting := false; Distro.Manager := "" |}.

Definition withName (value : string) (p : Distro.PackageInfo) : Distro.PackageInfo :=
  {| Distro.Name := value; Distro.Version := Distro.Version p;
     Distro.Description := Distro.Description p;
     Distro.Container := Distro.Container p;
     Distro.Installed := Distro.Installed p;
     Distro.Exporting := Distro.Exporting p; Distro.Manager := Distro.Manager p |}.

Definition withVersion (value : string) (p : Distro.PackageInfo) : Distro.PackageInfo :=
  {| Distro.Name := Distro.Name p; Distro.Version := value;
     Distro.Description := Distro.Description p;
     Distro.Container := Distro.Container p;
     Distro.Installed := Distro.Installed p;
     Distro.Exporting := Distro.Exporting p; Distro.Manager := Distro.Manager p |}.

Definition withDescription (value : string) (p : Distro.PackageInfo)
    : Distro.PackageInfo :=
  {| Distro.Name := Distro.Name p; Distro.Version := Distro.Version p;
     Distro.Description := value;
     Distro.Container := Distro.Container p;
     Distro.Installed := Distro.Installed p;
     Distro.Exporting := Distro.Exporting p; Distro.Manager := Distro.Manager p |}.

(** The variables of the loop of [GetPackages] over the lines:
    [packages], [pkg] and [currentKey]. *)
Record Scan := {
  packages : list Distro.PackageInfo;
  pkg : Distro.PackageInfo;
  currentKey : string
}.

(** What the reading loop never touches in a package. *)
Definition untouched (p : Distro.PackageInfo) : Prop :=
  Distro.Installed p = false /\ Distro.Exporting p = false
  /\ Distro.Container p = "" /\ Distro.Manager p = "".

(** The invariant of the reading loop: it appends named packages only,
    and sets nothing but the name, the version and the description. *)
Definition sound (st : Scan) : Prop :=
  Forall (fun p => Distro.Name p <> "" /\ untouched p) (packages st)
  /\ untouched (pkg st).

Section Reading.
(** [strings.TrimSpace], and [helper.GetVersionFromAptCache]
    (cmd/common/helper is not under src/), [None] being its error. *)
Variable TrimSpace : string -> string.
Variable GetVersionFromAptCache : string -> option string.

(** One turn of the loop, on the text of one line. *)
Definition scanLine (st : Scan) (text : string) : Scan :=
  let line := TrimSpace text in
  if String.eqb line "" then
    if negb (String.eqb (Distro.Name (pkg st)) "") then
      {| packages := packages st ++ [pkg st];
         pkg := emptyInfo;
         currentKey := "" |}
    else st
  else
    match splitColon line with
    | Some (part0, part1) =>
        let key := TrimSpace part0 in
        let value := TrimSpace part1 in
        let pkg' :=
          if String.eqb key "Package" then withName value (pkg st)
          else if String.eqb key "Version" then
            match GetVersionFromAptCache value with
            | None => withVersion value (pkg st)
            | Some versionValue => withVersion versionValue (pkg st)
            end
          else if String.eqb key "Description" then withDescription value (pkg st)
          else pkg st in
        {| packages := packages st; pkg := pkg'; currentKey := key |}
    | None =>
        if String.eqb (currentKey st) "Description" then
          {| packages := packages st;
             pkg := withDescription
                      (Distro.Description (pkg st) +:+ newline +:+ line) (pkg st);
             currentKey := currentKey st |}
        else st
    end.

(** The loop over the lines, and the package left open at the end. *)
Definition scanLines (lines : list string) : list Distro.PackageInfo :=
  let st :=
    fold_left scanLine lines
      {| packages := []; pkg := emptyInfo; currentKey := "" |} in
  if negb (String.eqb (Distro.Name (pkg st)) "") then packages st ++ [pkg st]
  else packages st.

(** [installedMap], built from the names of the installed packages. *)
Definition installedMap (installedPackages : list string) : gmap string bool :=
  fold_left (fun m name => <[name := true]> m) installedPackages ∅.

(** The last loop: the installed flag and the manager of each
    package. *)
Definition mark (m : gmap string bool) (p : Distro.PackageInfo)
    : Distro.PackageInfo :=
  {| Distro.Name := Distro.Name p; Distro.Version := Distro.Version p;
     Distro.Description := Distro.Description p;
     Distro.Container := Distro.Container p;
     Distro.Installed :=
       if default false (m !! Distro.Name p) then true else Distro.Installed p;
     Distro.Exporting := Distro.Exporting p;
     Distro.Manager := "apt-get" |}.

(** What [GetPackages] returns when its commands succeed, from the lines
    of the dump and the names of the installed packages. *)
Definition GetPackages (lines : list string) (installedPackages : list string)
    : list Distro.PackageInfo :=
  map (mark (installedMap installedPackages)) (scanLines lines).

End Reading.

End AltProvider.

(** ** cmd/system: the resolution stage of the actions *)

Module System.
Import Sql.

(** The counts and lists of a simulated run ([apt.PackageChanges]), as
    the actions read them. *)
Record PackageChanges := {
  NewInstalledCount : Z;
  UpgradedCount : Z;
  RemovedCount : Z;
  RemovedPackages : list string
}.

(** A value of the [Data] map of a response. *)
Inductive DataValue :=
| DString (s : string)
| DStrings (l : list string)
| DInfo (info : PackageChanges).

(** [reply.APIResponse]: the entries of [Data] and the error flag. *)
Record APIResponse := {
  Data : list (string * DataValue);
  Error : bool
}.

(** A Go [error] an action returns: one of the package service, or
    [fmt.Errorf(text)] without operands (also the errors of the
    collaborators, known by their text). *)
Inductive error :=
| AptError (e : Apt.error)
| Errorf (text : string).

(** [err.Error()]; for [Errorf text] it is [text], which is what
    [fmt.Errorf] prints for a text without formatting verb. *)
Definition errText (e : error) : string :=
  match e with
  | AptError e => Apt.Error e
  | Errorf text => text
  end.

(** [Actions.newErrorResponse]. *)
Definition newErrorResponse (message : string) : APIResponse :=
  {| Data := [("message", DString message)]; Error := true |}.

Definition isMarker (c : option ascii) : bool :=
  match c with
  | Some c => Ascii.eqb c "+" || Ascii.eqb c "-"
  | None => false
  end.

(** The name with its last [k] bytes dropped. *)
Definition stripped (k : nat) (pkg : string) : string :=
  Nat.iter k GoStrings.dropLast pkg.

(** The lookups of [pkg], of [pkg] without its last byte, and so on down
    to [pkg] without its last [k] bytes, as the journal holds them
    (newest first). *)
Definition lookups (k : nat) (pkg : string) : list Stmt :=
  rev (map (fun i => SelectName Apt.tableName None (stripped i pkg))
         (seq 0 (S k))).

(** A name [Install] resolves on a table holding [rows]: one with a row
    of that name or, when it ends in a marker, with a row named like it
    without that marker. *)
Definition resolvable (rows : list Apt.Row) (pkg : string) : bool :=
  Apt.hasPackage rows pkg
  || ((0 <? String.length pkg)%nat && isMarker (GoStrings.lastByte pkg)
      && Apt.hasPackage rows (GoStrings.dropLast pkg)).

(** The name the last lookup of [Install] was made for. *)
Definition lastTried (pkg : string) : string :=
  if (0 <? String.length pkg)%nat && isMarker (GoStrings.lastByte pkg)
  then GoStrings.dropLast pkg else pkg.

(** Statements that only look a row up by name or count the rows. *)
Definition isLookup (st : Stmt) : bool :=
  match st with
  | SelectName _ _ _ | CountWhere _ _ => true
  | _ => false
  end.

Section Actions.
(** [Sys]: the state of the host outside the package table and the
    desired configuration (effective user, overlay, image).
    [Config]: the desired configuration that [HostConfigService]
    holds and persists. *)
Context {Sys Config : Type}.

Record World := {
  db : Apt.DB;
  config : Config;
  sys : Sys
}.

Definition with_db (d : Apt.DB) (w : World) : World :=
  {| db := d; config := config w; sys := sys w |}.
Definition with_config (c : Config) (w : World) : World :=
  {| db := db w; config := c; sys := sys w |}.
Definition with_sys (s : Sys) (w : World) : World :=
  {| db := db w; config := config w; sys := s |}.

Definition Result : Type := (APIResponse * option error) * World.

(** What the actions call and src/ does not hold, each with the state
    it is handed: [helper.ParseBool], [lib.Env.IsAtomic],
    [syscall.Geteuid], the host image service ([EnableOverlay],
    [BuildAndSwitch]), the package-level [newErrorResponse], the update of
    the package actions, and the host configuration service.  The last
    two fields are the statements of [Remove] (after its loop over the
    names) and of [Install] (after its loop): simulate, drift check,
    confirm, execute, resync.  They are calls into the dry-run
    classifier, the dialog and the services above, and are reached only
    when every name resolved. *)
Record Collaborators := {
  ParseBool : Value -> option bool;
  IsAtomic : bool;
  Geteuid : Sys -> Z;
  EnableOverlay : Sys -> option error * Sys;
  newErrorResponsePkg : string -> APIResponse;
  Update : World -> option error * World;
  LoadConfig : Config -> option error * Config;
  AddInstallPackage : string -> Config -> option error * Config;
  AddRemovePackage : string -> Config -> option error * Config;
  GenerateDockerfile : Config -> option error * Config;
  BuildAndSwitch : Config -> Sys -> option error * Sys;
  removeResolved :
    list string -> list Apt.Package -> list string -> bool -> World -> Result;
  installResolved :
    bool -> list string -> list Apt.Package -> list string -> bool -> World -> Result
}.

Variable E : Collaborators.

(** [checkRoot]. *)
Definition checkRoot (w : World) : option error * World :=
  if negb (Geteuid E (sys w) =? 0) then
    (Some (Errorf "для выполнения необходимы права администратора, используйте sudo или su"), w)
  else if IsAtomic E then
    let '(err, s) := EnableOverlay E (sys w) in
    match err with
    | Some e => (Some e, with_sys s w)
    | None => (None, with_sys s w)
    end
  else (None, w).

(** [validateDB]: a failed existence check starts a full update. *)
Definition validateDB (w : World) : option error * World :=
  let '(err, d) := Apt.PackageDatabaseExist (db w) in
  let w := with_db d w in
  match err with
  | Some _ =>
      let '(err, w) := checkRoot w in
      match err with
      | Some e => (Some e, w)
      | None =>
          let '(err, w) := Update E w in
          match err with
          | Some e => (Some e, w)
          | None => (None, w)
          end
      end
  | None => (None, w)
  end.

(** The loop of [Remove] over the requested names: an exact lookup
    each, the first failure ends the action. *)
Fixpoint resolveRemove (pkgs : list string) (names : list string)
    (packagesInfo : list Apt.Package) (d : Apt.DB)
    : (error + list string * list Apt.Package) * Apt.DB :=
  match pkgs with
  | [] => (inr (names, packagesInfo), d)
  | pkg :: rest =>
      let '(r, d) := Apt.GetPackageByName pkg d in
      match r with
      | inl e => (inl (AptError e), d)
      | inr packageInfo =>
          resolveRemove rest (names ++ [Apt.Name packageInfo])
            (packagesInfo ++ [packageInfo]) d
      end
  end.

(** [Remove]: the checks, the loop over the names, and the stages after
    it. *)
Definition Remove (pkgs : list string) (apply : bool) (w : World) : Result :=
  let '(err, w) := checkRoot w in
  match err with
  | Some e => ((newErrorResponsePkg E (errText e), Some e), w)
  | None =>
      let '(err, w) := validateDB w in
      match err with
      | Some e => ((newErrorResponse (errText e), Some e), w)
      | None =>
          if Nat.eqb (length pkgs) 0 then
            (({| Data := [("message",
                           DString "Необходимо указать хотя бы один пакет, например remove package")];
                 Error := true |}, None), w)
          else
            let '(r, d) := resolveRemove pkgs [] [] (db w) in
            let w := with_db d w in
            match r with
            | inl e => ((newErrorResponse (errText e), Some e), w)
            | inr (names, packagesInfo) =>
                removeResolved E names packagesInfo pkgs apply w
            end
      end
  end.

(** The two lookups [Install] makes for one name: the name as given
    and, when that fails and the name ends in a marker, the name
    without its last byte.  The result is the package or the error of
    the last lookup, and whether the second lookup found it. *)
Definition lookupInstall (pkg : string) (d : Apt.DB)
    : (Apt.error + Apt.Package) * bool * Apt.DB :=
  let '(r, d) := Apt.GetPackageByName pkg d in
  match r with
  | inr packageInfo => (inr packageInfo, false, d)
  | inl e =>
      if (0 <? String.length pkg)%nat && isMarker (GoStrings.lastByte pkg) then
        let cleanedPkg := GoStrings.dropLast pkg in
        let '(r, d) := Apt.GetPackageByName cleanedPkg d in
        match r with
        | inr packageInfo => (inr packageInfo, true, d)
        | inl e => (inl e, false, d)
        end
      else (inl e, false, d)
  end.

(** What [Install] does with a name neither lookup found: a search by
    [provides] for at most five rows, their names offered. *)
Definition suggest (originalPkg : string) (e : Apt.error) (d : Apt.DB)
    : (APIResponse * option error) * Apt.DB :=
  let filters := [("provides", VString originalPkg)] in
  let '(found, d) :=
    Apt.QueryHostImagePackages (ParseBool E) filters "" "" 5 0 d in
  match found with
  | inl errFind => ((newErrorResponse (Apt.Error e), Some (AptError e)), d)
  | inr alternativePackages =>
      if Nat.eqb (length alternativePackages) 0 then
        let errorFindPackage :=
          "не удалось получить информацию о пакете " +:+ originalPkg in
        ((newErrorResponse errorFindPackage, Some (Errorf errorFindPackage)), d)
      else
        let altNames := map Apt.Name alternativePackages in
        let message := Apt.Error e +:+ ". Может быть, Вы искали: " in
        (({| Data := [("message", DString message);
                      ("packages", DStrings altNames)];
             Error := true |}, None), d)
  end.

(** The rows the search by [provides] of [Install] returns for [pkg]. *)
Definition alternatives (cs : bool) (rows : list Apt.Row) (pkg : string)
    : list Apt.Row :=
  firstn 5 (List.filter
              (Apt.selects (ParseBool E) cs [("provides", VString pkg)]) rows).

(** The loop of [Install] over the requested names. *)
Fixpoint resolveInstall (pkgs : list string) (isMultiInstall : bool)
    (packageNames : list string) (packagesInfo : list Apt.Package)
    (d : Apt.DB)
    : ((APIResponse * option error) + bool * list string * list Apt.Package)
      * Apt.DB :=
  match pkgs with
  | [] => (inr (isMultiInstall, packageNames, packagesInfo), d)
  | pkg :: rest =>
      let originalPkg := pkg in
      let '(r, stripped, d) := lookupInstall pkg d in
      match r with
      | inl e =>
          let '(answer, d) := suggest originalPkg e d in (inl answer, d)
      | inr packageInfo =>
          resolveInstall rest (isMultiInstall || stripped)
            (packageNames ++ [originalPkg]) (packagesInfo ++ [packageInfo]) d
      end
  end.

(** [Install]: the checks, the loop over the names, and the stages
    after it. *)
Definition Install (pkgs : list string) (apply : bool) (w : World) : Result :=
  let '(err, w) := checkRoot w in
  match err with
  | Some e => ((newErrorResponsePkg E (errText e), Some e), w)
  | None =>
      let '(err, w) := validateDB w in
      match err with
      | Some e => ((newErrorResponse (errText e), Some e), w)
      | None =>
          if Nat.eqb (length pkgs) 0 then
            (({| Data := [("message",
                           DString "Необходимо указать хотя бы один пакет, например install package")];
                 Error := true |}, None), w)
          else
            let '(r, d) := resolveInstall pkgs false [] [] (db w) in
            let w := with_db d w in
            match r with
            | inl answer => (answer, w)
            | inr (isMultiInstall, packageNames, packagesInfo) =>
                installResolved E isMultiInstall packageNames packagesInfo
                  pkgs apply w
            end
      end
  end.

(** The inner loop of [applyChange]: while the name is not empty and
    ends in a marker, drop its last byte and look the rest up; a hit
    leaves the loop.  Every turn shortens the name, so
    [fuel = len(canonicalPkg)] turns suffice. *)
Fixpoint stripMarkers (fuel : nat) (canonicalPkg : string) (d : Apt.DB)
    : string * Apt.DB :=
  match fuel with
  | O => (canonicalPkg, d)
  | S fuel' =>
      if (0 <? String.length canonicalPkg)%nat
         && isMarker (GoStrings.lastByte canonicalPkg)
      then
        let canonicalPkg := GoStrings.dropLast canonicalPkg in
        let '(r, d) := Apt.GetPackageByName canonicalPkg d in
        match r with
        | inr _ => (canonicalPkg, d)
        | inl _ => stripMarkers fuel' canonicalPkg d
        end
      else (canonicalPkg, d)
  end.

(** The name [applyChange] records for a requested name. *)
Definition canonicalName (pkg : string) (d : Apt.DB) : string * Apt.DB :=
  let '(r, d) := Apt.GetPackageByName pkg d in
  match r with
  | inr _ => (pkg, d)
  | inl _ => stripMarkers (String.length pkg) pkg d
  end.

(** The loop of [applyChange] over the names. *)
Fixpoint recordChanges (pkgs : list string) (isInstall : bool) (w : World)
    : option error * World :=
  match pkgs with
  | [] => (None, w)
  | pkg :: rest =>
      if Nat.eqb (String.length pkg) 0 then recordChanges rest isInstall w
      else
        let originalPkg := pkg in
        let '(canonicalPkg, d) := canonicalName pkg (db w) in
        let w := with_db d w in
        let byDefault :=
          if isInstall
          then AddInstallPackage E canonicalPkg (config w)
          else AddRemovePackage E canonicalPkg (config w) in
        let '(err, c) :=
          match GoStrings.lastByte originalPkg with
          | Some last =>
              if Ascii.eqb last "+" then AddInstallPackage E canonicalPkg (config w)
              else if Ascii.eqb last "-" then AddRemovePackage E canonicalPkg (config w)
              else byDefault
          | None => byDefault
          end in
        let w := with_config c w in
        match err with
        | Some e => (Some e, w)
        | None => recordChanges rest isInstall w
        end
  end.

(** [applyChange]. *)
Definition applyChange (pkgs : list string) (isInstall : bool) (w : World)
    : option error * World :=
  if negb (IsAtomic E) then
    (Some (Errorf "опция доступна только для атомарной системы"), w)
  else
    let '(err, c) := LoadConfig E (config w) in
    let w := with_config c w in
    match err with
    | Some e => (Some e, w)
    | None =>
        let '(err, w) := recordChanges pkgs isInstall w in
        match err with
        | Some e => (Some e, w)
        | None =>
            let '(err, c) := GenerateDockerfile E (config w) in
            let w := with_config c w in
            match err with
            | Some e => (Some e, w)
            | None =>
                let '(err, s) := BuildAndSwitch E (config w) (sys w) in
                let w := with_sys s w in
                match err with
                | Some e => (Some e, w)
                | None => (None, w)
                end
            end
        end
    end.

End Actions.

Arguments World : clear implicits.
Arguments Collaborators : clear implicits.

End System.

(** ** The classification of package-manager errors *)

Module Classifier.

(** The stable codes of classified errors: the two the actions name, and
    the others. *)
Inductive ErrCode :=
| ErrPackageIsAlreadyNewest
| ErrPackageNotInstalled
| ErrOther (code : nat).

Record ErrorEntry := { Code : ErrCode }.

(** A classified error ([apt.MatchedError]): its table entry and the
    parameters taken from the message. *)
Record MatchedError := {
  Entry : ErrorEntry;
  Params : list string
}.

(** The codes that say the requested state is already there. *)
Definition benign (e : MatchedError) : bool :=
  match Code (Entry e) with
  | ErrPackageIsAlreadyNewest | ErrPackageNotInstalled => true
  | ErrOther _ => false
  end.

(** Modelled from the spec: [apt.FindCriticalError], whose file
    (cmd/system/apt, the dry-run classifier) is not under src/; only its
    calls in the actions are.  Among the classified errors, the first
    one whose code is not benign is returned; [None] is Go's [nil]. *)
Fixpoint FindCriticalError (errors : list MatchedError) : option MatchedError :=
  match errors with
  | [] => None
  | e :: rest => if benign e then FindCriticalError rest else Some e
  end.

End Classifier.

(** ** Concrete inputs *)

Module Samples.
Import Sql.

(** Modelled from the spec: [helper.ParseBool] (cmd/common/helper is not
    under src/).  A boolean-typed field accepts any syntactic boolean
    representation ("1", "true", "yes", case-insensitive, and their
    negative counterparts); anything else is unparseable. *)
Definition ParseBool (v : Value) : option bool :=
  match v with
  | VBool b => Some b
  | VInt z => if z =? 1 then Some true else if z =? 0 then Some false else None
  | VString s =>
      let u := GoStrings.ToUpper s in
      if String.eqb u "1" || String.eqb u "TRUE" || String.eqb u "YES" then Some true
      else if String.eqb u "0" || String.eqb u "FALSE" || String.eqb u "NO" then Some false
      else None
  end.

(** A host package with a name, a version and the names it provides. *)
Definition hostPackage (name version : string) (provides : list string)
    : Apt.Package :=
  {| Apt.Name := name; Apt.Section_ := "base"; Apt.InstalledSize := 10;
     Apt.Maintainer := "maint"; Apt.Version := version;
     Apt.VersionInstalled := ""; Apt.Depends := ["libc"; "libfoo"];
     Apt.Provides := provides; Apt.Size := 5; Apt.Filename := "";
     Apt.Description := ""; Apt.Changelog := ""; Apt.Installed := false |}.

(** A connection to a host table holding [rows], LIKE left at the
    engine's default, with the failures [failures] ahead. *)
Definition hostDB (rows : option (list Apt.Row)) (failures : list bool) : Apt.DB :=
  {| tables := {| Apt.packages := rows; Apt.tmp_installed := None |};
     case_sensitive_like := false;
     faults := failures;
     journal := [] |}.

Definition vim : Apt.Package := hostPackage "vim" "9.1" ["vi"; "editor"].
Definition nano : Apt.Package := hostPackage "nano" "8.0" ["editor"].
Definition pkg : Apt.Package := hostPackage "pkg" "1.0" [].

(** A container package. *)
Definition boxPackage (name : string) : Distro.PackageInfo :=
  {| Distro.Name := name; Distro.Version := "1"; Distro.Description := "";
     Distro.Container := ""; Distro.Installed := false;
     Distro.Exporting := false; Distro.Manager := "apt-get" |}.

Definition boxDB (rows : option (list Distro.Row)) (failures : list bool)
    : Distro.DB :=
  {| tables := rows;
     case_sensitive_like := false;
     faults := failures;
     journal := [] |}.

(** A host table after a scan that found [vim] and [nano], neither
    installed; and the same with the fourth statement failing. *)
Definition scannedDB : Apt.DB :=
  hostDB (Some [Apt.toRow vim; Apt.toRow nano]) [].
Definition failingDB : Apt.DB :=
  hostDB (Some [Apt.toRow vim]) [false; false; false; true].

(** An installed set: [vim] at 9.1. *)
Definition installedSet : gmap string string := {[ "vim" := "9.1" ]}.

(** A container table with a row of container [box] and one of
    container [other], the fourth statement failing. *)
Definition boxRow : Distro.Row := Distro.toRow "box" (boxPackage "git").
Definition otherRow : Distro.Row := Distro.toRow "other" (boxPackage "git").
Definition failingBoxDB : Distro.DB :=
  boxDB (Some [boxRow; otherRow]) [false; false; false; true].

(** A host world for the actions: the desired configuration is the pair
    of the names to install and the names to remove, the rest of the host
    has no state; the caller is root on an atomic system, the
    collaborators succeed, and the stages after resolution answer with the
    names they were given. *)
Definition DesiredConfig : Type := list string * list string.

Definition collaborators : System.Collaborators unit DesiredConfig :=
  {| System.ParseBool := ParseBool;
     System.IsAtomic := true;
     System.Geteuid := fun _ => 0;
     System.EnableOverlay := fun s => (None, s);
     System.newErrorResponsePkg := System.newErrorResponse;
     System.Update := fun w => (None, w);
     System.LoadConfig := fun c => (None, c);
     System.AddInstallPackage :=
       fun name c => (None, (fst c ++ [name], snd c));
     System.AddRemovePackage :=
       fun name c => (None, (fst c, snd c ++ [name]));
     System.GenerateDockerfile := fun c => (None, c);
     System.BuildAndSwitch := fun _ s => (None, s);
     System.removeResolved :=
       fun names _ _ _ w =>
         (({| System.Data := [("packages", System.DStrings names)];
              System.Error := false |}, None), w);
     System.installResolved :=
       fun _ names _ _ _ w =>
         (({| System.Data := [("packages", System.DStrings names)];
              System.Error := false |}, None), w) |}.

Definition world (d : Apt.DB) : System.World unit DesiredConfig :=
  {| System.db := d; System.config := ([], []); System.sys := tt |}.

(** A host table that does not exist yet. *)
Definition freshDB : Apt.DB := hostDB None [].

(** A container table with the rows of two containers and no failure
    ahead. *)
Definition twoBoxesDB : Distro.DB := boxDB (Some [boxRow; otherRow]) [].

(** The service state over [twoBoxesDB], nothing logged. *)
Definition twoBoxes : Distro.State :=
  {| Distro.conn := twoBoxesDB; Distro.log := [] |}.

(** Lines of a package dump: two packages, the second with a description
    that continues on a second line. *)
Definition dumpLines : list string :=
  ["Package: vim"; "Version: 9.1"; "Description: editor"; "";
   "Package: nano"; "Version: 8.0"; "Description: small"; " editor"].

End Samples.

(** * Properties *)

(** ** Texts and LIKE *)

Module TextFacts.
Import Sql.
#[local] Arguments String.append !_ _ / : simpl nomatch.

Lemma append_assoc (a b c : string) : (a +:+ b) +:+ c = a +:+ (b +:+ c).
Proof. induction a as [|x a IH]; simpl; [reflexivity | now rewrite IH]. Qed.

Lemma upper_comma (c : ascii) : GoStrings.upper c = ","%char -> c = ","%char.
Proof.
  destruct c as [[] [] [] [] [] [] [] []]; vm_compute; intros H;
    solve [reflexivity | discriminate H].
Qed.

Lemma char_eq_refl cs c : char_eq cs c c = true.
Proof. unfold char_eq. destruct cs; apply Ascii.eqb_refl. Qed.

Lemma char_eq_comma_l cs c : char_eq cs "," c = true -> c = ","%char.
Proof.
  unfold char_eq. destruct cs; intros H; apply Ascii.eqb_eq in H.
  - now symmetry.
  - apply upper_comma. now symmetry.
Qed.

Lemma char_eq_comma_r cs c : char_eq cs c "," = true -> c = ","%char.
Proof.
  unfold char_eq. destruct cs; intros H; apply Ascii.eqb_eq in H.
  - assumption.
  - now apply upper_comma.
Qed.

Lemma char_eq_exact p c : char_eq true p c = true <-> p = c.
Proof. unfold char_eq. apply Ascii.eqb_eq. Qed.

Lemma text_eq_refl cs s : text_eq cs s s = true.
Proof.
  induction s as [|c s IH]; simpl; [reflexivity|].
  now rewrite char_eq_refl, IH.
Qed.

Lemma text_eq_exact a b : text_eq true a b = true <-> a = b.
Proof.
  revert b. induction a as [|x a IH]; intros [|y b]; simpl;
    try (split; [discriminate | discriminate]); [tauto|].
  rewrite andb_true_iff, char_eq_exact, IH. split.
  - intros [-> ->]. reflexivity.
  - intros [= -> ->]. auto.
Qed.

(** [text_eq] keeps the separator where it is. *)
Lemma text_eq_has_comma cs a b :
  text_eq cs a b = true -> has_byte "," b = has_byte "," a.
Proof.
  revert b. induction a as [|x a IH]; intros [|y b]; simpl; try discriminate;
    [reflexivity|].
  rewrite andb_true_iff. intros [Hc Ht]. rewrite (IH _ Ht). f_equal.
  destruct (Ascii.eqb y ",") eqn:Hy.
  - apply Ascii.eqb_eq in Hy. subst y.
    apply char_eq_comma_r in Hc. subst x. reflexivity.
  - destruct (Ascii.eqb x ",") eqn:Hx; [|reflexivity].
    apply Ascii.eqb_eq in Hx. subst x.
    apply char_eq_comma_l in Hc. subst y. discriminate Hy.
Qed.

(** [%] alone matches every text. *)
Lemma like_percent cs t : like cs "%" t = true.
Proof.
  induction t as [|c t IH]; [reflexivity|].
  simpl. simpl in IH. exact IH.
Qed.

(** A leading [%] lets the rest of the pattern start anywhere. *)
Lemma like_star cs pat t :
  like cs (String "%" pat) t = true
  <-> exists pre post, t = pre +:+ post /\ like cs pat post = true.
Proof.
  change (like cs (String "%" pat) t)
    with ((fix any (t : string) : bool :=
             like cs pat t
             || match t with
                | EmptyString => false
                | String _ t' => any t'
                end) t).
  induction t as [|c t IH].
  - rewrite orb_false_r. split.
    + intros H. exists "", "". auto.
    + intros (pre & post & Heq & H). destruct pre; [|discriminate].
      simpl in Heq. now subst post.
  - rewrite orb_true_iff, IH. split.
    + intros [H | (pre & post & -> & H)].
      * exists "", (String c t). auto.
      * exists (String c pre), post. auto.
    + intros (pre & post & Heq & H). destruct pre as [|x pre].
      * simpl in Heq. subst post. now left.
      * injection Heq as -> ->. right. eauto.
Qed.

(** A pattern that starts with wildcard-free text [lit] matches the
    texts that start with a text equal to [lit] under [text_eq]. *)
Lemma like_literal cs lit pat t :
  has_byte "%" lit = false -> has_byte "_" lit = false ->
  like cs (lit +:+ pat) t = true
  <-> exists x rest, t = x +:+ rest /\ text_eq cs lit x = true
                     /\ like cs pat rest = true.
Proof.
  revert t. induction lit as [|p lit IH]; intros t Hp Hu.
  - simpl. split.
    + intros H. exists "", t. auto.
    + intros (x & rest & -> & Hx & H). destruct x; [assumption | discriminate].
  - simpl in Hp, Hu. apply orb_false_iff in Hp as [Hp1 Hp2].
    apply orb_false_iff in Hu as [Hu1 Hu2].
    simpl. rewrite Hp1, Hu1. simpl. destruct t as [|c t].
    + split; [discriminate|].
      intros (x & rest & Heq & Hx & _). destruct x; discriminate.
    + rewrite andb_true_iff, (IH t Hp2 Hu2). split.
      * intros [Hc (x & rest & -> & Hx & H)].
        exists (String c x), rest. simpl. rewrite Hc, Hx. auto.
      * intros (x & rest & Heq & Hx & H). destruct x as [|y x]; [discriminate|].
        simpl in Heq. injection Heq as -> ->. simpl in Hx.
        apply andb_true_iff in Hx as [Hc Hx]. eauto 6.
Qed.

(** [%lit%] is containment of a text equal to [lit]. *)
Lemma like_contains cs lit t :
  has_byte "%" lit = false -> has_byte "_" lit = false ->
  like cs ("%" +:+ lit +:+ "%") t = true
  <-> exists pre x post, t = pre +:+ x +:+ post /\ text_eq cs lit x = true.
Proof.
  intros Hp Hu. change ("%" +:+ lit +:+ "%") with (String "%" (lit +:+ "%")).
  rewrite like_star. split.
  - intros (pre & post & -> & H).
    apply (like_literal cs lit "%" post Hp Hu) in H as (x & rest & -> & Hx & _).
    eauto.
  - intros (pre & x & post & -> & Hx). exists pre, (x +:+ post). split; [reflexivity|].
    apply (like_literal cs lit "%" _ Hp Hu). exists x, post.
    split; [reflexivity|]. split; [assumption|]. apply like_percent.
Qed.

Lemma text_eq_app cs a b y :
  text_eq cs (a +:+ b) y = true
  <-> exists x z, y = x +:+ z /\ text_eq cs a x = true /\ text_eq cs b z = true.
Proof.
  revert y. induction a as [|c a IH]; intros y; simpl.
  - split.
    + intros H. exists "", y. auto.
    + intros (x & z & -> & Hx & Hz). destruct x; [assumption | discriminate].
  - destruct y as [|d y].
    + split; [discriminate|]. intros (x & z & Heq & Hx & _).
      destruct x; discriminate.
    + rewrite andb_true_iff, IH. split.
      * intros [Hc (x & z & -> & Hx & Hz)]. exists (String d x), z.
        simpl. rewrite Hc, Hx. auto.
      * intros (x & z & Heq & Hx & Hz). destruct x as [|e x]; [discriminate|].
        simpl in Heq. injection Heq as -> ->. simpl in Hx.
        apply andb_true_iff in Hx as [Hc Hx]. eauto 6.
Qed.

Lemma text_eq_comma cs y : text_eq cs "," y = true <-> y = ",".
Proof.
  destruct y as [|c [|d y]]; simpl; try (split; discriminate).
  - rewrite andb_true_r. split.
    + intros H. apply char_eq_comma_l in H. now subst c.
    + intros [= ->]. apply char_eq_refl.
  - rewrite andb_false_r. split; discriminate.
Qed.

Lemma text_eq_nil_r cs a : text_eq cs a "" = true -> a = "".
Proof. destruct a; [reflexivity | discriminate]. Qed.

(** ** Split and the wrapped list *)

Lemma Split_nonempty s sep : GoStrings.Split s sep <> [].
Proof.
  destruct s as [|c s]; simpl; [discriminate|].
  destruct (Ascii.eqb c sep); [discriminate|].
  destruct (GoStrings.Split s sep); discriminate.
Qed.

(** The first token is the text before the first separator. *)
Lemma Split_head s x :
  has_byte "," x = false ->
  (exists post, s +:+ "," = x +:+ "," +:+ post)
  <-> exists ts, GoStrings.Split s "," = x :: ts.
Proof.
  revert x. induction s as [|c s IH]; intros x Hx.
  - simpl. split.
    + intros (post & Heq). destruct x as [|y x]; [eauto|].
      simpl in Heq. injection Heq as <- _. simpl in Hx. discriminate Hx.
    + intros (ts & [= <- <-]). exists "". reflexivity.
  - simpl. destruct (Ascii.eqb c ",") eqn:Hc.
    + apply Ascii.eqb_eq in Hc. subst c. split.
      * intros (post & Heq). destruct x as [|y x]; [eauto|].
        simpl in Heq. injection Heq as <- _. simpl in Hx. discriminate Hx.
      * intros (ts & [= <- <-]). exists (s +:+ ","). reflexivity.
    + split.
      * intros (post & Heq). destruct x as [|y x].
        { simpl in Heq. injection Heq as -> _. rewrite Ascii.eqb_refl in Hc.
          discriminate Hc. }
        simpl in Heq. injection Heq as <- Heq. simpl in Hx.
        apply orb_false_iff in Hx as [_ Hx].
        assert (Hex : exists post, s +:+ "," = x +:+ "," +:+ post) by (eexists; exact Heq).
        apply (IH x Hx) in Hex as (ts & Hts). rewrite Hts. eauto.
      * intros (ts & Heq).
        destruct (GoStrings.Split s ",") as [|t ts'] eqn:Hs;
          [now apply Split_nonempty in Hs|].
        injection Heq as <- <-. simpl in Hx. rewrite Hc in Hx. simpl in Hx.
        assert (Hex : exists ts, t :: ts' = t :: ts) by eauto.
        apply (IH t Hx) in Hex as (post & Hpost).
        exists post. simpl. now rewrite Hpost.
Qed.

(** The later tokens are the texts between two separators. *)
Lemma Split_tail s x :
  has_byte "," x = false ->
  (exists pre post, s +:+ "," = pre +:+ "," +:+ x +:+ "," +:+ post)
  <-> exists t ts, GoStrings.Split s "," = t :: ts /\ In x ts.
Proof.
  intros Hx. induction s as [|c s IH].
  - simpl. split.
    + intros (pre & post & Heq). destruct pre as [|p pre]; simpl in Heq.
      * injection Heq as Heq. destruct x; discriminate.
      * injection Heq as _ Heq. destruct pre; discriminate.
    + intros (t & ts & [= <- <-] & []).
  - simpl. destruct (Ascii.eqb c ",") eqn:Hc.
    + apply Ascii.eqb_eq in Hc. subst c. split.
      * intros (pre & post & Heq). exists "", (GoStrings.Split s ",").
        split; [reflexivity|]. destruct pre as [|p pre]; simpl in Heq.
        -- injection Heq as Heq.
           assert (Hex : exists post, s +:+ "," = x +:+ "," +:+ post) by (eexists; exact Heq).
           apply (Split_head s x Hx) in Hex as (ts & ->). now left.
        -- injection Heq as _ Heq.
           assert (Hex : exists pre post,
                     s +:+ "," = pre +:+ "," +:+ x +:+ "," +:+ post)
             by (do 2 eexists; exact Heq).
           apply IH in Hex as (t & ts & -> & Hin). now right.
      * intros (t & ts & Heq & Hin). injection Heq as <- <-.
        destruct (GoStrings.Split s ",") as [|t ts] eqn:Hs; [destruct Hin|].
        destruct Hin as [-> | Hin].
        -- assert (Hex : exists ts', x :: ts = x :: ts') by eauto.
           rewrite <- Hs in Hex.
           apply (Split_head s x Hx) in Hex as (post & Hpost).
           exists "", post. simpl. now rewrite Hpost.
        -- assert (Hex : exists t' ts', t :: ts = t' :: ts' /\ In x ts') by eauto.
           apply IH in Hex as (pre & post & Hpost).
           exists (String "," pre), post. simpl. now rewrite Hpost.
    + destruct (GoStrings.Split s ",") as [|t ts] eqn:Hs;
        [now apply Split_nonempty in Hs|].
      split.
      * intros (pre & post & Heq). destruct pre as [|p pre]; simpl in Heq.
        -- injection Heq as -> _. rewrite Ascii.eqb_refl in Hc. discriminate Hc.
        -- injection Heq as _ Heq.
           assert (Hex : exists pre post,
                     s +:+ "," = pre +:+ "," +:+ x +:+ "," +:+ post)
             by (do 2 eexists; exact Heq).
           apply IH in Hex as (t' & ts' & [= <- <-] & Hin). eauto.
      * intros (t' & ts' & [= <- <-] & Hin).
        assert (Hex : exists t' ts', t :: ts = t' :: ts' /\ In x ts') by eauto.
        apply IH in Hex as (pre & post & Hpost).
        exists (String c pre), post. simpl. now rewrite Hpost.
Qed.

(** A token without separator is a member of the list exactly when the
    list wrapped in separators contains the token wrapped in
    separators. *)
Lemma wrapped_contains s x :
  has_byte "," x = false ->
  (exists pre post, "," +:+ s +:+ "," = pre +:+ ("," +:+ x +:+ ",") +:+ post)
  <-> In x (GoStrings.Split s ",").
Proof.
  intros Hx. split.
  - intros (pre & post & Heq). destruct pre as [|p pre]; simpl in Heq.
    + injection Heq as Heq. rewrite append_assoc in Heq.
      assert (Hex : exists post, s +:+ "," = x +:+ "," +:+ post) by (eexists; exact Heq).
      apply (Split_head s x Hx) in Hex as (ts & ->). now left.
    + injection Heq as _ Heq. rewrite append_assoc in Heq.
      assert (Hex : exists pre post,
                s +:+ "," = pre +:+ "," +:+ x +:+ "," +:+ post)
             by (do 2 eexists; exact Heq).
      apply (Split_tail s x Hx) in Hex as (t & ts & -> & Hin). now right.
  - intros Hin. destruct (GoStrings.Split s ",") as [|t ts] eqn:Hs; [destruct Hin|].
    destruct Hin as [-> | Hin].
    + assert (Hex : exists ts', x :: ts = x :: ts') by eauto.
      rewrite <- Hs in Hex.
      apply (Split_head s x Hx) in Hex as (post & Hpost).
      exists "", post. simpl. rewrite Hpost. now rewrite append_assoc.
    + assert (Hex : exists t' ts', t :: ts = t' :: ts' /\ In x ts') by eauto.
      rewrite <- Hs in Hex.
      apply (Split_tail s x Hx) in Hex as (pre & post & Hpost).
      exists (String "," pre), post. simpl. rewrite Hpost. simpl.
      now rewrite append_assoc.
Qed.

Lemma has_byte_app c a b :
  has_byte c (a +:+ b) = has_byte c a || has_byte c b.
Proof.
  induction a as [|x a IH]; simpl; [reflexivity|].
  now rewrite IH, orb_assoc.
Qed.

(** The condition of a multi-valued field: the pattern [%,v,%] against the
    stored list wrapped in separators holds exactly when a token of the
    list is [v] as LIKE compares characters, provided [v] holds neither
    the separator nor a wildcard. *)
Lemma like_wrapped cs v s :
  has_byte "," v = false -> has_byte "%" v = false -> has_byte "_" v = false ->
  like cs ("%," +:+ v +:+ ",%") ("," +:+ s +:+ ",") = true
  <-> exists t, In t (GoStrings.Split s ",") /\ text_eq cs v t = true.
Proof.
  intros Hc Hp Hu.
  assert (Hpat : "%," +:+ v +:+ ",%" = "%" +:+ ("," +:+ v +:+ ",") +:+ "%").
  { simpl. now rewrite append_assoc. }
  rewrite Hpat, like_contains.
  2,3: simpl; rewrite has_byte_app; simpl; rewrite ?Hp, ?Hu; reflexivity.
  split.
  - intros (pre & x & post & Heq & Hx).
    change ("," +:+ v +:+ ",") with ("," +:+ (v +:+ ",")) in Hx.
    apply text_eq_app in Hx as (x1 & z & -> & Hx1 & Hz).
    apply text_eq_comma in Hx1 as ->.
    apply text_eq_app in Hz as (t & z2 & -> & Ht & Hz2).
    apply text_eq_comma in Hz2 as ->.
    exists t. split; [|assumption].
    apply wrapped_contains.
    + rewrite (text_eq_has_comma cs v t Ht). exact Hc.
    + eauto.
  - intros (t & Hin & Ht).
    apply wrapped_contains in Hin as (pre & post & Heq).
    + exists pre, ("," +:+ t +:+ ","), post. split; [assumption|].
      change ("," +:+ v +:+ ",") with ("," +:+ (v +:+ ",")).
      apply text_eq_app. exists ",", (t +:+ ","). split; [reflexivity|].
      split; [apply text_eq_refl|].
      apply text_eq_app. exists t, ",". split; [reflexivity|].
      split; [assumption | apply text_eq_refl].
    + rewrite (text_eq_has_comma cs v t Ht). exact Hc.
Qed.

End TextFacts.

(** ** The classifier *)

Module ClassifierFacts.
Import Classifier.

(** C3. [FindCriticalError] returns nil exactly when every classified
    error has a code in {AlreadyNewest, PackageNotInstalled}; otherwise it
    returns the first error, in the order of the list, whose code is
    outside that set: every error before it is benign. *)
Theorem FindCriticalError_first_critical (errors : list MatchedError) :
  (FindCriticalError errors = None
   <-> Forall (fun e => benign e = true) errors)
  /\ (forall e,
        FindCriticalError errors = Some e
        <-> exists before after,
              errors = before ++ e :: after
              /\ Forall (fun b => benign b = true) before
              /\ benign e = false).
Proof.
  induction errors as [|x errors [IHnone IHsome]]; simpl.
  - split.
    + split; [constructor | reflexivity].
    + intros e. split; [discriminate|].
      intros (before & after & Heq & _). destruct before; discriminate.
  - destruct (benign x) eqn:Hx; split.
    + rewrite IHnone. split.
      * intros H. now constructor.
      * intros H. now inversion H.
    + intros e. rewrite IHsome. split.
      * intros (before & after & -> & Hb & He).
        exists (x :: before), after. repeat split; [now constructor | assumption].
      * intros (before & after & Heq & Hb & He).
        destruct before as [|b before]; simpl in Heq.
        -- injection Heq as -> _. congruence.
        -- injection Heq as -> ->. inversion Hb; subst. eauto.
    + split; [discriminate|]. intros H. inversion H; subst. congruence.
    + intros e. split.
      * intros [= <-]. exists [], errors. repeat split; [constructor | assumption].
      * intros (before & after & Heq & Hb & He).
        destruct before as [|b before]; simpl in Heq.
        -- now injection Heq as -> _.
        -- injection Heq as -> _. inversion Hb; subst. congruence.
Qed.

End ClassifierFacts.

(** ** The connection *)

Module ConnFacts.
Import Sql.

Lemma issue_tables {T} (st : Stmt) (c : Conn T) :
  tables (snd (issue st c)) = tables c.
Proof. unfold issue. destruct (faults c); reflexivity. Qed.

(** With no failure ahead, a statement succeeds and none is ahead
    after it. *)
Lemma issue_eq {T} (st : Stmt) (c : Conn T) :
  faults c = [] ->
  issue st c
  = (false, {| tables := tables c;
               case_sensitive_like := case_sensitive_like c;
               faults := [];
               journal := st :: journal c |}).
Proof. unfold issue. intros ->. reflexivity. Qed.

Lemma issue_like {T} (st : Stmt) (c : Conn T) :
  case_sensitive_like (snd (issue st c)) = case_sensitive_like c.
Proof. unfold issue. destruct (faults c); reflexivity. Qed.

(** Whether a statement fails depends on the failures ahead only. *)
Lemma issue_fst {T} (st st' : Stmt) (c : Conn T) :
  fst (issue st c) = fst (issue st' c).
Proof. unfold issue. destruct (faults c); reflexivity. Qed.

Lemma forallb_perm {A} (f : A -> bool) (l l' : list A) :
  Permutation l l' -> forallb f l = forallb f l'.
Proof.
  induction 1 as [|x l l' _ IH|x y l|l l' l'' _ IH1 _ IH2]; cbn.
  - reflexivity.
  - now rewrite IH.
  - now rewrite !andb_assoc, (andb_comm (f y)).
  - congruence.
Qed.

(** The rows a SELECT returns do not depend on the order of the
    conditions of its WHERE clause. *)
Lemma run_select_perm {R} (column : string -> option (R -> SqlVal)) cs
    (q q' : Select) (rows : list R) :
  Permutation (sel_where q) (sel_where q') ->
  sel_order q = sel_order q' -> sel_limit q = sel_limit q' ->
  sel_offset q = sel_offset q' ->
  prepared column q = prepared column q'
  /\ run_select column cs q rows = run_select column cs q' rows.
Proof.
  intros Hperm Ho Hl Hoff. unfold prepared, run_select.
  rewrite Ho, Hl, Hoff, (forallb_perm _ _ _ Hperm). split; [reflexivity|].
  do 2 f_equal. apply filter_ext. intros r. unfold satisfies.
  apply forallb_perm. exact Hperm.
Qed.

End ConnFacts.

(** ** The host table: replace, reconcile, existence *)

Module AptFacts.
Import Sql Apt ConnFacts.

Lemma batchSize_pos : (0 < batchSize)%nat.
Proof. apply Nat.lt_0_succ. Qed.

#[local] Opaque batchSize.

(** The batch loop never touches the stored tables: it works on the
    transaction's view. *)
Lemma insertBatches_tables fuel rest work db :
  tables (snd (insertBatches fuel rest work db)) = tables db.
Proof.
  revert rest work db. induction fuel as [|fuel IH]; intros rest work db;
    cbn [insertBatches]; [reflexivity|].
  destruct rest as [|p rest]; [reflexivity|].
  destruct (issue _ db) as [failed db1] eqn:H1.
  assert (Ht1 : tables db1 = tables db)
    by (change db1 with (snd (failed, db1)); rewrite <- H1; apply issue_tables).
  destruct failed.
  - destruct (issue Rollback db1) as [failedRollback db2] eqn:H2.
    assert (Ht2 : tables db2 = tables db1)
      by (change db2 with (snd (failedRollback, db2)); rewrite <- H2;
          apply issue_tables).
    destruct failedRollback; cbn; congruence.
  - rewrite IH. exact Ht1.
Qed.

(** With no failure ahead, the loop inserts every package, in order:
    [len(packages)] turns are enough. *)
Lemma insertBatches_ok fuel rest work db :
  faults db = [] -> (length rest <= fuel)%nat ->
  exists db',
    insertBatches fuel rest work db = (None, work ++ map toRow rest, db')
    /\ faults db' = [] /\ tables db' = tables db
    /\ case_sensitive_like db' = case_sensitive_like db.
Proof.
  revert rest work db. induction fuel as [|fuel IH]; intros rest work db Hf Hlen;
    cbn [insertBatches].
  - destruct rest; [|cbn in Hlen; lia]. cbn. rewrite app_nil_r. eauto.
  - destruct rest as [|p rest]; [cbn; rewrite app_nil_r; eauto|].
    rewrite (issue_eq _ db Hf).
    set (db1 := {| tables := tables db |}).
    destruct (IH (skipn batchSize (p :: rest))
                (work ++ map toRow (firstn batchSize (p :: rest))) db1)
      as (db' & Heq & Hf' & Ht' & Hl'); [reflexivity | |].
    + rewrite length_skipn. pose proof batchSize_pos. cbn [length] in *. lia.
    + exists db'. rewrite Heq. split; [|auto].
      rewrite <- app_assoc, <- map_app, firstn_skipn. reflexivity.
Qed.

(** A full replace with no failure ahead stores exactly the rows of the
    new list, whatever the table held. *)
Lemma SavePackagesToDB_ok pkgs db :
  faults db = [] ->
  exists db',
    SavePackagesToDB pkgs db = (None, db')
    /\ packages (tables db') = Some (map toRow pkgs).
Proof.
  intros Hf. unfold SavePackagesToDB.
  rewrite (issue_eq _ db Hf).
  set (db1 := match packages _ with None => _ | Some _ => _ end).
  assert (Hf1 : faults db1 = []) by (subst db1; cbn; destruct (packages (tables db)); reflexivity).
  rewrite (issue_eq _ db1 Hf1).
  match goal with |- context [issue Begin ?d] => set (db2 := d) end.
  rewrite (issue_eq _ db2 eq_refl).
  match goal with |- context [insertBatches _ _ _ ?d] => set (db3 := d) end.
  destruct (insertBatches_ok (length pkgs) pkgs [] db3 eq_refl (le_n _))
    as (db4 & -> & Hf4 & _ & _).
  rewrite (issue_eq _ db4 Hf4). eexists. split; [reflexivity|]. reflexivity.
Qed.

(** Whenever a batch insert fails, the table is left empty: the rows it
    held were deleted on the connection before the transaction began,
    and the rollback cannot bring them back. *)
Lemma SavePackagesToDB_batch_failure pkgs db db' cause :
  SavePackagesToDB pkgs db = (Some (ErrBatchInsert cause), db') ->
  packages (tables db') = Some [].
Proof.
  unfold SavePackagesToDB.
  destruct (issue (CreateTable tableName) db) as [[] db1]; [discriminate|].
  set (db1' := match packages _ with None => _ | Some _ => _ end).
  destruct (issue (Delete tableName None) db1') as [[] db2] eqn:H2; [discriminate|].
  match goal with |- context [issue Begin ?d] => set (db2' := d) end.
  destruct (issue Begin db2') as [[] db3] eqn:H3; [discriminate|].
  destruct (insertBatches _ _ _ db3) as [[[e|] work] db4] eqn:H4.
  - intros [= -> <-].
    change db4 with (snd (Some (ErrBatchInsert cause), work, db4)).
    rewrite <- H4, insertBatches_tables.
    change db3 with (snd (false, db3)). rewrite <- H3, issue_tables.
    reflexivity.
  - destruct (issue Commit db4) as [[] db5]; discriminate.
Qed.

(** When the loop ends without error it has inserted every package. *)
Lemma insertBatches_complete fuel rest work db work' db' :
  (length rest <= fuel)%nat ->
  insertBatches fuel rest work db = (None, work', db') ->
  work' = work ++ map toRow rest.
Proof.
  revert rest work db. induction fuel as [|fuel IH]; intros rest work db Hlen;
    cbn [insertBatches].
  - destruct rest; [|cbn in Hlen; lia]. intros [= <- _]. cbn. now rewrite app_nil_r.
  - destruct rest as [|p rest]; [intros [= <- _]; cbn; now rewrite app_nil_r|].
    destruct (issue _ db) as [[] db1].
    + destruct (issue Rollback db1) as [[] db2]; discriminate.
    + intros H. apply IH in H.
      * rewrite H, <- app_assoc, <- map_app, firstn_skipn. reflexivity.
      * rewrite length_skipn. pose proof batchSize_pos. cbn [length] in *. lia.
Qed.

(** X2. A full replace never stores part of a scan: the table ends as it was
    (the first statement failed), empty, or holding every row of the new
    list. *)
Lemma SavePackagesToDB_never_partial pkgs db :
  packages (tables (snd (SavePackagesToDB pkgs db))) = packages (tables db)
  \/ packages (tables (snd (SavePackagesToDB pkgs db))) = Some []
  \/ packages (tables (snd (SavePackagesToDB pkgs db))) = Some (map toRow pkgs).
Proof.
  unfold SavePackagesToDB.
  destruct (issue (CreateTable tableName) db) as [[] db1] eqn:H1.
  { left. change db1 with (snd (true, db1)). rewrite <- H1. cbn [snd].
    now rewrite issue_tables. }
  assert (Ht1 : tables db1 = tables db)
    by (change db1 with (snd (false, db1)); rewrite <- H1; apply issue_tables).
  set (db1' := match packages _ with None => _ | Some _ => _ end).
  destruct (issue (Delete tableName None) db1') as [[] db2] eqn:H2.
  { cbn [snd]. change db2 with (snd (true, db2)). rewrite <- H2, issue_tables.
    subst db1'. destruct (packages (tables db1)) eqn:Hp.
    - left. congruence.
    - right. left. reflexivity. }
  match goal with |- context [issue Begin ?d] => set (db2' := d) end.
  destruct (issue Begin db2') as [[] db3] eqn:H3.
  { right. left. cbn [snd]. change db3 with (snd (true, db3)).
    rewrite <- H3, issue_tables. reflexivity. }
  assert (Ht3 : packages (tables db3) = Some []).
  { change db3 with (snd (false, db3)). rewrite <- H3, issue_tables. reflexivity. }
  destruct (insertBatches _ _ _ db3) as [[[e|] work] db4] eqn:H4.
  - right. left. cbn [snd].
    change db4 with (snd (Some e, work, db4)).
    now rewrite <- H4, insertBatches_tables.
  - assert (Ht4 : packages (tables db4) = Some []).
    { change db4 with (snd (@None error, work, db4)).
      now rewrite <- H4, insertBatches_tables. }
    apply insertBatches_complete in H4; [|apply le_n].
    destruct (issue Commit db4) as [[] db5] eqn:H5; cbn [snd].
    + right. left. change db5 with (snd (true, db5)).
      now rewrite <- H5, issue_tables.
    + right. right. cbn. now rewrite H4.
Qed.

(** C1. A full replace whose batch insert fails does not leave the
    previous snapshot in place.  The host table holds the row of [vim];
    replacing it with [nano] while the fourth statement (the INSERT, after
    CREATE, DELETE and BEGIN) fails returns the batch-insert error with
    the table empty.  The container table behaves alike: the rows of the
    container being replaced are gone, those of other containers stay. *)
Theorem SavePackagesToDB_failure_loses_snapshot :
  (fst (SavePackagesToDB [Samples.nano] Samples.failingDB)
   = Some (ErrBatchInsert Failure)
   /\ packages (tables Samples.failingDB) = Some [toRow Samples.vim]
   /\ packages (tables (snd (SavePackagesToDB [Samples.nano] Samples.failingDB)))
      = Some [])
  /\ (fst (Distro.SavePackagesToDB "box" [Samples.boxPackage "curl"]
             Samples.failingBoxDB)
      = Some (Distro.ErrDriver Failure)
      /\ tables Samples.failingBoxDB = Some [Samples.boxRow; Samples.otherRow]
      /\ tables (snd (Distro.SavePackagesToDB "box" [Samples.boxPackage "curl"]
                        Samples.failingBoxDB))
         = Some [Samples.otherRow]).
Proof. vm_compute. repeat split. Qed.

(** What the existence check of the host table answers when the
    connection does not fail: success as soon as the table exists. *)
Lemma PackageDatabaseExist_spec db :
  faults db = [] ->
  fst (PackageDatabaseExist db) = None
  <-> exists rows, packages (tables db) = Some rows.
Proof.
  intros Hf. unfold PackageDatabaseExist. rewrite (issue_eq _ db Hf). cbn.
  destruct (packages (tables db)) as [rows|]; cbn.
  - split; eauto.
  - split; [discriminate | intros [rows [=]]].
Qed.

(** C9. The existence check of the host table reports success on a table
    that holds no row at all. *)
Theorem PackageDatabaseExist_empty_table :
  fst (PackageDatabaseExist (Samples.hostDB (Some []) [])) = None.
Proof. reflexivity. Qed.

(** ** Reconciliation *)

(** Looking a name up in the temporary table is looking it up in the
    installed set. *)
Lemma find_installed (M : gmap string string) (name : string) :
  List.find (fun t => String.eqb (fst t) name) (map_to_list M)
  = (fun v => (name, v)) <$> M !! name.
Proof.
  destruct (List.find _ _) as [[k v]|] eqn:Hfind.
  - apply find_some in Hfind as [Hin Hk]. cbn in Hk.
    apply String.eqb_eq in Hk. subst k.
    apply list_elem_of_In, elem_of_map_to_list in Hin. now rewrite Hin.
  - destruct (M !! name) as [v|] eqn:HM; [|reflexivity].
    apply elem_of_map_to_list, list_elem_of_In in HM.
    apply (find_none _ _ Hfind) in HM. cbn in HM.
    rewrite String.eqb_refl in HM. discriminate HM.
Qed.

Lemma reconcileRow_spec (M : gmap string string) (r : Row) :
  let r' := reconcileRow (map_to_list M) r in
  same_metadata r r'
  /\ (Installed (fromRow r') = true <-> is_Some (M !! col_name r))
  /\ VersionInstalled (fromRow r') = default "" (M !! col_name r).
Proof.
  unfold reconcileRow. rewrite find_installed.
  destruct (M !! col_name r) as [v|]; cbn.
  - repeat split; eauto.
  - repeat split; try discriminate. intros [v [=]].
Qed.

(** C4. After a successful [SyncPackageInstallationInfo] with installed
    set [M], the table holds as many rows as before, with the same names
    at the same places; and each row is the previous one with [installed]
    true exactly when its name is a key of [M], and [versionInstalled]
    equal to [M[name]] when present and empty otherwise. *)
Theorem SyncPackageInstallationInfo_reconciles
    (M : gmap string string) (db db' : DB) :
  SyncPackageInstallationInfo M db = (None, db') ->
  exists rows rows',
    packages (tables db) = Some rows
    /\ packages (tables db') = Some rows'
    /\ length rows' = length rows
    /\ map col_name rows' = map col_name rows
    /\ forall (i : nat) (r : Row),
         rows !! i = Some r ->
         exists r',
           rows' !! i = Some r'
           /\ same_metadata r r'
           /\ (Installed (fromRow r') = true <-> is_Some (M !! col_name r))
           /\ VersionInstalled (fromRow r') = default "" (M !! col_name r).
Proof.
  unfold SyncPackageInstallationInfo, rollbackDeferred.
  destruct (issue Begin db) as [[] db1] eqn:H1; [discriminate|].
  assert (Ht1 : tables db1 = tables db)
    by (change db1 with (snd (false, db1)); rewrite <- H1; apply issue_tables).
  destruct (issue (CreateTemp _) db1) as [[] db2];
    [destruct (issue Rollback db2); discriminate|].
  destruct (tmp_installed (tables db1));
    [destruct (issue Rollback db2); discriminate|].
  destruct (match map_to_list M with [] => _ | _ :: _ => _ end) as [[] db3];
    [destruct (issue Rollback db3); discriminate|].
  destruct (issue (UpdateInstalled _) db3) as [[] db4];
    [destruct (issue Rollback db4); discriminate|].
  rewrite Ht1.
  destruct (packages (tables db)) as [rows|];
    [|destruct (issue Rollback db4); discriminate].
  destruct (issue Commit db4) as [[] db5];
    [destruct (issue Rollback db5); discriminate|].
  intros [= <-]. exists rows, (map (reconcileRow (map_to_list M)) rows).
  split; [reflexivity|]. split; [reflexivity|].
  split; [apply length_map|]. split.
  - rewrite map_map. apply map_ext. reflexivity.
  - intros i r Hi. exists (reconcileRow (map_to_list M) r). split.
    + rewrite list_lookup_fmap, Hi. reflexivity.
    + apply reconcileRow_spec.
Qed.

(** A run of the above: the scan stored [vim] and [nano] uninstalled,
    the installed set holds [vim] at 9.1. *)
Lemma SyncPackageInstallationInfo_reconciles_witness :
  exists rows rows',
    packages (tables Samples.scannedDB) = Some rows
    /\ packages (tables (snd (SyncPackageInstallationInfo Samples.installedSet
                                Samples.scannedDB))) = Some rows'
    /\ length rows' = length rows
    /\ map col_name rows' = map col_name rows
    /\ forall (i : nat) (r : Row),
         rows !! i = Some r ->
         exists r',
           rows' !! i = Some r'
           /\ same_metadata r r'
           /\ (Installed (fromRow r') = true
               <-> is_Some (Samples.installedSet !! col_name r))
           /\ VersionInstalled (fromRow r')
              = default "" (Samples.installedSet !! col_name r).
Proof.
  apply (SyncPackageInstallationInfo_reconciles Samples.installedSet
           Samples.scannedDB
           (snd (SyncPackageInstallationInfo Samples.installedSet
                   Samples.scannedDB))).
  vm_compute. reflexivity.
Defined.

(** ** The query builder of the host table *)

Section HostQueries.
Variable ParseBool : Value -> option bool.

(** The loop over the filters fails only by rejecting a field, and the
    field it rejects is a filter field off the allow-list. *)
Lemma buildConditions_error filters conditions e :
  buildConditions ParseBool filters conditions = inl e ->
  exists field,
    e = ErrInvalidFilterField field allowedFilterFields
    /\ In field (map fst filters)
    /\ isAllowedField field allowedFilterFields = false.
Proof.
  revert conditions.
  induction filters as [|[field value] filters IH]; intros conditions;
    cbn [buildConditions]; [discriminate|].
  destruct (isAllowedField field allowedFilterFields) eqn:Hallowed; cbn [negb].
  - intros H.
    assert (Hrest : exists conditions',
              buildConditions ParseBool filters conditions' = inl e).
    { destruct (String.eqb field "installed").
      - destruct (ParseBool value); eauto.
      - destruct (_ || _); destruct (asString value); eauto. }
    destruct Hrest as (conditions' & Hrest).
    apply IH in Hrest as (f & -> & Hin & Hf).
    exists f. cbn. auto.
  - intros [= <-]. exists field. cbn. auto.
Qed.

(** A filter field off the allow-list makes the loop fail. *)
Lemma buildConditions_rejects filters conditions field :
  In field (map fst filters) ->
  isAllowedField field allowedFilterFields = false ->
  exists e, buildConditions ParseBool filters conditions = inl e.
Proof.
  revert conditions.
  induction filters as [|[f value] filters IH]; intros conditions Hin Hfield;
    cbn [buildConditions]; [destruct Hin|].
  destruct (isAllowedField f allowedFilterFields) eqn:Hallowed; cbn [negb];
    [|eauto].
  destruct Hin as [Heq | Hin]; [cbn in Heq; congruence|].
  destruct (String.eqb f "installed").
  - destruct (ParseBool value); eauto.
  - destruct (_ || _); destruct (asString value); eauto.
Qed.

(** The host part of C2. *)
Lemma QueryHostImagePackages_invalid_field
    filters sortField sortOrder limit offset (db : DB) :
  (exists field, In field (map fst filters)
                 /\ isAllowedField field allowedFilterFields = false)
  \/ (sortField <> "" /\ isAllowedField sortField allowedSortFields = false) ->
  exists e field allowed,
    QueryHostImagePackages ParseBool filters sortField sortOrder limit offset db
    = (inl e, db)
    /\ InvalidField e field allowed
    /\ isAllowedField field allowed = false
    /\ (In field (map fst filters) /\ allowed = allowedFilterFields
        \/ field = sortField /\ allowed = allowedSortFields)
    /\ exists kind,
         Error e = "Invalid " +:+ kind +:+ " field: " +:+ field
                   +:+ ". Available fields: " +:+ GoStrings.Join allowed ", ".
Proof.
  intros H. unfold QueryHostImagePackages, buildQuery.
  destruct (buildConditions ParseBool filters []) as [e|conditions] eqn:Hb.
  - apply buildConditions_error in Hb as (field & -> & Hin & Hf).
    exists (ErrInvalidFilterField field allowedFilterFields), field,
      allowedFilterFields.
    split; [reflexivity|]. split; [now left|]. split; [assumption|].
    split; [now left|]. exists "filter". reflexivity.
  - destruct H as [(field & Hin & Hf) | [Hne Hs]].
    + destruct (buildConditions_rejects filters [] field Hin Hf) as (e & He).
      congruence.
    + unfold buildOrder. apply String.eqb_neq in Hne. rewrite Hne, Hs. cbn [negb].
      exists (ErrInvalidSortField sortField allowedSortFields), sortField,
        allowedSortFields.
      split; [reflexivity|]. split; [now right|]. split; [assumption|].
      split; [now right|]. exists "sort". reflexivity.
Qed.

(** The loop skips an [installed] filter whose value is no boolean. *)
Lemma buildConditions_skips before after value conditions :
  ParseBool value = None ->
  buildConditions ParseBool (before ++ ("installed", value) :: after) conditions
  = buildConditions ParseBool (before ++ after) conditions.
Proof.
  intros Hv. revert conditions.
  induction before as [|[f v] before IH]; intros conditions;
    cbn [app buildConditions].
  - change (isAllowedField "installed" allowedFilterFields) with true.
    change (String.eqb "installed" "installed") with true.
    cbn [negb]. now rewrite Hv.
  - destruct (negb _); [reflexivity|].
    destruct (String.eqb f "installed").
    + destruct (ParseBool v); apply IH.
    + destruct (_ || _); destruct (asString v); apply IH.
Qed.

(** The host part of C8. *)
Lemma QueryHostImagePackages_skips_unparsable
    before after value sortField sortOrder limit offset (db : DB) :
  ParseBool value = None ->
  QueryHostImagePackages ParseBool (before ++ ("installed", value) :: after)
    sortField sortOrder limit offset db
  = QueryHostImagePackages ParseBool (before ++ after)
      sortField sortOrder limit offset db.
Proof.
  intros Hv. unfold QueryHostImagePackages, buildQuery.
  now rewrite (buildConditions_skips before after value [] Hv).
Qed.

Lemma CountHostImagePackages_skips_unparsable before after value (db : DB) :
  ParseBool value = None ->
  CountHostImagePackages ParseBool (before ++ ("installed", value) :: after) db
  = CountHostImagePackages ParseBool (before ++ after) db.
Proof.
  intros Hv. unfold CountHostImagePackages.
  now rewrite (buildConditions_skips before after value [] Hv).
Qed.

(** When every field is allow-listed, the loop adds the conditions of the
    entries one after the other. *)
Lemma buildConditions_allowed filters conditions :
  Forall (fun entry => isAllowedField (fst entry) allowedFilterFields = true)
    filters ->
  buildConditions ParseBool filters conditions
  = inr (conditions ++ flat_map (conditionOf ParseBool) filters).
Proof.
  intros Hall. revert conditions.
  induction Hall as [|[field value] filters Hfield _ IH]; intros conditions;
    cbn [buildConditions flat_map].
  - now rewrite app_nil_r.
  - cbn [fst] in Hfield. rewrite Hfield. cbn [negb conditionOf].
    destruct (String.eqb field "installed").
    + destruct (ParseBool value); rewrite IH; [now rewrite <- app_assoc|reflexivity].
    + destruct (_ || _); destruct (asString value); rewrite IH;
        now rewrite <- app_assoc.
Qed.

(** The rows a query returns do not depend on the order of its
    conditions. *)
Lemma runQuery_perm (q q' : Select) (db : DB) :
  Permutation (sel_where q) (sel_where q') ->
  sel_order q = sel_order q' -> sel_limit q = sel_limit q' ->
  sel_offset q = sel_offset q' ->
  fst (runQuery q db) = fst (runQuery q' db).
Proof.
  intros Hperm Ho Hl Hoff. unfold runQuery.
  pose proof (issue_fst (SelectWhere tableName q) (SelectWhere tableName q') db)
    as Hfst.
  pose proof (issue_tables (SelectWhere tableName q) db) as Hta.
  pose proof (issue_tables (SelectWhere tableName q') db) as Htb.
  pose proof (issue_like (SelectWhere tableName q) db) as Hla.
  pose proof (issue_like (SelectWhere tableName q') db) as Hlb.
  destruct (issue (SelectWhere tableName q) db) as [fa da].
  destruct (issue (SelectWhere tableName q') db) as [fb db'].
  cbn [fst snd] in *. subst fb. destruct fa; [reflexivity|].
  rewrite Hta, Htb. destruct (packages (tables db)) as [rows|]; [|reflexivity].
  rewrite Hla, Hlb.
  destruct (run_select_perm column (case_sensitive_like db) q q' rows
              Hperm Ho Hl Hoff) as [-> ->].
  destruct (prepared column q'); reflexivity.
Qed.

(** X14. The order in which the filter map is ranged over does not change
    what the query returns. *)
Lemma QueryHostImagePackages_any_order
    filters filters' sortField sortOrder limit offset (db : DB) :
  Permutation filters filters' ->
  Forall (fun entry => isAllowedField (fst entry) allowedFilterFields = true)
    filters ->
  fst (QueryHostImagePackages ParseBool filters sortField sortOrder limit
         offset db)
  = fst (QueryHostImagePackages ParseBool filters' sortField sortOrder limit
           offset db).
Proof.
  intros Hperm Hall.
  assert (Hall' : Forall (fun entry =>
                    isAllowedField (fst entry) allowedFilterFields = true) filters').
  { apply List.Forall_forall. intros x Hx.
    apply (proj1 (List.Forall_forall _ _) Hall).
    apply Permutation_in with (l := filters'); [now symmetry | assumption]. }
  unfold QueryHostImagePackages, buildQuery.
  rewrite (buildConditions_allowed filters [] Hall),
    (buildConditions_allowed filters' [] Hall').
  cbn [app]. destruct (buildOrder sortField sortOrder) as [e|order]; [reflexivity|].
  apply runQuery_perm; try reflexivity.
  cbn [sel_where]. now apply Permutation_flat_map.
Qed.

End HostQueries.

(** ** Filters on multi-valued fields *)

(** With one filter on a multi-valued field, no sorting and no paging,
    the query returns the rows [selects] accepts, and the count is their
    number. *)
Lemma list_filter_query (ParseBool : Value -> option bool) field v (db : DB) rows :
  field = "provides" \/ field = "depends" ->
  faults db = [] -> packages (tables db) = Some rows ->
  fst (QueryHostImagePackages ParseBool [(field, VString v)] "" "" 0 0 db)
  = inr (map fromRow
           (List.filter
              (selects ParseBool (case_sensitive_like db) [(field, VString v)])
              rows))
  /\ fst (CountHostImagePackages ParseBool [(field, VString v)] db)
     = inr (Z.of_nat
              (length
                 (List.filter
                    (selects ParseBool (case_sensitive_like db)
                       [(field, VString v)])
                    rows))).
Proof.
  intros Hfield Hf Ht.
  unfold QueryHostImagePackages, CountHostImagePackages, runQuery, buildQuery,
    selects.
  destruct Hfield as [-> | ->]; cbn [buildConditions];
    cbn -[issue column run_select satisfies List.filter];
    (split; rewrite (issue_eq _ db Hf); cbn [tables case_sensitive_like fst];
     rewrite Ht; reflexivity).
Qed.

(** C7. For a filter on [depends] or [provides] whose value [v] is a
    non-empty string holding neither the separator nor a LIKE wildcard
    ([%], [_]), a row is selected exactly when some token of its list is
    [v] as LIKE compares characters; with [case_sensitive_like] on, that
    is exactly when [v] is a member of the list. *)
Theorem list_filter_selects_members
    (ParseBool : Value -> option bool) (cs : bool) (field v : string) (r : Row) :
  field = "provides" \/ field = "depends" ->
  v <> "" ->
  has_byte "," v = false -> has_byte "%" v = false -> has_byte "_" v = false ->
  (selects ParseBool cs [(field, VString v)] r = true
   <-> exists t, In t (listField field (fromRow r)) /\ text_eq cs v t = true)
  /\ (cs = true ->
      selects ParseBool cs [(field, VString v)] r = true
      <-> In v (listField field (fromRow r))).
Proof.
  intros Hfield Hne Hc Hp Hu.
  assert (Hsel : selects ParseBool cs [(field, VString v)] r = true
                 <-> exists t, In t (listField field (fromRow r))
                               /\ text_eq cs v t = true).
  { assert (Hstored : exists s,
              selects ParseBool cs [(field, VString v)] r
              = like cs ("%," +:+ v +:+ ",%") ("," +:+ s +:+ ",")
              /\ listField field (fromRow r) = splitList s).
    { destruct Hfield as [-> | ->].
      - exists (col_provides r). split; [|reflexivity].
        unfold selects. cbn. now rewrite andb_true_r.
      - exists (col_depends r). split; [|reflexivity].
        unfold selects. cbn. now rewrite andb_true_r. }
    destruct Hstored as (s & -> & ->).
    rewrite (TextFacts.like_wrapped cs v s Hc Hp Hu).
    unfold splitList. destruct (String.eqb_spec s "") as [-> | Hs]; [|reflexivity].
    split.
    - intros (t & [<- | []] & Ht). apply TextFacts.text_eq_nil_r in Ht. contradiction.
    - intros (t & [] & _). }
  split; [exact Hsel|].
  intros ->. rewrite Hsel. split.
  - intros (t & Hin & Ht). apply TextFacts.text_eq_exact in Ht. now subst t.
  - intros Hin. exists v. split; [assumption | apply TextFacts.text_eq_refl].
Qed.

(** The example of the claim: [lib] does not select a package that depends
    on [libfoo] only, [libfoo] does. *)
Lemma list_filter_selects_members_witness :
  (selects Samples.ParseBool true [("depends", VString "lib")]
     (toRow (Samples.hostPackage "app" "1.0" [])) = true
   <-> In "lib" (listField "depends"
                   (fromRow (toRow (Samples.hostPackage "app" "1.0" [])))))
  /\ selects Samples.ParseBool true [("depends", VString "lib")]
       (toRow (Samples.hostPackage "app" "1.0" [])) = false
  /\ selects Samples.ParseBool true [("depends", VString "libfoo")]
       (toRow (Samples.hostPackage "app" "1.0" [])) = true.
Proof.
  split; [|split; reflexivity].
  apply (list_filter_selects_members Samples.ParseBool true "depends" "lib"
           (toRow (Samples.hostPackage "app" "1.0" [])));
    [right; reflexivity | discriminate | reflexivity | reflexivity | reflexivity |
     reflexivity].
Defined.

(** C7 as stated fails: exact membership is not what the condition
    tests.  A value with a wildcard selects a row whose list does not hold
    it ([lib%] and [lib_oo] against [libc,libfoo]), so does a value that
    spans two tokens ([libc,libfoo]), and the empty value selects the
    rows whose list is empty. *)
Lemma list_filter_not_membership :
  (selects Samples.ParseBool true [("depends", VString "lib%")]
     (toRow Samples.vim) = true
   /\ ~ In "lib%" (listField "depends" (fromRow (toRow Samples.vim))))
  /\ (selects Samples.ParseBool true [("depends", VString "lib_oo")]
        (toRow Samples.vim) = true
      /\ ~ In "lib_oo" (listField "depends" (fromRow (toRow Samples.vim))))
  /\ (selects Samples.ParseBool true [("depends", VString "libc,libfoo")]
        (toRow Samples.vim) = true
      /\ ~ In "libc,libfoo" (listField "depends" (fromRow (toRow Samples.vim))))
  /\ (selects Samples.ParseBool true [("provides", VString "")]
        (toRow Samples.pkg) = true
      /\ ~ In "" (listField "provides" (fromRow (toRow Samples.pkg)))).
Proof.
  repeat split; try reflexivity; cbn; intros H;
    repeat (destruct H as [H | H]; [discriminate H|]); exact H.
Qed.

End AptFacts.

(** ** The container table: existence and single-field update *)

Module DistroFacts.
Import Sql Distro ConnFacts.

(** X29. With a connection that does not fail, [ContainerDatabaseExist]
    succeeds exactly when the table holds a row of the container. *)
Lemma ContainerDatabaseExist_spec containerName db :
  faults db = [] ->
  fst (ContainerDatabaseExist containerName db) = None
  <-> exists rows r,
        tables db = Some rows /\ In r rows /\ col_container r = containerName.
Proof.
  intros Hf. unfold ContainerDatabaseExist. rewrite (issue_eq _ db Hf). cbn.
  destruct (tables db) as [rows|]; cbn.
  - destruct (List.filter _ rows) as [|r l] eqn:Hfilter; cbn.
    + split; [discriminate|]. intros (rows' & r & [= <-] & Hin & Hc).
      assert (Hr : In r (List.filter
                 (fun r => String.eqb (col_container r) containerName) rows)).
      { apply filter_In. split; [assumption|]. now apply String.eqb_eq. }
      rewrite Hfilter in Hr. destruct Hr.
    + split; [intros _|reflexivity].
      assert (Hr : In r (List.filter
                 (fun r => String.eqb (col_container r) containerName) rows))
        by (rewrite Hfilter; now left).
      apply filter_In in Hr as [Hin Hc]. apply String.eqb_eq in Hc. eauto.
  - split; [discriminate|]. intros (rows & r & [=] & _).
Qed.

(** X30. With a connection that does not fail, [DatabaseExist] succeeds
    exactly when the table holds a row. *)
Lemma DatabaseExist_spec db :
  faults db = [] ->
  fst (DatabaseExist db) = None
  <-> exists rows r, tables db = Some rows /\ In r rows.
Proof.
  intros Hf. unfold DatabaseExist. rewrite (issue_eq _ db Hf). cbn.
  destruct (tables db) as [[|r rows]|]; cbn.
  - split; [discriminate|]. intros (rows' & r & [= <-] & []).
  - split; [intros _|reflexivity]. exists (r :: rows), r. split; [reflexivity | now left].
  - split; [discriminate|]. intros (rows & r & [=] & _).
Qed.

Lemma allowedFields_lookup fieldName :
  fieldName <> "installed" -> fieldName <> "exporting" ->
  allowedFields !! fieldName = None.
Proof.
  intros H1 H2. unfold allowedFields.
  rewrite lookup_insert_ne by congruence.
  apply lookup_singleton_ne. congruence.
Qed.

(** C10. For a field outside {installed, exporting}, [UpdatePackageField]
    sends no statement: the connection, and with it every row of the
    table, is what it was; the refusal goes to the log only, and the
    function, which has no error result, returns. *)
Theorem UpdatePackageField_refused
    (containerName name fieldName : string) (value : bool) (st : State) :
  fieldName <> "installed" -> fieldName <> "exporting" ->
  conn (UpdatePackageField containerName name fieldName value st) = conn st
  /\ log (UpdatePackageField containerName name fieldName value st)
     = LogFieldNotUpdatable fieldName :: log st.
Proof.
  intros H1 H2. unfold UpdatePackageField.
  rewrite (allowedFields_lookup fieldName H1 H2). cbn. split; reflexivity.
Qed.

Lemma UpdatePackageField_refused_witness :
  conn (UpdatePackageField "box" "git" "version" true
          {| conn := Samples.failingBoxDB; log := [] |})
  = Samples.failingBoxDB
  /\ log (UpdatePackageField "box" "git" "version" true
            {| conn := Samples.failingBoxDB; log := [] |})
     = [LogFieldNotUpdatable "version"].
Proof.
  apply (UpdatePackageField_refused "box" "git" "version" true
           {| conn := Samples.failingBoxDB; log := [] |});
    discriminate.
Defined.

(** ** The query builder of the container table *)

Section BoxQueries.
Variable ParseBool : Value -> option bool.

Lemma box_buildConditions_error filters conditions e :
  buildConditions ParseBool filters conditions = inl e ->
  exists field,
    e = ErrInvalidFilterField field allowedFilterFields
    /\ In field (map fst filters)
    /\ isAllowedField field allowedFilterFields = false.
Proof.
  revert conditions.
  induction filters as [|[field value] filters IH]; intros conditions;
    cbn [buildConditions]; [discriminate|].
  destruct (isAllowedField field allowedFilterFields) eqn:Hallowed; cbn [negb].
  - intros H.
    assert (Hrest : exists conditions',
              buildConditions ParseBool filters conditions' = inl e).
    { destruct (_ || _).
      - destruct (ParseBool value); eauto.
      - destruct (asString value); eauto. }
    destruct Hrest as (conditions' & Hrest).
    apply IH in Hrest as (f & -> & Hin & Hf).
    exists f. cbn. auto.
  - intros [= <-]. exists field. cbn. auto.
Qed.

Lemma box_buildConditions_rejects filters conditions field :
  In field (map fst filters) ->
  isAllowedField field allowedFilterFields = false ->
  exists e, buildConditions ParseBool filters conditions = inl e.
Proof.
  revert conditions.
  induction filters as [|[f value] filters IH]; intros conditions Hin Hfield;
    cbn [buildConditions]; [destruct Hin|].
  destruct (isAllowedField f allowedFilterFields) eqn:Hallowed; cbn [negb];
    [|eauto].
  destruct Hin as [Heq | Hin]; [cbn in Heq; congruence|].
  destruct (_ || _).
  - destruct (ParseBool value); eauto.
  - destruct (asString value); eauto.
Qed.

(** The container part of C2. *)
Lemma QueryPackages_invalid_field
    containerName filters sortField sortOrder limit offset (db : DB) :
  (exists field, In field (map fst filters)
                 /\ isAllowedField field allowedFilterFields = false)
  \/ (sortField <> "" /\ isAllowedField sortField allowedSortFields = false) ->
  exists e field allowed,
    QueryPackages ParseBool containerName filters sortField sortOrder limit
      offset db
    = (inl e, db)
    /\ InvalidField e field allowed
    /\ isAllowedField field allowed = false
    /\ (In field (map fst filters) /\ allowed = allowedFilterFields
        \/ field = sortField /\ allowed = allowedSortFields)
    /\ exists kind,
         Error e = "Invalid " +:+ kind +:+ " field: " +:+ field
                   +:+ ". Available fields: " +:+ GoStrings.Join allowed ", "
                   +:+ ".".
Proof.
  intros H. unfold QueryPackages, buildQuery.
  destruct (buildConditions ParseBool filters _) as [e|conditions] eqn:Hb.
  - apply box_buildConditions_error in Hb as (field & -> & Hin & Hf).
    exists (ErrInvalidFilterField field allowedFilterFields), field,
      allowedFilterFields.
    split; [reflexivity|]. split; [now left|]. split; [assumption|].
    split; [now left|]. exists "filter". reflexivity.
  - destruct H as [(field & Hin & Hf) | [Hne Hs]].
    + destruct (box_buildConditions_rejects filters
                  (if String.eqb containerName "" then []
                   else [CEq "container" (VString containerName)])
                  field Hin Hf) as (e & He).
      congruence.
    + unfold buildOrder. apply String.eqb_neq in Hne. rewrite Hne, Hs. cbn [negb].
      exists (ErrInvalidSortField sortField allowedSortFields), sortField,
        allowedSortFields.
      split; [reflexivity|]. split; [now right|]. split; [assumption|].
      split; [now right|]. exists "sort". reflexivity.
Qed.

(** The loop skips an [installed] or [exporting] filter whose value is no
    boolean. *)
Lemma box_buildConditions_skips field before after value conditions :
  field = "installed" \/ field = "exporting" ->
  ParseBool value = None ->
  buildConditions ParseBool (before ++ (field, value) :: after) conditions
  = buildConditions ParseBool (before ++ after) conditions.
Proof.
  intros Hfield Hv. revert conditions.
  induction before as [|[f v] before IH]; intros conditions;
    cbn [app buildConditions].
  - destruct Hfield as [-> | ->].
    + change (isAllowedField "installed" allowedFilterFields) with true.
      change (String.eqb "installed" "installed") with true.
      cbn [negb orb]. now rewrite Hv.
    + change (isAllowedField "exporting" allowedFilterFields) with true.
      change (String.eqb "exporting" "installed") with false.
      change (String.eqb "exporting" "exporting") with true.
      cbn [negb orb]. now rewrite Hv.
  - destruct (negb _); [reflexivity|].
    destruct (_ || _).
    + destruct (ParseBool v); apply IH.
    + destruct (asString v); apply IH.
Qed.

(** The container part of C8. *)
Lemma QueryPackages_skips_unparsable
    field containerName before after value sortField sortOrder limit offset
    (db : DB) :
  field = "installed" \/ field = "exporting" ->
  ParseBool value = None ->
  QueryPackages ParseBool containerName (before ++ (field, value) :: after)
    sortField sortOrder limit offset db
  = QueryPackages ParseBool containerName (before ++ after)
      sortField sortOrder limit offset db.
Proof.
  intros Hfield Hv. unfold QueryPackages, buildQuery.
  now rewrite (box_buildConditions_skips field before after value _ Hfield Hv).
Qed.

Lemma box_buildConditions_allowed filters conditions :
  Forall (fun entry => isAllowedField (fst entry) allowedFilterFields = true)
    filters ->
  buildConditions ParseBool filters conditions
  = inr (conditions ++ flat_map (conditionOf ParseBool) filters).
Proof.
  intros Hall. revert conditions.
  induction Hall as [|[field value] filters Hfield _ IH]; intros conditions;
    cbn [buildConditions flat_map].
  - now rewrite app_nil_r.
  - cbn [fst] in Hfield. rewrite Hfield. cbn [negb conditionOf].
    destruct (_ || _).
    + destruct (ParseBool value); rewrite IH; [now rewrite <- app_assoc|reflexivity].
    + destruct (asString value); rewrite IH; now rewrite <- app_assoc.
Qed.

Lemma box_runQuery_perm (q q' : Select) (db : DB) :
  Permutation (sel_where q) (sel_where q') ->
  sel_order q = sel_order q' -> sel_limit q = sel_limit q' ->
  sel_offset q = sel_offset q' ->
  fst (runQuery q db) = fst (runQuery q' db).
Proof.
  intros Hperm Ho Hl Hoff. unfold runQuery.
  pose proof (issue_fst (SelectWhere packagesTableName q)
                (SelectWhere packagesTableName q') db) as Hfst.
  pose proof (issue_tables (SelectWhere packagesTableName q) db) as Hta.
  pose proof (issue_tables (SelectWhere packagesTableName q') db) as Htb.
  pose proof (issue_like (SelectWhere packagesTableName q) db) as Hla.
  pose proof (issue_like (SelectWhere packagesTableName q') db) as Hlb.
  destruct (issue (SelectWhere packagesTableName q) db) as [fa da].
  destruct (issue (SelectWhere packagesTableName q') db) as [fb db'].
  cbn [fst snd] in *. subst fb. destruct fa; [reflexivity|].
  rewrite Hta, Htb. destruct (tables db) as [rows|]; [|reflexivity].
  rewrite Hla, Hlb.
  destruct (run_select_perm column (case_sensitive_like db) q q' rows
              Hperm Ho Hl Hoff) as [-> ->].
  destruct (prepared column q'); reflexivity.
Qed.

(** X28. The order in which the filter map is ranged over does not change
    what [QueryPackages] returns. *)
Lemma QueryPackages_any_order
    containerName filters filters' sortField sortOrder limit offset (db : DB) :
  Permutation filters filters' ->
  Forall (fun entry => isAllowedField (fst entry) allowedFilterFields = true)
    filters ->
  fst (QueryPackages ParseBool containerName filters sortField sortOrder limit
         offset db)
  = fst (QueryPackages ParseBool containerName filters' sortField sortOrder
           limit offset db).
Proof.
  intros Hperm Hall.
  assert (Hall' : Forall (fun entry =>
                    isAllowedField (fst entry) allowedFilterFields = true) filters').
  { apply List.Forall_forall. intros x Hx.
    apply (proj1 (List.Forall_forall _ _) Hall).
    apply Permutation_in with (l := filters'); [now symmetry | assumption]. }
  unfold QueryPackages, buildQuery.
  rewrite (box_buildConditions_allowed filters _ Hall),
    (box_buildConditions_allowed filters' _ Hall').
  destruct (buildOrder sortField sortOrder) as [e|order]; [reflexivity|].
  apply box_runQuery_perm; try reflexivity.
  cbn [sel_where]. apply Permutation_app_head. now apply Permutation_flat_map.
Qed.

End BoxQueries.

End DistroFacts.

(** ** The query engine, for both tables *)

Module QueryFacts.
Import Sql.

(** C2. When a filter field is off the allow-list of the table, or a sort
    field is given (a non-empty one: the empty sort field means no
    sorting) and is off the allow-list, the query fails with an
    [InvalidField] error that carries the rejected field and the
    allow-list, both printed in its text, and the connection is returned
    as it was: no statement has been sent.  This holds for the host table
    ([QueryHostImagePackages]) and for the container table
    ([QueryPackages]). *)
Theorem query_rejects_invalid_field
    (ParseBool : Value -> option bool)
    (filters : list (string * Value)) (sortField sortOrder : string)
    (limit offset : Z) :
  (forall db : Apt.DB,
     (exists field, In field (map fst filters)
                    /\ Apt.isAllowedField field Apt.allowedFilterFields = false)
     \/ (sortField <> ""
         /\ Apt.isAllowedField sortField Apt.allowedSortFields = false) ->
     exists e field allowed,
       Apt.QueryHostImagePackages ParseBool filters sortField sortOrder limit
         offset db
       = (inl e, db)
       /\ Apt.InvalidField e field allowed
       /\ Apt.isAllowedField field allowed = false
       /\ (In field (map fst filters) /\ allowed = Apt.allowedFilterFields
           \/ field = sortField /\ allowed = Apt.allowedSortFields)
       /\ exists kind,
            Apt.Error e
            = "Invalid " +:+ kind +:+ " field: " +:+ field
              +:+ ". Available fields: " +:+ GoStrings.Join allowed ", ")
  /\ (forall (containerName : string) (db : Distro.DB),
        (exists field, In field (map fst filters)
                       /\ Distro.isAllowedField field Distro.allowedFilterFields
                          = false)
        \/ (sortField <> ""
            /\ Distro.isAllowedField sortField Distro.allowedSortFields = false) ->
        exists e field allowed,
          Distro.QueryPackages ParseBool containerName filters sortField
            sortOrder limit offset db
          = (inl e, db)
          /\ Distro.InvalidField e field allowed
          /\ Distro.isAllowedField field allowed = false
          /\ (In field (map fst filters) /\ allowed = Distro.allowedFilterFields
              \/ field = sortField /\ allowed = Distro.allowedSortFields)
          /\ exists kind,
               Distro.Error e
               = "Invalid " +:+ kind +:+ " field: " +:+ field
                 +:+ ". Available fields: " +:+ GoStrings.Join allowed ", "
                 +:+ ".").
Proof.
  split.
  - intros db. apply AptFacts.QueryHostImagePackages_invalid_field.
  - intros containerName db. apply DistroFacts.QueryPackages_invalid_field.
Qed.

(** C8. A filter on an allow-listed boolean field ([installed] on the
    host table; [installed] and [exporting] on the container table) whose
    value [ParseBool] cannot read is skipped: the query with that entry
    among its filters returns what the query without it returns, on every
    connection (result and statement sent alike). *)
Theorem query_skips_unparsable_boolean
    (ParseBool : Value -> option bool)
    (before after : list (string * Value)) (value : Value)
    (sortField sortOrder : string) (limit offset : Z) :
  ParseBool value = None ->
  (forall db : Apt.DB,
     Apt.QueryHostImagePackages ParseBool
       (before ++ ("installed", value) :: after) sortField sortOrder limit
       offset db
     = Apt.QueryHostImagePackages ParseBool (before ++ after) sortField
         sortOrder limit offset db)
  /\ (forall (field containerName : string) (db : Distro.DB),
        field = "installed" \/ field = "exporting" ->
        Distro.QueryPackages ParseBool containerName
          (before ++ (field, value) :: after) sortField sortOrder limit offset db
        = Distro.QueryPackages ParseBool containerName (before ++ after)
            sortField sortOrder limit offset db).
Proof.
  intros Hv. split.
  - intros db. now apply AptFacts.QueryHostImagePackages_skips_unparsable.
  - intros field containerName db Hfield.
    now apply DistroFacts.QueryPackages_skips_unparsable.
Qed.

(** A run of C2: [color] is a field of neither table. *)
Lemma query_rejects_invalid_field_witness :
  (exists e field allowed,
     Apt.QueryHostImagePackages Samples.ParseBool [("color", VString "red")]
       "" "" 0 0 Samples.scannedDB
     = (inl e, Samples.scannedDB)
     /\ Apt.InvalidField e field allowed
     /\ Apt.isAllowedField field allowed = false
     /\ (In field (map fst [("color", VString "red")])
         /\ allowed = Apt.allowedFilterFields
         \/ field = "" /\ allowed = Apt.allowedSortFields)
     /\ exists kind,
          Apt.Error e
          = "Invalid " +:+ kind +:+ " field: " +:+ field
            +:+ ". Available fields: " +:+ GoStrings.Join allowed ", ")
  /\ (exists e field allowed,
        Distro.QueryPackages Samples.ParseBool "box" [("color", VString "red")]
          "" "" 0 0 Samples.failingBoxDB
        = (inl e, Samples.failingBoxDB)
        /\ Distro.InvalidField e field allowed
        /\ Distro.isAllowedField field allowed = false
        /\ (In field (map fst [("color", VString "red")])
            /\ allowed = Distro.allowedFilterFields
            \/ field = "" /\ allowed = Distro.allowedSortFields)
        /\ exists kind,
             Distro.Error e
             = "Invalid " +:+ kind +:+ " field: " +:+ field
               +:+ ". Available fields: " +:+ GoStrings.Join allowed ", "
               +:+ ".").
Proof.
  destruct (query_rejects_invalid_field Samples.ParseBool
              [("color", VString "red")] "" "" 0 0) as [Hhost Hbox].
  split.
  - apply (Hhost Samples.scannedDB). left. exists "color".
    split; [now left | reflexivity].
  - apply (Hbox "box" Samples.failingBoxDB). left. exists "color".
    split; [now left | reflexivity].
Defined.

(** A run of C8: [maybe] is no boolean. *)
Lemma query_skips_unparsable_boolean_witness :
  Samples.ParseBool (VString "maybe") = None
  /\ Apt.QueryHostImagePackages Samples.ParseBool
       ([("name", VString "vi")] ++ ("installed", VString "maybe") :: [])
       "name" "asc" 10 0 Samples.scannedDB
     = Apt.QueryHostImagePackages Samples.ParseBool
         ([("name", VString "vi")] ++ []) "name" "asc" 10 0 Samples.scannedDB
  /\ Distro.QueryPackages Samples.ParseBool "box"
       ([("name", VString "vi")] ++ ("exporting", VString "maybe") :: [])
       "name" "asc" 10 0 Samples.failingBoxDB
     = Distro.QueryPackages Samples.ParseBool "box"
         ([("name", VString "vi")] ++ []) "name" "asc" 10 0 Samples.failingBoxDB.
Proof.
  split; [reflexivity|].
  destruct (query_skips_unparsable_boolean Samples.ParseBool
              [("name", VString "vi")] [] (VString "maybe") "name" "asc" 10 0
              eq_refl) as [Hhost Hbox].
  split.
  - apply (Hhost Samples.scannedDB).
  - apply (Hbox "exporting" "box" Samples.failingBoxDB). now right.
Defined.

End QueryFacts.

(** ** The resolution stage of the actions *)

Module SystemFacts.
Import Sql System ConnFacts.

Lemma advances_trans new1 new2 (d1 d2 d3 : Apt.DB) :
  Apt.advances new1 d1 d2 -> Apt.advances new2 d2 d3 ->
  Apt.advances (new2 ++ new1) d1 d3.
Proof.
  intros (Hf1 & Ht1 & Hl1 & Hj1) (Hf2 & Ht2 & Hl2 & Hj2).
  repeat split; [assumption | congruence | congruence |].
  rewrite Hj2, Hj1. apply app_assoc.
Qed.

Lemma advances_refl (d : Apt.DB) : faults d = [] -> Apt.advances [] d d.
Proof. intros Hf. repeat split. exact Hf. Qed.

(** A lookup by name on a connection that does not fail. *)
Lemma GetPackageByName_run name (d : Apt.DB) rows :
  faults d = [] -> Apt.packages (tables d) = Some rows ->
  exists d',
    Apt.GetPackageByName name d
    = (match List.find (fun r => String.eqb (Apt.col_name r) name) rows with
       | Some r => inr (Apt.fromRow r)
       | None => inl (Apt.ErrGetPackage name)
       end, d')
    /\ Apt.advances [SelectName Apt.tableName None name] d d'.
Proof.
  intros Hf Ht. unfold Apt.GetPackageByName. rewrite (issue_eq _ d Hf). cbn.
  rewrite Ht. eexists. split.
  - destruct (List.find _ rows); reflexivity.
  - repeat split.
Qed.

Lemma GetPackageByName_found name (d : Apt.DB) rows :
  faults d = [] -> Apt.packages (tables d) = Some rows ->
  Apt.hasPackage rows name = true ->
  exists p d',
    Apt.GetPackageByName name d = (inr p, d')
    /\ Apt.advances [SelectName Apt.tableName None name] d d'.
Proof.
  intros Hf Ht Hhas. destruct (GetPackageByName_run name d rows Hf Ht)
    as (d' & Heq & Hadv).
  unfold Apt.hasPackage in Hhas.
  destruct (List.find _ rows) as [r|]; [eauto | discriminate].
Qed.

Lemma GetPackageByName_missing name (d : Apt.DB) rows :
  faults d = [] -> Apt.packages (tables d) = Some rows ->
  Apt.hasPackage rows name = false ->
  exists d',
    Apt.GetPackageByName name d = (inl (Apt.ErrGetPackage name), d')
    /\ Apt.advances [SelectName Apt.tableName None name] d d'.
Proof.
  intros Hf Ht Hhas. destruct (GetPackageByName_run name d rows Hf Ht)
    as (d' & Heq & Hadv).
  unfold Apt.hasPackage in Hhas.
  destruct (List.find _ rows) as [r|]; [discriminate | eauto].
Qed.

Section Resolution.
Context {Sys Config : Type}.
Variable E : Collaborators Sys Config.

(** [checkRoot] leaves the package table and the configuration alone. *)
Lemma checkRoot_frame (w : World Sys Config) :
  db (snd (checkRoot E w)) = db w /\ config (snd (checkRoot E w)) = config w.
Proof.
  unfold checkRoot. destruct (negb _); [split; reflexivity|].
  destruct (IsAtomic E); [|split; reflexivity].
  destruct (EnableOverlay E (sys w)) as [[e|] s]; split; reflexivity.
Qed.

(** On a connection that does not fail and a table that exists,
    [validateDB] passes after its one COUNT. *)
Lemma validateDB_passes (w : World Sys Config) rows :
  faults (db w) = [] -> Apt.packages (tables (db w)) = Some rows ->
  exists d',
    validateDB E w = (None, with_db d' w)
    /\ Apt.advances [CountWhere Apt.tableName []] (db w) d'.
Proof.
  intros Hf Ht. unfold validateDB, Apt.PackageDatabaseExist.
  rewrite (issue_eq _ (db w) Hf). cbn. rewrite Ht.
  eexists. split; [reflexivity|]. repeat split.
Qed.

(** The loop of [Remove] stops at the first name the table has no row
    for, having sent lookups by name only. *)
Lemma resolveRemove_missing before missing after names packagesInfo
    (d : Apt.DB) rows :
  faults d = [] -> Apt.packages (tables d) = Some rows ->
  Forall (fun n => Apt.hasPackage rows n = true) before ->
  Apt.hasPackage rows missing = false ->
  exists new d',
    resolveRemove (before ++ missing :: after) names packagesInfo d
    = (inl (AptError (Apt.ErrGetPackage missing)), d')
    /\ Apt.advances new d d'
    /\ Forall (fun st => isLookup st = true) new.
Proof.
  intros Hf Ht Hbefore Hmissing. revert names packagesInfo d Hf Ht.
  induction Hbefore as [|n before Hn Hbefore IH]; intros names packagesInfo d Hf Ht;
    cbn [app resolveRemove].
  - destruct (GetPackageByName_missing missing d rows Hf Ht Hmissing)
      as (d' & -> & Hadv).
    exists [SelectName Apt.tableName None missing], d'.
    split; [reflexivity|]. split; [assumption|]. repeat constructor.
  - destruct (GetPackageByName_found n d rows Hf Ht Hn) as (p & d1 & -> & Hadv1).
    destruct Hadv1 as (Hf1 & Ht1 & Hl1 & Hj1).
    destruct (IH (names ++ [Apt.Name p]) (packagesInfo ++ [p]) d1 Hf1)
      as (new & d' & -> & Hadv & Hnew); [congruence|].
    exists (new ++ [SelectName Apt.tableName None n]), d'.
    split; [reflexivity|]. split.
    + eapply advances_trans; [|exact Hadv]. repeat split; assumption.
    + apply Forall_app. split; [assumption | repeat constructor].
Qed.

(** The two lookups of [Install] for a name it can resolve. *)
Lemma lookupInstall_resolvable pkg (d : Apt.DB) rows :
  faults d = [] -> Apt.packages (tables d) = Some rows ->
  resolvable rows pkg = true ->
  exists p flag new d',
    lookupInstall pkg d = (inr p, flag, d')
    /\ Apt.advances new d d'
    /\ Forall (fun st => isLookup st = true) new.
Proof.
  intros Hf Ht Hres. unfold lookupInstall, resolvable in *.
  destruct (Apt.hasPackage rows pkg) eqn:Hhas.
  - destruct (GetPackageByName_found pkg d rows Hf Ht Hhas) as (p & d1 & -> & Hadv).
    exists p, false, [SelectName Apt.tableName None pkg], d1.
    split; [reflexivity|]. split; [assumption | repeat constructor].
  - destruct (GetPackageByName_missing pkg d rows Hf Ht Hhas) as (d1 & -> & Hadv1).
    cbn [orb] in Hres. apply andb_true_iff in Hres as [-> Hhas2].
    destruct Hadv1 as (Hf1 & Ht1 & Hl1 & Hj1).
    destruct (GetPackageByName_found (GoStrings.dropLast pkg) d1 rows Hf1)
      as (p & d2 & -> & Hadv2); [congruence | assumption |].
    exists p, true,
      ([SelectName Apt.tableName None (GoStrings.dropLast pkg)]
       ++ [SelectName Apt.tableName None pkg]), d2.
    split; [reflexivity|]. split.
    + eapply advances_trans; [|exact Hadv2]. repeat split; assumption.
    + repeat constructor.
Qed.

(** The two lookups of [Install] for a name it cannot resolve: the error
    is that of the last lookup. *)
Lemma lookupInstall_unresolvable pkg (d : Apt.DB) rows :
  faults d = [] -> Apt.packages (tables d) = Some rows ->
  resolvable rows pkg = false ->
  exists new d',
    lookupInstall pkg d = (inl (Apt.ErrGetPackage (lastTried pkg)), false, d')
    /\ Apt.advances new d d'
    /\ Forall (fun st => isLookup st = true) new.
Proof.
  intros Hf Ht Hres. unfold lookupInstall, resolvable, lastTried in *.
  apply orb_false_iff in Hres as [Hhas Hres].
  destruct (GetPackageByName_missing pkg d rows Hf Ht Hhas) as (d1 & -> & Hadv1).
  destruct ((0 <? String.length pkg)%nat && isMarker (GoStrings.lastByte pkg)).
  - cbn [andb] in Hres. destruct Hadv1 as (Hf1 & Ht1 & Hl1 & Hj1).
    destruct (GetPackageByName_missing (GoStrings.dropLast pkg) d1 rows Hf1)
      as (d2 & -> & Hadv2); [congruence | assumption |].
    exists ([SelectName Apt.tableName None (GoStrings.dropLast pkg)]
            ++ [SelectName Apt.tableName None pkg]), d2.
    split; [reflexivity|]. split.
    + eapply advances_trans; [|exact Hadv2]. repeat split; assumption.
    + repeat constructor.
  - exists [SelectName Apt.tableName None pkg], d1.
    split; [reflexivity|]. split; [assumption | repeat constructor].
Qed.

(** The search by [provides], when it finds a row: the answer offers the
    names of the rows found and carries no Go error. *)
Lemma suggest_alternatives pkg e (d : Apt.DB) rows :
  faults d = [] -> Apt.packages (tables d) = Some rows ->
  alternatives E (case_sensitive_like d) rows pkg <> [] ->
  exists st d',
    suggest E pkg e d
    = (({| Data := [("message",
                     DString (Apt.Error e +:+ ". Может быть, Вы искали: "));
                    ("packages",
                     DStrings (map Apt.col_name
                                 (alternatives E (case_sensitive_like d) rows pkg)))];
           Error := true |}, None), d')
    /\ Apt.advances [st] d d'.
Proof.
  intros Hf Ht Hfound. unfold suggest, Apt.QueryHostImagePackages.
  change (Apt.buildQuery (ParseBool E) [("provides", VString pkg)] "" "" 5 0)
    with (@inr Apt.error Select
            {| sel_where := [CWrapLike "provides" ("%," +:+ pkg +:+ ",%")];
               sel_order := None;
               sel_limit := Some 5;
               sel_offset := None |}).
  unfold Apt.runQuery. rewrite (issue_eq _ d Hf). cbn [tables]. rewrite Ht.
  change (prepared Apt.column _) with true. cbn iota.
  cbn [case_sensitive_like].
  change (run_select Apt.column (case_sensitive_like d) _ rows)
    with (alternatives E (case_sensitive_like d) rows pkg).
  destruct (alternatives E (case_sensitive_like d) rows pkg) as [|r found] eqn:Halt;
    [contradiction|].
  cbn [map length Nat.eqb]. do 2 eexists. split.
  - rewrite map_map. reflexivity.
  - repeat split.
Qed.

(** The loop of [Install] stops at the first name it cannot resolve and
    answers with the alternatives found for it. *)
Lemma resolveInstall_suggests before pkg after isMultiInstall packageNames
    packagesInfo (d : Apt.DB) rows :
  faults d = [] -> Apt.packages (tables d) = Some rows ->
  Forall (fun n => resolvable rows n = true) before ->
  resolvable rows pkg = false ->
  alternatives E (case_sensitive_like d) rows pkg <> [] ->
  exists new d',
    resolveInstall E (before ++ pkg :: after) isMultiInstall packageNames
      packagesInfo d
    = (inl ({| Data := [("message",
                         DString (Apt.Error (Apt.ErrGetPackage (lastTried pkg))
                                  +:+ ". Может быть, Вы искали: "));
                        ("packages",
                         DStrings (map Apt.col_name
                                     (alternatives E (case_sensitive_like d) rows pkg)))];
               Error := true |}, None), d')
    /\ Apt.advances new d d'.
Proof.
  intros Hf Ht Hbefore Hpkg Halt.
  revert isMultiInstall packageNames packagesInfo d Hf Ht Halt.
  induction Hbefore as [|n before Hn Hbefore IH];
    intros isMultiInstall packageNames packagesInfo d Hf Ht Halt;
    cbn [app resolveInstall].
  - destruct (lookupInstall_unresolvable pkg d rows Hf Ht Hpkg)
      as (new & d1 & -> & Hadv1 & _).
    pose proof Hadv1 as (Hf1 & Ht1 & Hl1 & Hj1).
    destruct (suggest_alternatives pkg (Apt.ErrGetPackage (lastTried pkg)) d1 rows Hf1)
      as (st & d2 & -> & Hadv2); [congruence | now rewrite Hl1 |].
    rewrite Hl1. do 2 eexists. split; [reflexivity|].
    eapply advances_trans; eassumption.
  - destruct (lookupInstall_resolvable n d rows Hf Ht Hn)
      as (p & flag & new & d1 & -> & Hadv1 & _).
    pose proof Hadv1 as (Hf1 & Ht1 & Hl1 & Hj1).
    destruct (IH (isMultiInstall || flag) (packageNames ++ [n])
                (packagesInfo ++ [p]) d1 Hf1)
      as (new' & d2 & -> & Hadv2); [congruence | now rewrite Hl1 |].
    rewrite Hl1. do 2 eexists. split; [reflexivity|].
    eapply advances_trans; eassumption.
Qed.

Lemma alternatives_found cs rows pkg r :
  In r rows ->
  Apt.selects (ParseBool E) cs [("provides", VString pkg)] r = true ->
  alternatives E cs rows pkg <> [].
Proof.
  intros Hin Hsel. unfold alternatives.
  assert (Hr : In r (List.filter
              (Apt.selects (ParseBool E) cs [("provides", VString pkg)]) rows))
    by (apply filter_In; auto).
  destruct (List.filter _ rows); [destruct Hr | discriminate].
Qed.

Lemma In_firstn {A} (n : nat) (l : list A) (x : A) :
  In x (firstn n l) -> In x l.
Proof.
  intros H. rewrite <- (firstn_skipn n l). apply in_or_app. now left.
Qed.

Lemma alternatives_selected cs rows pkg :
  (length (alternatives E cs rows pkg) <= 5)%nat
  /\ Forall (fun r => In r rows
                      /\ Apt.selects (ParseBool E) cs
                           [("provides", VString pkg)] r = true)
       (alternatives E cs rows pkg).
Proof.
  unfold alternatives. split.
  - rewrite length_firstn. lia.
  - apply List.Forall_forall. intros r Hr.
    apply In_firstn, filter_In in Hr. exact Hr.
Qed.

(** C5. On a connection that does not fail, with the table in place and
    the caller allowed to proceed:
    - [Remove] ends at the first requested name the table has no row for.
      It answers with the error response of the failed lookup, which
      offers no alternative, and returns that error; it has sent lookups
      only (no search by [provides]), and the table and the desired
      configuration are what they were.
    - [Install] ends at the first requested name it cannot resolve.  When
      some row provides that name, it answers with the error flag set, the
      names of the first rows (five at most) whose [provides] list is
      selected for the name, and no Go error; the table and the desired
      configuration are what they were. *)
Theorem unresolved_name_leaves_state
    (before after : list string) (pkg : string) (apply : bool)
    (w : World Sys Config) (rows : list Apt.Row) :
  faults (db w) = [] ->
  Apt.packages (tables (db w)) = Some rows ->
  fst (checkRoot E w) = None ->
  (Forall (fun n => Apt.hasPackage rows n = true) before ->
   Apt.hasPackage rows pkg = false ->
   exists w' new,
     Remove E (before ++ pkg :: after) apply w
     = ((newErrorResponse (Apt.Error (Apt.ErrGetPackage pkg)),
         Some (AptError (Apt.ErrGetPackage pkg))), w')
     /\ tables (db w') = tables (db w)
     /\ config w' = config w
     /\ journal (db w') = new ++ journal (db w)
     /\ Forall (fun st => isLookup st = true) new)
  /\ (Forall (fun n => resolvable rows n = true) before ->
      resolvable rows pkg = false ->
      (exists r, In r rows
                 /\ Apt.selects (ParseBool E) (case_sensitive_like (db w))
                      [("provides", VString pkg)] r = true) ->
      let found := alternatives E (case_sensitive_like (db w)) rows pkg in
      exists w',
        Install E (before ++ pkg :: after) apply w
        = (({| Data := [("message",
                         DString (Apt.Error (Apt.ErrGetPackage (lastTried pkg))
                                  +:+ ". Может быть, Вы искали: "));
                        ("packages", DStrings (map Apt.col_name found))];
               Error := true |}, None), w')
        /\ (0 < length found <= 5)%nat
        /\ Forall (fun r => In r rows
                            /\ Apt.selects (ParseBool E)
                                 (case_sensitive_like (db w))
                                 [("provides", VString pkg)] r = true) found
        /\ tables (db w') = tables (db w)
        /\ config w' = config w).
Proof.
  intros Hf Ht Hroot.
  pose proof (checkRoot_frame w) as [Hdb Hconfig].
  destruct (checkRoot E w) as [err w1] eqn:Hcheck. cbn in Hroot, Hdb, Hconfig.
  subst err.
  destruct (validateDB_passes w1 rows) as (d2 & Hvalidate & Hadv2);
    [congruence | congruence |].
  destruct Hadv2 as (Hf2 & Ht2 & Hl2 & Hj2).
  assert (Hlen : Nat.eqb (length (before ++ pkg :: after)) 0 = false)
    by (rewrite length_app; cbn; apply Nat.eqb_neq; lia).
  split.
  - intros Hbefore Hmissing.
    destruct (resolveRemove_missing before pkg after [] [] d2 rows Hf2)
      as (new & d3 & Hresolve & (Hf3 & Ht3 & Hl3 & Hj3) & Hnew);
      [congruence | assumption | assumption |].
    exists (with_db d3 (with_db d2 w1)), (new ++ [CountWhere Apt.tableName []]).
    unfold Remove. rewrite Hcheck, Hvalidate, Hlen. cbn [db with_db].
    rewrite Hresolve. split; [reflexivity|]. cbn [db config with_db].
    split; [congruence|]. split; [congruence|]. split.
    + rewrite Hj3, Hj2, Hdb, <- app_assoc. reflexivity.
    + apply Forall_app. split; [assumption | repeat constructor].
  - intros Hbefore Hunres (r & Hin & Hsel). cbn zeta.
    assert (Hl : case_sensitive_like d2 = case_sensitive_like (db w)) by congruence.
    pose proof (alternatives_found _ rows pkg r Hin Hsel) as Hfound.
    destruct (resolveInstall_suggests before pkg after false [] [] d2 rows Hf2)
      as (new & d3 & Hresolve & (Hf3 & Ht3 & Hl3 & Hj3));
      [congruence | assumption | assumption | now rewrite Hl |].
    exists (with_db d3 (with_db d2 w1)).
    unfold Install. rewrite Hcheck, Hvalidate, Hlen. cbn [db with_db].
    rewrite Hresolve, Hl. split; [reflexivity|].
    pose proof (alternatives_selected (case_sensitive_like (db w)) rows pkg)
      as [Hle Hall].
    split.
    + split; [|assumption].
      destruct (alternatives E _ rows pkg); [contradiction | cbn; lia].
    + split; [assumption|]. cbn [db config with_db]. split; congruence.
Qed.

End Resolution.

(** A run of C5: the table holds [vim], which provides [vi], and [nano];
    the request names [vi]. *)
Lemma unresolved_name_leaves_state_witness :
  (exists w' new,
     Remove Samples.collaborators ["vi"] false (Samples.world Samples.scannedDB)
     = ((newErrorResponse (Apt.Error (Apt.ErrGetPackage "vi")),
         Some (AptError (Apt.ErrGetPackage "vi"))), w')
     /\ tables (db w') = tables Samples.scannedDB
     /\ config w' = ([], [])
     /\ journal (db w') = new ++ []
     /\ Forall (fun st => isLookup st = true) new)
  /\ (exists w',
        Install Samples.collaborators ["vi"] false
          (Samples.world Samples.scannedDB)
        = (({| Data := [("message",
                         DString (Apt.Error (Apt.ErrGetPackage "vi")
                                  +:+ ". Может быть, Вы искали: "));
                        ("packages", DStrings ["vim"])];
               Error := true |}, None), w')
        /\ tables (db w') = tables Samples.scannedDB
        /\ config w' = ([], [])).
Proof.
  destruct (unresolved_name_leaves_state Samples.collaborators [] [] "vi" false
              (Samples.world Samples.scannedDB)
              [Apt.toRow Samples.vim; Apt.toRow Samples.nano]
              eq_refl eq_refl eq_refl) as [HRemove HInstall].
  split.
  - apply HRemove; [constructor | reflexivity].
  - destruct HInstall as (w' & Heq & _ & _ & Ht & Hc);
      [constructor | reflexivity | |].
    + exists (Apt.toRow Samples.vim). split; [now left | reflexivity].
    + exists w'. split; [exact Heq|]. split; [exact Ht | exact Hc].
Defined.

(** C5 as stated fails for [Remove]: [vi] has no row and [vim] provides
    it, yet the answer of [Remove] holds the message of the failed lookup
    and nothing else, and the journal shows the existence check and the
    lookup by name only. *)
Lemma Remove_offers_no_alternative :
  Apt.hasPackage [Apt.toRow Samples.vim; Apt.toRow Samples.nano] "vi" = false
  /\ Apt.selects Samples.ParseBool false [("provides", VString "vi")]
       (Apt.toRow Samples.vim) = true
  /\ Data (fst (fst (Remove Samples.collaborators ["vi"] false
                       (Samples.world Samples.scannedDB))))
     = [("message", DString "failed to get information about package vi")]
  /\ journal (db (snd (Remove Samples.collaborators ["vi"] false
                         (Samples.world Samples.scannedDB))))
     = [SelectName Apt.tableName None "vi"; CountWhere Apt.tableName []].
Proof. repeat split. Qed.

(** ** Stripping markers *)

Lemma length_dropLast s :
  String.length (GoStrings.dropLast s) = Nat.pred (String.length s).
Proof.
  induction s as [|c s IH]; [reflexivity|].
  destruct s as [|c' s]; [reflexivity|].
  change (GoStrings.dropLast (String c (String c' s)))
    with (String c (GoStrings.dropLast (String c' s))).
  cbn [String.length]. rewrite IH. reflexivity.
Qed.

Lemma stripped_succ k pkg :
  stripped (S k) pkg = stripped k (GoStrings.dropLast pkg).
Proof. unfold stripped. apply Nat.iter_succ_r. Qed.

(** The loop of [applyChange], entered after the lookup of [c] failed:
    it drops one trailing marker at a time, looks each shorter name up,
    and leaves at the first name found or the first that does not end in
    a marker. *)
Lemma stripMarkers_spec fuel c (d : Apt.DB) rows :
  faults d = [] -> Apt.packages (tables d) = Some rows ->
  (String.length c <= fuel)%nat ->
  exists k d',
    stripMarkers fuel c d = (stripped k c, d')
    /\ (forall i, (i < k)%nat ->
          isMarker (GoStrings.lastByte (stripped i c)) = true)
    /\ (forall i, (0 < i < k)%nat -> Apt.hasPackage rows (stripped i c) = false)
    /\ ((0 < k)%nat /\ Apt.hasPackage rows (stripped k c) = true
        \/ isMarker (GoStrings.lastByte (stripped k c)) = false)
    /\ Apt.advances
         (rev (map (fun i => SelectName Apt.tableName None (stripped i c))
                 (seq 1 k))) d d'.
Proof.
  revert c d. induction fuel as [|fuel IH]; intros c d Hf Ht Hlen.
  - destruct c; [|cbn in Hlen; lia].
    exists 0%nat, d. cbn. split; [reflexivity|]. split; [intros; lia|].
    split; [intros; lia|]. split; [now right|]. now apply advances_refl.
  - cbn [stripMarkers].
    destruct ((0 <? String.length c)%nat && isMarker (GoStrings.lastByte c))
      eqn:Hloop.
    + apply andb_true_iff in Hloop as [Hpos Hmark].
      apply Nat.ltb_lt in Hpos.
      destruct (GetPackageByName_run (GoStrings.dropLast c) d rows Hf Ht)
        as (d1 & -> & Hadv1).
      destruct (List.find _ rows) as [r|] eqn:Hfind.
      * exists 1%nat, d1. split; [reflexivity|].
        split; [intros i Hi; replace i with 0%nat by lia; exact Hmark|].
        split; [intros; lia|]. split; [|exact Hadv1].
        left. split; [lia|]. unfold Apt.hasPackage. cbn. now rewrite Hfind.
      * pose proof Hadv1 as (Hf1 & Ht1 & Hl1 & Hj1).
        destruct (IH (GoStrings.dropLast c) d1 Hf1) as
          (k & d' & -> & Hmarks & Hmiss & Hstop & Hadv);
          [congruence | rewrite length_dropLast; lia |].
        exists (S k), d'. rewrite stripped_succ. split; [reflexivity|].
        split; [|split; [|split]].
        -- intros [|i] Hi; [exact Hmark|].
           rewrite stripped_succ. apply Hmarks. lia.
        -- intros [|[|i]] Hi; [lia | |].
           ++ unfold Apt.hasPackage. cbn. now rewrite Hfind.
           ++ rewrite stripped_succ. apply Hmiss. lia.
        -- destruct Hstop as [[Hk Hhas] | Hstop]; [left | right; exact Hstop].
           split; [lia | exact Hhas].
        -- cbn [seq map rev].
           rewrite <- seq_shift, map_map.
           erewrite map_ext by (intros i; rewrite stripped_succ; reflexivity).
           eapply advances_trans; [exact Hadv1 | exact Hadv].
    + exists 0%nat, d. cbn [stripped Nat.iter]. split; [reflexivity|].
      split; [intros; lia|]. split; [intros; lia|]. split; [|now apply advances_refl].
      right. apply andb_false_iff in Hloop as [Hpos | Hmark]; [|exact Hmark].
      apply Nat.ltb_ge in Hpos. destruct c; [reflexivity | cbn in Hpos; lia].
Qed.

Lemma lookups_cons k pkg :
  lookups k pkg
  = rev (map (fun i => SelectName Apt.tableName None (stripped i pkg)) (seq 1 k))
    ++ [SelectName Apt.tableName None pkg].
Proof. reflexivity. Qed.

(** C6. On a connection that does not fail, with [rows] in the table:
    - [applyChange] looks the requested name up, then the name without
      its last byte, and so on ([lookups k pkg]): each name stripped ends
      in a marker and has no row; the name it keeps is the first that has
      a row or does not end in a marker (the empty name among them);
    - [Install] does the same for one retry at most: it stops after the
      second lookup whatever its result. *)
Theorem resolution_strips_markers (pkg : string) (d : Apt.DB) (rows : list Apt.Row) :
  faults d = [] ->
  Apt.packages (tables d) = Some rows ->
  (exists k d',
     canonicalName pkg d = (stripped k pkg, d')
     /\ (forall i, (i < k)%nat ->
           isMarker (GoStrings.lastByte (stripped i pkg)) = true
           /\ Apt.hasPackage rows (stripped i pkg) = false)
     /\ (Apt.hasPackage rows (stripped k pkg) = true
         \/ isMarker (GoStrings.lastByte (stripped k pkg)) = false)
     /\ Apt.advances (lookups k pkg) d d')
  /\ (exists k r flag d',
        lookupInstall pkg d = (r, flag, d')
        /\ (k <= 1)%nat
        /\ (forall i, (i < k)%nat ->
              isMarker (GoStrings.lastByte (stripped i pkg)) = true
              /\ Apt.hasPackage rows (stripped i pkg) = false)
        /\ (Apt.hasPackage rows (stripped k pkg) = true
            \/ isMarker (GoStrings.lastByte (stripped k pkg)) = false
            \/ k = 1%nat)
        /\ match r with
           | inr p =>
               Apt.hasPackage rows (stripped k pkg) = true
               /\ Apt.Name p = stripped k pkg
           | inl e =>
               Apt.hasPackage rows (stripped k pkg) = false
               /\ e = Apt.ErrGetPackage (stripped k pkg)
           end
        /\ Apt.advances (lookups k pkg) d d').
Proof.
  intros Hf Ht.
  destruct (GetPackageByName_run pkg d rows Hf Ht) as (d1 & Hget & Hadv1).
  pose proof Hadv1 as (Hf1 & Ht1 & Hl1 & Hj1).
  assert (Ht1' : Apt.packages (tables d1) = Some rows) by congruence.
  split.
  - unfold canonicalName. rewrite Hget.
    destruct (List.find _ rows) as [r|] eqn:Hfind.
    + exists 0%nat, d1. split; [reflexivity|]. split; [intros; lia|].
      split; [|exact Hadv1].
      left. unfold Apt.hasPackage. cbn. now rewrite Hfind.
    + destruct (stripMarkers_spec (String.length pkg) pkg d1 rows Hf1 Ht1' (le_n _))
        as (k & d' & -> & Hmarks & Hmiss & Hstop & Hadv).
      exists k, d'. split; [reflexivity|]. split; [|split].
      * intros i Hi. split; [now apply Hmarks|].
        destruct i as [|i]; [|apply Hmiss; lia].
        unfold Apt.hasPackage. cbn. now rewrite Hfind.
      * destruct Hstop as [[_ Hhas] | Hstop]; [now left | now right].
      * rewrite lookups_cons. eapply advances_trans; eassumption.
  - unfold lookupInstall. rewrite Hget.
    destruct (List.find _ rows) as [r|] eqn:Hfind.
    + exists 0%nat. do 3 eexists. split; [reflexivity|]. split; [lia|].
      split; [intros; lia|].
      assert (Hhas : Apt.hasPackage rows pkg = true)
        by (unfold Apt.hasPackage; now rewrite Hfind).
      split; [now left|]. split; [|exact Hadv1].
      split; [exact Hhas|]. apply find_some in Hfind as [_ Hname].
      apply String.eqb_eq in Hname. exact Hname.
    + assert (Hhas : Apt.hasPackage rows pkg = false)
        by (unfold Apt.hasPackage; now rewrite Hfind).
      destruct ((0 <? String.length pkg)%nat && isMarker (GoStrings.lastByte pkg))
        eqn:Hloop.
      * apply andb_true_iff in Hloop as [_ Hmark].
        destruct (GetPackageByName_run (GoStrings.dropLast pkg) d1 rows Hf1 Ht1')
          as (d2 & -> & Hadv2).
        exists 1%nat.
        destruct (List.find
                    (fun r => String.eqb (Apt.col_name r) (GoStrings.dropLast pkg))
                    rows) as [r|] eqn:Hfind2.
        -- do 3 eexists. split; [reflexivity|]. split; [lia|]. split.
           { intros i Hi. replace i with 0%nat by lia. now split. }
           split; [now right; right|]. split.
           ++ split; [unfold Apt.hasPackage; cbn; now rewrite Hfind2|].
              apply find_some in Hfind2 as [_ Hname].
              apply String.eqb_eq in Hname. exact Hname.
           ++ rewrite lookups_cons. eapply advances_trans; eassumption.
        -- do 3 eexists. split; [reflexivity|]. split; [lia|]. split.
           { intros i Hi. replace i with 0%nat by lia. now split. }
           split; [now right; right|]. split.
           ++ split; [unfold Apt.hasPackage; cbn; now rewrite Hfind2 | reflexivity].
           ++ rewrite lookups_cons. eapply advances_trans; eassumption.
      * exists 0%nat. do 3 eexists. split; [reflexivity|]. split; [lia|].
        split; [intros; lia|]. split; [|split; [now split | exact Hadv1]].
        right. left. apply andb_false_iff in Hloop as [Hpos | Hmark];
          [|exact Hmark].
        apply Nat.ltb_ge in Hpos. destruct pkg; [reflexivity | cbn in Hpos; lia].
Qed.

(** A run of C6 on [vim+-+], with [vim] in the table. *)
Lemma resolution_strips_markers_witness :
  (exists k d',
     canonicalName "vim+-+" Samples.scannedDB = (stripped k "vim+-+", d')
     /\ (forall i, (i < k)%nat ->
           isMarker (GoStrings.lastByte (stripped i "vim+-+")) = true
           /\ Apt.hasPackage [Apt.toRow Samples.vim; Apt.toRow Samples.nano]
                (stripped i "vim+-+") = false)
     /\ (Apt.hasPackage [Apt.toRow Samples.vim; Apt.toRow Samples.nano]
           (stripped k "vim+-+") = true
         \/ isMarker (GoStrings.lastByte (stripped k "vim+-+")) = false)
     /\ Apt.advances (lookups k "vim+-+") Samples.scannedDB d')
  /\ fst (canonicalName "vim+-+" Samples.scannedDB) = "vim".
Proof.
  split; [|reflexivity].
  apply (resolution_strips_markers "vim+-+" Samples.scannedDB
           [Apt.toRow Samples.vim; Apt.toRow Samples.nano] eq_refl eq_refl).
Defined.

(** C6 as stated fails: resolution also ends on a name that is not empty
    and has no row.  [Install] gives up on [vim++] after looking up
    [vim++] and [vim+], although [vim+] still ends in a marker and [vim]
    has a row; [applyChange] keeps [foo] for [foo+], a name without
    row. *)
Lemma resolution_ends_unresolved :
  (fst (fst (lookupInstall "vim++" Samples.scannedDB))
   = inl (Apt.ErrGetPackage "vim+")
   /\ journal (snd (lookupInstall "vim++" Samples.scannedDB))
      = [SelectName Apt.tableName None "vim+";
         SelectName Apt.tableName None "vim++"]
   /\ isMarker (GoStrings.lastByte "vim+") = true
   /\ Apt.hasPackage [Apt.toRow Samples.vim; Apt.toRow Samples.nano] "vim" = true)
  /\ (fst (canonicalName "foo+" Samples.scannedDB) = "foo"
      /\ "foo" <> ""
      /\ Apt.hasPackage [Apt.toRow Samples.vim; Apt.toRow Samples.nano] "foo"
         = false).
Proof. repeat split; discriminate. Qed.

End SystemFacts.

(** ** More of the host table: rows, replace, lookup *)

Module AptExtras.
Import Sql Apt ConnFacts AptFacts.
#[local] Arguments String.append !_ _ / : simpl nomatch.
#[local] Opaque batchSize.

(** A text without separator is one token. *)
Lemma Split_token a : has_byte "," a = false -> GoStrings.Split a "," = [a].
Proof.
  induction a as [|c a IH]; simpl; [reflexivity|].
  intros H. apply orb_false_iff in H as [Hc Ha].
  rewrite Hc, (IH Ha). reflexivity.
Qed.

(** A token followed by a separator is split off. *)
Lemma Split_first a s :
  has_byte "," a = false ->
  GoStrings.Split (a +:+ String "," s) "," = a :: GoStrings.Split s ",".
Proof.
  induction a as [|c a IH]; simpl; [reflexivity|].
  intros H. apply orb_false_iff in H as [Hc Ha].
  rewrite Hc, (IH Ha). reflexivity.
Qed.

Lemma Split_Join l :
  l <> [] -> Forall (fun t => has_byte "," t = false) l ->
  GoStrings.Split (GoStrings.Join l ",") "," = l.
Proof.
  induction l as [|a l IH]; intros Hne Hall; [contradiction|].
  inversion Hall as [|? ? Ha Hl]; subst.
  destruct l as [|b l].
  - cbn [GoStrings.Join]. now apply Split_token.
  - change (GoStrings.Join (a :: b :: l) ",")
      with (a +:+ String "," (GoStrings.Join (b :: l) ",")).
    rewrite (Split_first a _ Ha), IH; [reflexivity | discriminate | assumption].
Qed.

Lemma Join_empty l : GoStrings.Join l "," = "" -> l = [] \/ l = [""].
Proof.
  destruct l as [|a [|b l]]; cbn [GoStrings.Join].
  - now left.
  - intros ->. now right.
  - destruct a; discriminate.
Qed.

(** A storable list is read back as it was written. *)
Lemma splitList_Join l : storable l -> splitList (GoStrings.Join l ",") = l.
Proof.
  intros [Hne Hall]. unfold splitList.
  destruct (String.eqb_spec (GoStrings.Join l ",") "") as [Hempty | Hfull].
  - apply Join_empty in Hempty as [-> | ->]; [reflexivity | contradiction].
  - apply Split_Join; [|assumption]. intros ->. now apply Hfull.
Qed.

Lemma fromRow_toRow_storable pkg :
  storable (Depends pkg) -> storable (Provides pkg) ->
  fromRow (toRow pkg) = pkg.
Proof.
  intros Hd Hp. destruct pkg as [n s i m v vi d p sz f de c inst].
  unfold fromRow, toRow. cbn in *.
  rewrite (splitList_Join d Hd), (splitList_Join p Hp).
  destruct inst; reflexivity.
Qed.

(** X3. A package written to a row and read back is the same package,
    when its dependency and provides lists are storable: no name holds
    the separator, and neither list is the single empty name. *)
Theorem row_round_trip (pkg : Package) :
  storable (Depends pkg) -> storable (Provides pkg) ->
  fromRow (toRow pkg) = pkg.
Proof. apply fromRow_toRow_storable. Qed.

Lemma storable_sample l :
  (if decide (l = [""]) then false
   else forallb (fun t => negb (has_byte "," t)) l) = true ->
  storable l.
Proof.
  destruct (decide (l = [""])) as [|Hne]; [discriminate|].
  intros H. split; [assumption|].
  apply List.Forall_forall. intros t Ht.
  apply (proj1 (forallb_forall _ _) H) in Ht. now apply negb_true_iff in Ht.
Qed.

Lemma row_round_trip_witness :
  fromRow (toRow Samples.vim) = Samples.vim.
Proof.
  apply (row_round_trip Samples.vim); apply storable_sample; reflexivity.
Defined.

(** A full replace on a connection that does not fail. *)
Lemma SavePackagesToDB_run pkgs db :
  faults db = [] ->
  exists db',
    SavePackagesToDB pkgs db = (None, db')
    /\ faults db' = []
    /\ packages (tables db') = Some (map toRow pkgs).
Proof.
  intros Hf. unfold SavePackagesToDB.
  rewrite (issue_eq _ db Hf).
  set (db1 := match packages _ with None => _ | Some _ => _ end).
  assert (Hf1 : faults db1 = [])
    by (subst db1; cbn; destruct (packages (tables db)); reflexivity).
  rewrite (issue_eq _ db1 Hf1).
  match goal with |- context [issue Begin ?d] => set (db2 := d) end.
  rewrite (issue_eq _ db2 eq_refl).
  match goal with |- context [insertBatches _ _ _ ?d] => set (db3 := d) end.
  destruct (insertBatches_ok (length pkgs) pkgs [] db3 eq_refl (le_n _))
    as (db4 & -> & Hf4 & _ & _).
  rewrite (issue_eq _ db4 Hf4). eexists. split; [reflexivity|].
  split; reflexivity.
Qed.

(** X1. On a connection that does not fail, replacing the table with the
    list [A] and then with the list [B] leaves exactly the rows of [B],
    whatever the table held before (it may not have existed) and also
    when [A] or [B] is empty. *)
Theorem SavePackagesToDB_twice (A B : list Package) (db : DB) :
  faults db = [] ->
  exists db1 db2,
    SavePackagesToDB A db = (None, db1)
    /\ SavePackagesToDB B db1 = (None, db2)
    /\ packages (tables db2) = Some (map toRow B).
Proof.
  intros Hf.
  destruct (SavePackagesToDB_run A db Hf) as (db1 & HA & Hf1 & _).
  destruct (SavePackagesToDB_run B db1 Hf1) as (db2 & HB & _ & Hrows).
  eauto.
Qed.

Lemma SavePackagesToDB_twice_witness :
  exists db1 db2,
    SavePackagesToDB [Samples.vim; Samples.pkg] Samples.freshDB = (None, db1)
    /\ SavePackagesToDB [Samples.nano] db1 = (None, db2)
    /\ packages (tables db2) = Some (map toRow [Samples.nano]).
Proof.
  apply (SavePackagesToDB_twice [Samples.vim; Samples.pkg] [Samples.nano]
           Samples.freshDB).
  reflexivity.
Defined.

Lemma find_map_toRow name pkgs :
  List.find (fun r => String.eqb (col_name r) name) (map toRow pkgs)
  = toRow <$> List.find (fun p => String.eqb (Name p) name) pkgs.
Proof.
  induction pkgs as [|p pkgs IH]; [reflexivity|].
  cbn [map List.find]. change (col_name (toRow p)) with (Name p).
  destruct (String.eqb (Name p) name); [reflexivity | exact IH].
Qed.

(** X4. After a full replace with storable packages on a connection that
    does not fail, a lookup by name returns the first package of the list
    with that name, as it was given, and fails for a name the list does
    not hold. *)
Theorem lookup_after_replace (pkgs : list Package) (db : DB) :
  faults db = [] ->
  Forall (fun p => storable (Depends p) /\ storable (Provides p)) pkgs ->
  exists db1,
    SavePackagesToDB pkgs db = (None, db1)
    /\ forall name,
         fst (GetPackageByName name db1)
         = match List.find (fun p => String.eqb (Name p) name) pkgs with
           | Some p => inr p
           | None => inl (ErrGetPackage name)
           end.
Proof.
  intros Hf Hall.
  destruct (SavePackagesToDB_run pkgs db Hf) as (db1 & Hsave & Hf1 & Hrows).
  exists db1. split; [assumption|]. intros name.
  destruct (SystemFacts.GetPackageByName_run name db1 _ Hf1 Hrows)
    as (d' & -> & _).
  cbn [fst]. rewrite find_map_toRow.
  destruct (List.find _ pkgs) as [p|] eqn:Hfind; [|reflexivity].
  cbn. apply find_some in Hfind as [Hin _].
  apply (proj1 (List.Forall_forall _ _) Hall) in Hin as [Hd Hp].
  now rewrite fromRow_toRow_storable.
Qed.

Lemma lookup_after_replace_witness :
  exists db1,
    SavePackagesToDB [Samples.vim; Samples.nano] Samples.freshDB = (None, db1)
    /\ forall name,
         fst (GetPackageByName name db1)
         = match List.find (fun p => String.eqb (Name p) name)
                   [Samples.vim; Samples.nano] with
           | Some p => inr p
           | None => inl (ErrGetPackage name)
           end.
Proof.
  apply (lookup_after_replace [Samples.vim; Samples.nano] Samples.freshDB).
  - reflexivity.
  - repeat constructor; apply storable_sample; reflexivity.
Defined.

(** ** More of the host table: reconciliation *)

Ltac issue_at st d :=
  let failed := fresh "failed" in
  let d' := fresh "d" in
  let H := fresh "Hissue" in
  let Ht := fresh "Htables" in
  destruct (issue st d) as [failed d'] eqn:H;
  assert (Ht : tables d' = tables d)
    by (change d' with (snd (failed, d')); rewrite <- H; apply issue_tables);
  clear H.

Lemma rollbackDeferred_tables e (d : DB) :
  fst (rollbackDeferred e d) = Some e
  /\ tables (snd (rollbackDeferred e d)) = tables d.
Proof.
  unfold rollbackDeferred. issue_at Rollback d. split; [reflexivity | assumption].
Qed.

(** What a reconciliation leaves: the tables as they were when it returns
    an error, the reconciled rows and the temporary table when it
    succeeds. *)
Lemma SyncPackageInstallationInfo_outcome (M : gmap string string) (db : DB) :
  match fst (SyncPackageInstallationInfo M db) with
  | Some _ => tables (snd (SyncPackageInstallationInfo M db)) = tables db
  | None =>
      exists rows,
        packages (tables db) = Some rows
        /\ tables (snd (SyncPackageInstallationInfo M db))
           = {| packages := Some (map (reconcileRow (map_to_list M)) rows);
                tmp_installed := Some (map_to_list M) |}
  end.
Proof.
  unfold SyncPackageInstallationInfo.
  issue_at Begin db. destruct failed; [assumption|].
  issue_at (CreateTemp "tmp_installed") d. destruct failed.
  { destruct (rollbackDeferred_tables (ErrTempTable Failure) d0) as [-> ->].
    congruence. }
  destruct (tmp_installed (tables d)).
  { destruct (rollbackDeferred_tables (ErrTempTable TableExists) d0) as [-> ->].
    congruence. }
  assert (Hinsert : exists failed d1,
            match map_to_list M with
            | [] => (false, d0)
            | _ :: _ =>
                issue (InsertTemp "tmp_installed" (length (map_to_list M))) d0
            end = (failed, d1) /\ tables d1 = tables d0).
  { destruct (map_to_list M); [eauto|].
    issue_at (InsertTemp "tmp_installed" (length (p :: l))) d0. eauto. }
  destruct Hinsert as (failed & d1 & -> & Ht1). destruct failed.
  { destruct (rollbackDeferred_tables (ErrTempInsert Failure) d1) as [-> ->].
    congruence. }
  issue_at (UpdateInstalled tableName) d1. destruct failed.
  { destruct (rollbackDeferred_tables (ErrBatchUpdate Failure) d2) as [-> ->].
    congruence. }
  rewrite Htables. destruct (packages (tables db)) as [rows|].
  2:{ destruct (rollbackDeferred_tables (ErrBatchUpdate NoSuchTable) d2) as [-> ->].
      congruence. }
  issue_at Commit d2. destruct failed.
  { destruct (rollbackDeferred_tables (ErrTxCommit Failure) d3) as [-> ->].
    congruence. }
  cbn. eauto.
Qed.

(** X5. A reconciliation that returns an error, at whatever statement,
    leaves the package table and the temporary table as they were: every
    statement ran inside the transaction that is rolled back. *)
Theorem SyncPackageInstallationInfo_error_rolls_back
    (M : gmap string string) (db db' : DB) (e : error) :
  SyncPackageInstallationInfo M db = (Some e, db') ->
  tables db' = tables db.
Proof.
  intros H. pose proof (SyncPackageInstallationInfo_outcome M db) as Hout.
  rewrite H in Hout. exact Hout.
Qed.

Lemma SyncPackageInstallationInfo_error_rolls_back_witness :
  tables (snd (SyncPackageInstallationInfo Samples.installedSet Samples.failingDB))
  = tables Samples.failingDB.
Proof.
  apply (SyncPackageInstallationInfo_error_rolls_back Samples.installedSet
           Samples.failingDB _ (ErrBatchUpdate Failure)).
  vm_compute. reflexivity.
Defined.

(** X6. After a successful reconciliation the temporary table stays on
    the connection, so every further reconciliation on that connection
    returns an error and changes nothing: CREATE TEMPORARY TABLE finds
    [tmp_installed] in place. *)
Theorem SyncPackageInstallationInfo_once_per_connection
    (M M' : gmap string string) (db db' : DB) :
  SyncPackageInstallationInfo M db = (None, db') ->
  (exists e, fst (SyncPackageInstallationInfo M' db') = Some e)
  /\ tables (snd (SyncPackageInstallationInfo M' db')) = tables db'.
Proof.
  intros H. pose proof (SyncPackageInstallationInfo_outcome M db) as Hout.
  rewrite H in Hout. cbn [fst snd] in Hout. destruct Hout as (rows & _ & Ht).
  pose proof (SyncPackageInstallationInfo_outcome M' db') as Hout'.
  destruct (fst (SyncPackageInstallationInfo M' db')) as [e|] eqn:Hfst.
  - split; [eauto | exact Hout'].
  - exfalso. revert Hfst. unfold SyncPackageInstallationInfo.
    destruct (issue Begin db') as [[] d1] eqn:H1; [discriminate|].
    assert (Ht1 : tables d1 = tables db')
      by (change d1 with (snd (false, d1)); rewrite <- H1; apply issue_tables).
    destruct (issue (CreateTemp "tmp_installed") d1) as [[] d2].
    + destruct (rollbackDeferred_tables (ErrTempTable Failure) d2) as [-> _].
      discriminate.
    + rewrite Ht1, Ht. cbn [tmp_installed].
      destruct (rollbackDeferred_tables (ErrTempTable TableExists) d2) as [-> _].
      discriminate.
Qed.

Lemma SyncPackageInstallationInfo_once_per_connection_witness :
  (exists e,
     fst (SyncPackageInstallationInfo ∅
            (snd (SyncPackageInstallationInfo Samples.installedSet
                    Samples.scannedDB))) = Some e)
  /\ tables (snd (SyncPackageInstallationInfo ∅
                    (snd (SyncPackageInstallationInfo Samples.installedSet
                            Samples.scannedDB))))
     = tables (snd (SyncPackageInstallationInfo Samples.installedSet
                      Samples.scannedDB)).
Proof.
  apply (SyncPackageInstallationInfo_once_per_connection Samples.installedSet ∅
           Samples.scannedDB).
  vm_compute. reflexivity.
Defined.

(** X7. After a successful reconciliation with an installed set that
    holds no empty version, every row has [installed] set exactly when
    its [versionInstalled] is not empty. *)
Theorem SyncPackageInstallationInfo_installed_iff_version
    (M : gmap string string) (db db' : DB) (rows' : list Row) :
  SyncPackageInstallationInfo M db = (None, db') ->
  (forall name version, M !! name = Some version -> version <> "") ->
  packages (tables db') = Some rows' ->
  Forall (fun r => Installed (fromRow r) = true
                   <-> VersionInstalled (fromRow r) <> "") rows'.
Proof.
  intros H Hversions Hrows'.
  pose proof (SyncPackageInstallationInfo_outcome M db) as Hout.
  rewrite H in Hout. cbn [fst snd] in Hout. destruct Hout as (rows & _ & Ht).
  rewrite Ht in Hrows'. cbn in Hrows'. injection Hrows' as <-.
  apply List.Forall_forall. intros r' Hin.
  apply in_map_iff in Hin as (r & <- & _).
  destruct (reconcileRow_spec M r) as (_ & Hinst & Hver).
  rewrite Hinst, Hver. destruct (M !! col_name r) as [v|] eqn:HM; cbn.
  - split; [intros _; now apply (Hversions (col_name r))|eauto].
  - split; [intros [v [=]] | intros Hne; now contradiction Hne].
Qed.

Lemma SyncPackageInstallationInfo_installed_iff_version_witness :
  Forall (fun r => Installed (fromRow r) = true
                   <-> VersionInstalled (fromRow r) <> "")
    (map (reconcileRow (map_to_list Samples.installedSet))
       [toRow Samples.vim; toRow Samples.nano]).
Proof.
  apply (SyncPackageInstallationInfo_installed_iff_version Samples.installedSet
           Samples.scannedDB
           (snd (SyncPackageInstallationInfo Samples.installedSet
                   Samples.scannedDB))).
  - vm_compute. reflexivity.
  - intros name version Hlookup. unfold Samples.installedSet in Hlookup.
    apply lookup_singleton_Some in Hlookup as [_ <-]. discriminate.
  - vm_compute. reflexivity.
Defined.

(** ** More of the host table: paging, sorting, counting, searching *)

Section HostQueryExtras.
Variable ParseBool : Value -> option bool.

(** X8. A limit that is not positive disables paging altogether: the
    query is the one with limit 0 and offset 0, so a positive offset is
    ignored as well. *)
Theorem QueryHostImagePackages_no_limit
    (filters : list (string * Value)) (sortField sortOrder : string)
    (limit offset : Z) (db : DB) :
  limit <= 0 ->
  QueryHostImagePackages ParseBool filters sortField sortOrder limit offset db
  = QueryHostImagePackages ParseBool filters sortField sortOrder 0 0 db.
Proof.
  intros Hlimit. unfold QueryHostImagePackages, buildQuery.
  replace (0 <? limit) with false by (symmetry; apply Z.ltb_ge; lia).
  reflexivity.
Qed.

(** X9. With a positive limit the query returns at most that many
    packages. *)
Theorem QueryHostImagePackages_at_most_limit
    (filters : list (string * Value)) (sortField sortOrder : string)
    (limit offset : Z) (db : DB) (pkgs : list Package) :
  0 < limit ->
  fst (QueryHostImagePackages ParseBool filters sortField sortOrder limit
         offset db) = inr pkgs ->
  (length pkgs <= Z.to_nat limit)%nat.
Proof.
  intros Hlimit. unfold QueryHostImagePackages, buildQuery.
  replace (0 <? limit) with true by (symmetry; apply Z.ltb_lt; lia).
  destruct (buildConditions ParseBool filters []) as [e|conditions];
    [discriminate|].
  destruct (buildOrder sortField sortOrder) as [e|order]; [discriminate|].
  unfold runQuery. destruct (issue _ db) as [[] db1]; [discriminate|].
  destruct (packages (tables db1)) as [rows|]; [|discriminate].
  destruct (prepared column _); [|discriminate].
  intros [= <-]. rewrite length_map. unfold run_select, page. cbn [sel_limit].
  rewrite length_firstn. lia.
Qed.



(** X11. The count and the query without sorting and paging agree: both
    fail, or the count is the number of packages the query returns. *)
Theorem CountHostImagePackages_counts_query
    (filters : list (string * Value)) (db : DB) :
  match fst (QueryHostImagePackages ParseBool filters "" "" 0 0 db),
        fst (CountHostImagePackages ParseBool filters db) with
  | inr pkgs, inr totalCount => totalCount = Z.of_nat (length pkgs)
  | inl _, inl _ => True
  | _, _ => False
  end.
Proof.
  unfold QueryHostImagePackages, CountHostImagePackages, buildQuery.
  destruct (buildConditions ParseBool filters []) as [e|conditions];
    [exact I|].
  cbn [buildOrder String.eqb Z.ltb Z.compare andb]. unfold runQuery.
  set (q := {| sel_where := conditions |}).
  pose proof (issue_fst (SelectWhere tableName q)
                (CountWhere tableName conditions) db) as Hfst.
  pose proof (issue_tables (SelectWhere tableName q) db) as Hta.
  pose proof (issue_tables (CountWhere tableName conditions) db) as Htb.
  pose proof (issue_like (SelectWhere tableName q) db) as Hla.
  pose proof (issue_like (CountWhere tableName conditions) db) as Hlb.
  destruct (issue (SelectWhere tableName q) db) as [fa da].
  destruct (issue (CountWhere tableName conditions) db) as [fb db'].
  cbn [fst snd] in *. subst fb. destruct fa; [exact I|].
  rewrite Hta, Htb. destruct (packages (tables db)) as [rows|]; [|exact I].
  unfold prepared. cbn [sel_where sel_order order_known q]. rewrite andb_true_r.
  destruct (forallb (known column) conditions); [|exact I].
  cbn [fst]. rewrite length_map, Hla, Hlb. reflexivity.
Qed.

(** X12. [SearchPackagesByName] asks what [QueryHostImagePackages] asks
    with a filter on [name], and with a second filter [installed = true]
    when only installed packages are asked for: the same conditions on the
    same table, the same result. *)
Theorem SearchPackagesByName_is_name_filter
    (namePart : string) (value : Value) (db : DB) :
  ParseBool value = Some true ->
  SearchPackagesByName namePart false db
  = QueryHostImagePackages ParseBool [("name", VString namePart)] "" "" 0 0 db
  /\ SearchPackagesByName namePart true db
     = QueryHostImagePackages ParseBool
         [("name", VString namePart); ("installed", value)] "" "" 0 0 db.
Proof.
  intros Hvalue. unfold SearchPackagesByName, QueryHostImagePackages, buildQuery.
  cbn -[runQuery String.append]. rewrite Hvalue. split; reflexivity.
Qed.

End HostQueryExtras.

Lemma QueryHostImagePackages_no_limit_witness :
  QueryHostImagePackages Samples.ParseBool [] "name" "asc" (-1) 7 Samples.scannedDB
  = QueryHostImagePackages Samples.ParseBool [] "name" "asc" 0 0 Samples.scannedDB.
Proof.
  apply (QueryHostImagePackages_no_limit Samples.ParseBool [] "name" "asc"
           (-1) 7 Samples.scannedDB).
  lia.
Defined.

Lemma QueryHostImagePackages_at_most_limit_witness :
  (length [Samples.nano] <= Z.to_nat 1)%nat.
Proof.
  apply (QueryHostImagePackages_at_most_limit Samples.ParseBool [] "name" "asc"
           1 0 Samples.scannedDB [Samples.nano]).
  - lia.
  - vm_compute. reflexivity.
Defined.

Lemma SearchPackagesByName_is_name_filter_witness :
  SearchPackagesByName "vi" false Samples.scannedDB
  = QueryHostImagePackages Samples.ParseBool [("name", VString "vi")] "" "" 0 0
      Samples.scannedDB
  /\ SearchPackagesByName "vi" true Samples.scannedDB
     = QueryHostImagePackages Samples.ParseBool
         [("name", VString "vi"); ("installed", VString "yes")] "" "" 0 0
         Samples.scannedDB.
Proof.
  apply (SearchPackagesByName_is_name_filter Samples.ParseBool "vi"
           (VString "yes") Samples.scannedDB).
  reflexivity.
Defined.

(** The pattern of an empty search matches every text. *)
Lemma like_everything cs t : like cs "%%" t = true.
Proof.
  apply (TextFacts.like_star cs "%" t). exists "", t.
  split; [reflexivity | apply TextFacts.like_percent].
Qed.

Lemma filter_all {A} (f : A -> bool) (l : list A) :
  (forall x, f x = true) -> List.filter f l = l.
Proof.
  intros Hf. induction l as [|x l IH]; [reflexivity|].
  cbn. now rewrite Hf, IH.
Qed.

(** X13. A search for the empty name part, not restricted to installed
    packages, returns every row of the table, in the order of the
    table. *)
Theorem SearchPackagesByName_empty_part (db : DB) (rows : list Row) :
  faults db = [] ->
  packages (tables db) = Some rows ->
  fst (SearchPackagesByName "" false db) = inr (map fromRow rows).
Proof.
  intros Hf Ht. unfold SearchPackagesByName, runQuery.
  rewrite (issue_eq _ db Hf). cbn [tables]. rewrite Ht.
  change (prepared column _) with true. cbn iota. cbn [fst].
  unfold run_select. cbn [sel_where sel_order sel_limit sel_offset page order_rows].
  rewrite filter_all; [reflexivity|].
  intros r. unfold satisfies. cbn [forallb holds]. rewrite andb_true_r.
  apply like_everything.
Qed.

Lemma SearchPackagesByName_empty_part_witness :
  fst (SearchPackagesByName "" false Samples.scannedDB)
  = inr (map fromRow [toRow Samples.vim; toRow Samples.nano]).
Proof.
  apply (SearchPackagesByName_empty_part Samples.scannedDB
           [toRow Samples.vim; toRow Samples.nano]); reflexivity.
Defined.

(** A run of the independence of the order of the filters. *)
Lemma QueryHostImagePackages_any_order_witness :
  fst (QueryHostImagePackages Samples.ParseBool
         [("name", VString "vi"); ("installed", VString "no")] "" "" 0 0
         Samples.scannedDB)
  = fst (QueryHostImagePackages Samples.ParseBool
           [("installed", VString "no"); ("name", VString "vi")] "" "" 0 0
           Samples.scannedDB).
Proof.
  apply (QueryHostImagePackages_any_order Samples.ParseBool
           [("name", VString "vi"); ("installed", VString "no")]
           [("installed", VString "no"); ("name", VString "vi")]
           "" "" 0 0 Samples.scannedDB).
  - apply perm_swap.
  - repeat constructor.
Defined.

End AptExtras.

(** ** More of the container table *)

Module DistroExtras.
Import Sql Distro ConnFacts DistroFacts.

Lemma box_batchSize_pos : (0 < batchSize)%nat.
Proof. apply Nat.lt_0_succ. Qed.

#[local] Opaque batchSize.

Lemma filter_In_true {A} (f : A -> bool) (l : list A) :
  (forall x, In x l -> f x = true) -> List.filter f l = l.
Proof.
  induction l as [|x l IH]; intros Hf; [reflexivity|].
  cbn. rewrite (Hf x) by now left. f_equal. apply IH. intros y Hy. apply Hf. now right.
Qed.

Lemma filter_In_false {A} (f : A -> bool) (l : list A) :
  (forall x, In x l -> f x = false) -> List.filter f l = [].
Proof.
  induction l as [|x l IH]; intros Hf; [reflexivity|].
  cbn. rewrite (Hf x) by now left. apply IH. intros y Hy. apply Hf. now right.
Qed.

Lemma filter_filter_implied {A} (f g : A -> bool) (l : list A) :
  (forall x, f x = true -> g x = true) ->
  List.filter f (List.filter g l) = List.filter f l.
Proof.
  intros Hfg. induction l as [|x l IH]; [reflexivity|].
  cbn. destruct (g x) eqn:Hg; cbn.
  - now rewrite IH.
  - destruct (f x) eqn:Hfx; [|exact IH].
    apply Hfg in Hfx. congruence.
Qed.

Lemma find_app_none {A} (p : A -> bool) (l l' : list A) :
  (forall x, In x l -> p x = false) -> List.find p (l ++ l') = List.find p l'.
Proof.
  induction l as [|x l IH]; intros Hp; [reflexivity|].
  cbn. rewrite (Hp x) by now left. apply IH. intros y Hy. apply Hp. now right.
Qed.

Lemma find_map_preserved {A} (p : A -> bool) (u : A -> A) (l : list A) :
  (forall x, p (u x) = p x) ->
  List.find p (map u l) = option_map u (List.find p l).
Proof.
  intros Hp. induction l as [|x l IH]; [reflexivity|].
  cbn. rewrite Hp. destruct (p x); [reflexivity | exact IH].
Qed.

Lemma box_find_map_toRow containerName name pkgs :
  List.find (fun r => String.eqb (col_container r) containerName
                      && String.eqb (col_name r) name)
    (map (toRow containerName) pkgs)
  = option_map (toRow containerName)
      (List.find (fun p => String.eqb (Name p) name) pkgs).
Proof.
  induction pkgs as [|p pkgs IH]; [reflexivity|].
  cbn [map List.find toRow col_container col_name].
  rewrite String.eqb_refl. cbn [andb].
  destruct (String.eqb (Name p) name); [reflexivity | exact IH].
Qed.

(** With no failure ahead, the loop inserts every package, in order. *)
Lemma box_insertBatches_ok fuel containerName rest work (db : DB) :
  faults db = [] -> (length rest <= fuel)%nat ->
  exists db',
    insertBatches fuel containerName rest work db
    = (None, work ++ map (toRow containerName) rest, db')
    /\ faults db' = [] /\ tables db' = tables db
    /\ case_sensitive_like db' = case_sensitive_like db.
Proof.
  revert rest work db. induction fuel as [|fuel IH]; intros rest work db Hf Hlen;
    cbn [insertBatches].
  - destruct rest; [|cbn in Hlen; lia]. cbn. rewrite app_nil_r. eauto.
  - destruct rest as [|p rest]; [cbn; rewrite app_nil_r; eauto|].
    rewrite (issue_eq _ db Hf).
    set (db1 := {| tables := tables db |}).
    destruct (IH (skipn batchSize (p :: rest))
                (work ++ map (toRow containerName) (firstn batchSize (p :: rest)))
                db1)
      as (db' & Heq & Hf' & Ht' & Hl'); [reflexivity | |].
    + rewrite length_skipn. pose proof box_batchSize_pos. cbn [length] in *. lia.
    + exists db'. rewrite Heq. split; [|auto].
      rewrite <- app_assoc, <- map_app, firstn_skipn. reflexivity.
Qed.

(** A save with no failure ahead: the rows of the other containers,
    then the new rows of this one. *)
Lemma box_SavePackagesToDB_run containerName pkgs (db : DB) :
  containerName <> "" -> faults db = [] ->
  exists db',
    SavePackagesToDB containerName pkgs db = (None, db')
    /\ tables db'
       = Some (List.filter
                 (fun r => negb (String.eqb (col_container r) containerName))
                 (match tables db with None => [] | Some rows => rows end)
               ++ map (toRow containerName) pkgs)
    /\ faults db' = []
    /\ case_sensitive_like db' = case_sensitive_like db.
Proof.
  intros Hc Hf. unfold SavePackagesToDB.
  apply String.eqb_neq in Hc. rewrite Hc.
  rewrite (issue_eq _ db Hf). cbn [tables].
  match goal with |- context [issue (Delete _ _) ?d] => set (db1 := d) end.
  rewrite (issue_eq _ db1 eq_refl).
  match goal with |- context [issue Begin ?d] => set (db2 := d) end.
  rewrite (issue_eq _ db2 eq_refl).
  match goal with |- context [insertBatches _ _ _ ?w ?d] =>
    destruct (box_insertBatches_ok (length pkgs) containerName pkgs w d
                eq_refl (le_n _)) as (db4 & -> & Hf4 & _ & Hl4)
  end.
  rewrite (issue_eq _ db4 Hf4). eexists. split; [reflexivity|].
  cbn. split; [reflexivity|]. split; [reflexivity | exact Hl4].
Qed.

(** Of the rows a save leaves, those of its container are the new
    ones. *)
Lemma box_own_rows containerName pkgs (rows : list Row) :
  List.filter (fun r => String.eqb (col_container r) containerName)
    (List.filter (fun r => negb (String.eqb (col_container r) containerName))
       rows
     ++ map (toRow containerName) pkgs)
  = map (toRow containerName) pkgs.
Proof.
  rewrite List.filter_app. rewrite (filter_In_false _ (List.filter _ _)).
  - cbn [app]. apply filter_In_true. intros r Hr.
    apply in_map_iff in Hr as (p & <- & _). apply String.eqb_refl.
  - intros r Hr. apply filter_In in Hr as [_ Hr].
    now apply negb_true_iff in Hr.
Qed.

(** X15. A save with no failure ahead replaces the rows of its own
    container by the new list, in order, and leaves the rows of every
    other container as they were. *)
Theorem SavePackagesToDB_own_container_only
    (containerName : string) (pkgs : list PackageInfo) (db : DB) :
  containerName <> "" -> faults db = [] ->
  exists db' rows',
    SavePackagesToDB containerName pkgs db = (None, db')
    /\ tables db' = Some rows'
    /\ List.filter (fun r => String.eqb (col_container r) containerName) rows'
       = map (toRow containerName) pkgs
    /\ forall other, other <> containerName ->
         List.filter (fun r => String.eqb (col_container r) other) rows'
         = List.filter (fun r => String.eqb (col_container r) other)
             (match tables db with None => [] | Some rows => rows end).
Proof.
  intros Hc Hf.
  destruct (box_SavePackagesToDB_run containerName pkgs db Hc Hf)
    as (db' & Hsave & Ht & _ & _).
  eexists db', _. split; [exact Hsave|]. split; [exact Ht|]. split.
  - apply box_own_rows.
  - intros other Hother. rewrite List.filter_app.
    rewrite (filter_In_false _ (map _ _)).
    + rewrite app_nil_r. apply filter_filter_implied. intros r Hr.
      apply String.eqb_eq in Hr. apply negb_true_iff, String.eqb_neq. congruence.
    + intros r Hr. apply in_map_iff in Hr as (p & <- & _).
      apply String.eqb_neq. cbn. congruence.
Qed.

Lemma SavePackagesToDB_own_container_only_witness :
  exists db' rows',
    SavePackagesToDB "box" [Samples.boxPackage "vim"] Samples.twoBoxesDB
    = (None, db')
    /\ tables db' = Some rows'
    /\ List.filter (fun r => String.eqb (col_container r) "box") rows'
       = map (toRow "box") [Samples.boxPackage "vim"]
    /\ forall other, other <> "box" ->
         List.filter (fun r => String.eqb (col_container r) other) rows'
         = List.filter (fun r => String.eqb (col_container r) other)
             (match tables Samples.twoBoxesDB with
              | None => [] | Some rows => rows end).
Proof.
  apply (SavePackagesToDB_own_container_only "box" [Samples.boxPackage "vim"]
           Samples.twoBoxesDB).
  - discriminate.
  - reflexivity.
Defined.

(** X16. After a save with no failure ahead, the container exists for
    [ContainerDatabaseExist] exactly when the saved list was not empty:
    saving an empty list leaves a container without records. *)
Theorem SavePackagesToDB_then_exists
    (containerName : string) (pkgs : list PackageInfo) (db : DB) :
  containerName <> "" -> faults db = [] ->
  fst (ContainerDatabaseExist containerName
         (snd (SavePackagesToDB containerName pkgs db))) = None
  <-> pkgs <> [].
Proof.
  intros Hc Hf.
  destruct (box_SavePackagesToDB_run containerName pkgs db Hc Hf)
    as (db' & Hsave & Ht & Hf' & _).
  rewrite Hsave. cbn [snd]. unfold ContainerDatabaseExist.
  rewrite (issue_eq _ db' Hf'). cbn [tables].
  rewrite Ht, box_own_rows, length_map.
  destruct pkgs as [|p pkgs]; cbn; split; congruence.
Qed.

Lemma SavePackagesToDB_then_exists_witness :
  fst (ContainerDatabaseExist "box"
         (snd (SavePackagesToDB "box" [Samples.boxPackage "vim"]
                 Samples.twoBoxesDB))) = None
  <-> [Samples.boxPackage "vim"] <> [].
Proof.
  apply (SavePackagesToDB_then_exists "box" [Samples.boxPackage "vim"]
           Samples.twoBoxesDB).
  - discriminate.
  - reflexivity.
Defined.

(** X17. After a save with no failure ahead, [GetPackageInfoByName]
    returns the first package of the saved list with that name, its
    container field set to the container saved under, and the driver's
    no-rows error when the list has none. *)
Theorem GetPackageInfoByName_after_save
    (containerName name : string) (pkgs : list PackageInfo) (db : DB) :
  containerName <> "" -> faults db = [] ->
  fst (GetPackageInfoByName containerName name
         (snd (SavePackagesToDB containerName pkgs db)))
  = match List.find (fun p => String.eqb (Name p) name) pkgs with
    | Some p =>
        inr {| Name := Name p; Version := Version p;
               Description := Description p; Container := containerName;
               Installed := Installed p; Exporting := Exporting p;
               Manager := Manager p |}
    | None => inl (ErrDriver NoRows)
    end.
Proof.
  intros Hc Hf.
  destruct (box_SavePackagesToDB_run containerName pkgs db Hc Hf)
    as (db' & Hsave & Ht & Hf' & _).
  rewrite Hsave. cbn [snd]. unfold GetPackageInfoByName.
  rewrite (issue_eq _ db' Hf'). cbn [tables]. rewrite Ht.
  rewrite find_app_none.
  - rewrite box_find_map_toRow.
    destruct (List.find _ pkgs) as [p|]; [|reflexivity].
    cbn. unfold fromRow, toRow. cbn.
    destruct (Installed p), (Exporting p); reflexivity.
  - intros r Hr. apply filter_In in Hr as [_ Hr].
    apply negb_true_iff in Hr. now rewrite Hr.
Qed.

Lemma GetPackageInfoByName_after_save_witness :
  fst (GetPackageInfoByName "box" "vim"
         (snd (SavePackagesToDB "box" [Samples.boxPackage "vim"]
                 Samples.twoBoxesDB)))
  = match List.find (fun p => String.eqb (Name p) "vim")
            [Samples.boxPackage "vim"] with
    | Some p =>
        inr {| Name := Name p; Version := Version p;
               Description := Description p; Container := "box";
               Installed := Installed p; Exporting := Exporting p;
               Manager := Manager p |}
    | None => inl (ErrDriver NoRows)
    end.
Proof.
  apply (GetPackageInfoByName_after_save "box" "vim" [Samples.boxPackage "vim"]
           Samples.twoBoxesDB).
  - discriminate.
  - reflexivity.
Defined.

(** X18. Deleting a container with no failure ahead succeeds; afterwards
    [ContainerDatabaseExist] reports that the container has no records,
    and answers for every other container as before. *)
Theorem DeletePackagesFromContainer_forgets
    (containerName : string) (db : DB) (rows : list Row) :
  faults db = [] -> tables db = Some rows ->
  fst (DeletePackagesFromContainer containerName db) = None
  /\ fst (ContainerDatabaseExist containerName
            (snd (DeletePackagesFromContainer containerName db)))
     = Some (ErrNoRecords containerName)
  /\ forall other, other <> containerName ->
       fst (ContainerDatabaseExist other
              (snd (DeletePackagesFromContainer containerName db)))
       = fst (ContainerDatabaseExist other db).
Proof.
  intros Hf Ht. unfold DeletePackagesFromContainer.
  rewrite (issue_eq _ db Hf). cbn [tables]. rewrite Ht. cbn [fst snd].
  split; [reflexivity|]. unfold ContainerDatabaseExist. split.
  - rewrite issue_eq by reflexivity. cbn [tables with_tables].
    rewrite filter_In_false; [reflexivity|].
    intros r Hr. apply filter_In in Hr as [_ Hr]. now apply negb_true_iff in Hr.
  - intros other Hother. rewrite issue_eq by reflexivity.
    rewrite (issue_eq _ db Hf). cbn [tables with_tables]. rewrite Ht.
    rewrite filter_filter_implied.
    + destruct (Nat.eqb _ 0); reflexivity.
    + intros r Hr. apply String.eqb_eq in Hr.
      apply negb_true_iff, String.eqb_neq. congruence.
Qed.

Lemma DeletePackagesFromContainer_forgets_witness :
  fst (DeletePackagesFromContainer "box" Samples.twoBoxesDB) = None
  /\ fst (ContainerDatabaseExist "box"
            (snd (DeletePackagesFromContainer "box" Samples.twoBoxesDB)))
     = Some (ErrNoRecords "box")
  /\ forall other, other <> "box" ->
       fst (ContainerDatabaseExist other
              (snd (DeletePackagesFromContainer "box" Samples.twoBoxesDB)))
       = fst (ContainerDatabaseExist other Samples.twoBoxesDB).
Proof.
  apply (DeletePackagesFromContainer_forgets "box" Samples.twoBoxesDB
           [Samples.boxRow; Samples.otherRow]); reflexivity.
Defined.

Lemma allowedFields_installed : allowedFields !! "installed" = Some true.
Proof. reflexivity. Qed.

Lemma allowedFields_exporting : allowedFields !! "exporting" = Some true.
Proof. reflexivity. Qed.

(** What a successful look-up says about the table. *)
Lemma GetPackageInfoByName_found containerName name (db : DB) pkg :
  faults db = [] ->
  fst (GetPackageInfoByName containerName name db) = inr pkg ->
  exists rows r,
    tables db = Some rows
    /\ List.find (fun r => String.eqb (col_container r) containerName
                           && String.eqb (col_name r) name) rows = Some r
    /\ fromRow r = pkg.
Proof.
  intros Hf. unfold GetPackageInfoByName. rewrite (issue_eq _ db Hf).
  cbn [tables]. destruct (tables db) as [rows|]; [|discriminate].
  destruct (List.find _ rows) as [r|] eqn:Hfind; [|discriminate].
  cbn. intros [= <-]. eauto.
Qed.

(** An accepted update with no failure ahead. *)
Lemma UpdatePackageField_run containerName name fieldName value st rows :
  allowedFields !! fieldName = Some true ->
  faults (conn st) = [] -> tables (conn st) = Some rows ->
  faults (conn (UpdatePackageField containerName name fieldName value st)) = []
  /\ tables (conn (UpdatePackageField containerName name fieldName value st))
     = Some (map (fun r =>
                    if String.eqb (col_container r) containerName
                       && String.eqb (col_name r) name
                    then setField fieldName (if value then 1 else 0) r else r)
               rows).
Proof.
  intros Ha Hf Ht. unfold UpdatePackageField. rewrite Ha. cbn [default negb].
  rewrite (issue_eq _ (conn st) Hf). cbn [tables]. rewrite Ht.
  split; reflexivity.
Qed.

Lemma update_keeps_key containerName name fieldName intVal c n (r : Row) :
  (String.eqb
     (col_container
        (if String.eqb (col_container r) containerName
            && String.eqb (col_name r) name
         then setField fieldName intVal r else r)) c
   && String.eqb
        (col_name
           (if String.eqb (col_container r) containerName
               && String.eqb (col_name r) name
            then setField fieldName intVal r else r)) n)
  = (String.eqb (col_container r) c && String.eqb (col_name r) n).
Proof.
  destruct (String.eqb (col_container r) containerName
            && String.eqb (col_name r) name); reflexivity.
Qed.

(** X19. What [UpdatePackageField] writes, [GetPackageInfoByName] reads:
    with no failure ahead, a package that is found has, after an update of
    [installed] (of [exporting]), that field at the new value and every
    other field as before. *)
Theorem UpdatePackageField_then_get
    (containerName name : string) (value : bool) (st : State)
    (pkg : PackageInfo) :
  faults (conn st) = [] ->
  fst (GetPackageInfoByName containerName name (conn st)) = inr pkg ->
  fst (GetPackageInfoByName containerName name
         (conn (UpdatePackageField containerName name "installed" value st)))
  = inr {| Name := Name pkg; Version := Version pkg;
           Description := Description pkg; Container := Container pkg;
           Installed := value; Exporting := Exporting pkg;
           Manager := Manager pkg |}
  /\ fst (GetPackageInfoByName containerName name
            (conn (UpdatePackageField containerName name "exporting" value st)))
     = inr {| Name := Name pkg; Version := Version pkg;
              Description := Description pkg; Container := Container pkg;
              Installed := Installed pkg; Exporting := value;
              Manager := Manager pkg |}.
Proof.
  intros Hf Hget.
  destruct (GetPackageInfoByName_found _ _ _ _ Hf Hget)
    as (rows & r & Ht & Hfind & <-).
  split.
  - destruct (UpdatePackageField_run containerName name "installed" value st rows
                allowedFields_installed Hf Ht) as [Hf' Ht'].
    unfold GetPackageInfoByName. rewrite (issue_eq _ _ Hf'). cbn [tables].
    rewrite Ht', find_map_preserved by (intros x; apply update_keeps_key).
    rewrite Hfind. cbn [option_map fst].
    apply List.find_some in Hfind as [_ ->]. f_equal.
    unfold fromRow, setField. cbn. destruct value; reflexivity.
  - destruct (UpdatePackageField_run containerName name "exporting" value st rows
                allowedFields_exporting Hf Ht) as [Hf' Ht'].
    unfold GetPackageInfoByName. rewrite (issue_eq _ _ Hf'). cbn [tables].
    rewrite Ht', find_map_preserved by (intros x; apply update_keeps_key).
    rewrite Hfind. cbn [option_map fst].
    apply List.find_some in Hfind as [_ ->]. f_equal.
    unfold fromRow, setField. cbn. destruct value; reflexivity.
Qed.

Lemma UpdatePackageField_then_get_witness :
  fst (GetPackageInfoByName "box" "git"
         (conn (UpdatePackageField "box" "git" "installed" true
                  Samples.twoBoxes)))
  = inr {| Name := "git"; Version := "1"; Description := "";
           Container := "box"; Installed := true; Exporting := false;
           Manager := "apt-get" |}
  /\ fst (GetPackageInfoByName "box" "git"
            (conn (UpdatePackageField "box" "git" "exporting" true
                     Samples.twoBoxes)))
     = inr {| Name := "git"; Version := "1"; Description := "";
              Container := "box"; Installed := false; Exporting := true;
              Manager := "apt-get" |}.
Proof.
  apply (UpdatePackageField_then_get "box" "git" true Samples.twoBoxes
           (fromRow Samples.boxRow)); reflexivity.
Defined.

(** X20. [UpdatePackageField] touches the package it names only: with no
    failure ahead, a look-up of a package of another container, or of
    another name, answers after the update as it did before, whatever the
    field and the value. *)
Theorem UpdatePackageField_frame
    (containerName name fieldName : string) (value : bool) (st : State)
    (otherContainer otherName : string) :
  faults (conn st) = [] ->
  otherContainer <> containerName \/ otherName <> name ->
  fst (GetPackageInfoByName otherContainer otherName
         (conn (UpdatePackageField containerName name fieldName value st)))
  = fst (GetPackageInfoByName otherContainer otherName (conn st)).
Proof.
  intros Hf Hother. unfold UpdatePackageField.
  destruct (negb _); [reflexivity|].
  rewrite (issue_eq _ (conn st) Hf). cbn [tables].
  unfold GetPackageInfoByName at 2. rewrite (issue_eq _ (conn st) Hf).
  cbn [tables].
  destruct (tables (conn st)) as [rows|];
    cbn [conn]; unfold GetPackageInfoByName; rewrite issue_eq by reflexivity;
    cbn [tables with_tables]; [|reflexivity].
  rewrite find_map_preserved by (intros x; apply update_keeps_key).
  destruct (List.find _ rows) as [r|] eqn:Hfind; [|reflexivity].
  cbn [option_map fst]. apply List.find_some in Hfind as [_ Hkey].
  apply andb_true_iff in Hkey as [Hc Hn].
  apply String.eqb_eq in Hc, Hn.
  replace (String.eqb (col_container r) containerName
           && String.eqb (col_name r) name) with false; [reflexivity|].
  symmetry. apply andb_false_iff.
  destruct Hother as [Hne | Hne]; [left | right]; apply String.eqb_neq; congruence.
Qed.

Lemma UpdatePackageField_frame_witness :
  fst (GetPackageInfoByName "other" "git"
         (conn (UpdatePackageField "box" "git" "installed" true
                  Samples.twoBoxes)))
  = fst (GetPackageInfoByName "other" "git" (conn Samples.twoBoxes)).
Proof.
  apply (UpdatePackageField_frame "box" "git" "installed" true Samples.twoBoxes
           "other" "git").
  - reflexivity.
  - left. discriminate.
Defined.

Section BoxQueryExtras.
Variable ParseBool : Value -> option bool.

(** X21. [CountTotalPackages] and [QueryPackages] without sorting and
    paging agree: both fail, or the count is the number of packages the
    query returns. *)
Theorem CountTotalPackages_counts_query
    (containerName : string) (filters : list (string * Value)) (db : DB) :
  match fst (QueryPackages ParseBool containerName filters "" "" 0 0 db),
        fst (CountTotalPackages ParseBool containerName filters db) with
  | inr pkgs, inr totalCount => totalCount = Z.of_nat (length pkgs)
  | inl _, inl _ => True
  | _, _ => False
  end.
Proof.
  unfold QueryPackages, CountTotalPackages, buildQuery.
  destruct (buildConditions ParseBool filters _) as [e|conditions];
    [exact I|].
  cbn [buildOrder String.eqb Z.ltb Z.compare andb]. unfold runQuery.
  set (q := {| sel_where := conditions |}).
  pose proof (issue_fst (SelectWhere packagesTableName q)
                (CountWhere packagesTableName conditions) db) as Hfst.
  pose proof (issue_tables (SelectWhere packagesTableName q) db) as Hta.
  pose proof (issue_tables (CountWhere packagesTableName conditions) db) as Htb.
  pose proof (issue_like (SelectWhere packagesTableName q) db) as Hla.
  pose proof (issue_like (CountWhere packagesTableName conditions) db) as Hlb.
  destruct (issue (SelectWhere packagesTableName q) db) as [fa da].
  destruct (issue (CountWhere packagesTableName conditions) db) as [fb db'].
  cbn [fst snd] in *. subst fb. destruct fa; [exact I|].
  rewrite Hta, Htb. destruct (tables db) as [rows|]; [|exact I].
  unfold prepared. cbn [sel_where sel_order order_known q]. rewrite andb_true_r.
  destruct (forallb (known column) conditions); [|exact I].
  cbn [fst]. rewrite length_map, Hla, Hlb. reflexivity.
Qed.

(** X22. [FindPackagesByName] asks what [QueryPackages] asks with one
    filter on [name], and with none for an empty name part: the same
    conditions on the same table, the same result. *)
Theorem FindPackagesByName_is_name_filter
    (containerName partialName : string) (db : DB) :
  FindPackagesByName containerName partialName db
  = QueryPackages ParseBool containerName
      (if String.eqb partialName "" then [] else [("name", VString partialName)])
      "" "" 0 0 db.
Proof.
  unfold FindPackagesByName, QueryPackages, buildQuery.
  destruct (String.eqb partialName "").
  - cbn -[runQuery]. now rewrite app_nil_r.
  - cbn -[runQuery String.append]. reflexivity.
Qed.

End BoxQueryExtras.

(** Runs of the existence checks and of the independence of the order of
    the filters. *)
Lemma ContainerDatabaseExist_spec_witness :
  fst (ContainerDatabaseExist "box" Samples.twoBoxesDB) = None
  <-> exists rows r,
        tables Samples.twoBoxesDB = Some rows /\ In r rows
        /\ col_container r = "box".
Proof.
  apply (ContainerDatabaseExist_spec "box" Samples.twoBoxesDB). reflexivity.
Defined.

Lemma DatabaseExist_spec_witness :
  fst (DatabaseExist Samples.twoBoxesDB) = None
  <-> exists rows r, tables Samples.twoBoxesDB = Some rows /\ In r rows.
Proof.
  apply (DatabaseExist_spec Samples.twoBoxesDB). reflexivity.
Defined.

Lemma QueryPackages_any_order_witness :
  fst (QueryPackages Samples.ParseBool "box"
         [("name", VString "gi"); ("installed", VString "no")] "" "" 0 0
         Samples.twoBoxesDB)
  = fst (QueryPackages Samples.ParseBool "box"
           [("installed", VString "no"); ("name", VString "gi")] "" "" 0 0
           Samples.twoBoxesDB).
Proof.
  apply (QueryPackages_any_order Samples.ParseBool "box"
           [("name", VString "gi"); ("installed", VString "no")]
           [("installed", VString "no"); ("name", VString "gi")]
           "" "" 0 0 Samples.twoBoxesDB).
  - apply perm_swap.
  - repeat constructor.
Defined.

End DistroExtras.

(** ** More of the actions: what the loops hand over *)

Module SystemExtras.
Import Sql System ConnFacts SystemFacts.

(** A lookup that finds a row returns a package of the name asked
    for. *)
Lemma GetPackageByName_named name (d : Apt.DB) rows :
  faults d = [] -> Apt.packages (tables d) = Some rows ->
  Apt.hasPackage rows name = true ->
  exists p d',
    Apt.GetPackageByName name d = (inr p, d')
    /\ Apt.Name p = name
    /\ Apt.advances [SelectName Apt.tableName None name] d d'.
Proof.
  intros Hf Ht Hhas. destruct (GetPackageByName_run name d rows Hf Ht)
    as (d' & Heq & Hadv).
  unfold Apt.hasPackage in Hhas.
  destruct (List.find _ rows) as [r|] eqn:Hfind; [|discriminate].
  apply List.find_some in Hfind as [_ Hname]. apply String.eqb_eq in Hname.
  exists (Apt.fromRow r), d'. split; [exact Heq|]. split; [exact Hname | exact Hadv].
Qed.

Section HandOver.
Context {Sys Config : Type}.
Variable E : Collaborators Sys Config.

Lemma resolveRemove_all_found pkgs names packagesInfo (d : Apt.DB) rows :
  faults d = [] -> Apt.packages (tables d) = Some rows ->
  Forall (fun n => Apt.hasPackage rows n = true) pkgs ->
  exists found d',
    resolveRemove pkgs names packagesInfo d
    = (inr (names ++ pkgs, packagesInfo ++ found), d')
    /\ map Apt.Name found = pkgs
    /\ faults d' = [] /\ tables d' = tables d.
Proof.
  intros Hf Ht Hall. revert names packagesInfo d Hf Ht.
  induction Hall as [|n pkgs Hn _ IH]; intros names packagesInfo d Hf Ht;
    cbn [resolveRemove].
  - exists [], d. rewrite !app_nil_r. auto.
  - destruct (GetPackageByName_named n d rows Hf Ht Hn)
      as (p & d1 & -> & Hname & (Hf1 & Ht1 & _ & _)).
    destruct (IH (names ++ [Apt.Name p]) (packagesInfo ++ [p]) d1 Hf1)
      as (found & d' & -> & Hfound & Hf' & Ht'); [congruence|].
    exists (p :: found), d'. rewrite Hname, <- !app_assoc. cbn [app map].
    split; [reflexivity|]. split; [congruence|]. split; [exact Hf' | congruence].
Qed.

(** X23. When every requested name has a row, [Remove] hands the names
    to its later stages in the order they were given, each with the
    package found for it; by then it has changed neither the table nor the
    desired configuration. *)
Theorem Remove_hands_over_requested
    (pkgs : list string) (apply : bool) (w : World Sys Config)
    (rows : list Apt.Row) :
  faults (db w) = [] ->
  Apt.packages (tables (db w)) = Some rows ->
  fst (checkRoot E w) = None ->
  pkgs <> [] ->
  Forall (fun n => Apt.hasPackage rows n = true) pkgs ->
  exists found w',
    Remove E pkgs apply w = removeResolved E pkgs found pkgs apply w'
    /\ map Apt.Name found = pkgs
    /\ tables (db w') = tables (db w)
    /\ config w' = config w.
Proof.
  intros Hf Ht Hroot Hpkgs Hall.
  pose proof (checkRoot_frame E w) as [Hdb Hconfig].
  destruct (checkRoot E w) as [err w1] eqn:Hcheck. cbn in Hroot, Hdb, Hconfig.
  subst err.
  destruct (validateDB_passes E w1 rows) as (d2 & Hvalidate & Hadv2);
    [congruence | congruence |].
  destruct Hadv2 as (Hf2 & Ht2 & Hl2 & Hj2).
  assert (Hlen : Nat.eqb (length pkgs) 0 = false)
    by (destruct pkgs; [contradiction | reflexivity]).
  destruct (resolveRemove_all_found pkgs [] [] d2 rows Hf2)
    as (found & d3 & Hresolve & Hfound & Hf3 & Ht3); [congruence | assumption |].
  exists found, (with_db d3 (with_db d2 w1)).
  unfold Remove. rewrite Hcheck, Hvalidate, Hlen. cbn [db with_db].
  rewrite Hresolve. cbn [app]. split; [reflexivity|]. split; [exact Hfound|].
  cbn [db config with_db]. split; congruence.
Qed.

(** The two lookups of [Install] for a name it can resolve: the second
    one is made, and found the row, exactly when the name as given has no
    row. *)
Lemma lookupInstall_flag pkg (d : Apt.DB) rows :
  faults d = [] -> Apt.packages (tables d) = Some rows ->
  resolvable rows pkg = true ->
  exists p d',
    lookupInstall pkg d = (inr p, negb (Apt.hasPackage rows pkg), d')
    /\ Apt.Name p
       = (if Apt.hasPackage rows pkg then pkg else GoStrings.dropLast pkg)
    /\ faults d' = [] /\ tables d' = tables d.
Proof.
  intros Hf Ht Hres. unfold lookupInstall, resolvable in *.
  destruct (Apt.hasPackage rows pkg) eqn:Hhas.
  - destruct (GetPackageByName_named pkg d rows Hf Ht Hhas)
      as (p & d1 & -> & Hname & (Hf1 & Ht1 & _ & _)).
    exists p, d1. auto.
  - destruct (GetPackageByName_missing pkg d rows Hf Ht Hhas)
      as (d1 & -> & (Hf1 & Ht1 & _ & _)).
    cbn [orb] in Hres. apply andb_true_iff in Hres as [-> Hhas2].
    destruct (GetPackageByName_named (GoStrings.dropLast pkg) d1 rows Hf1)
      as (p & d2 & -> & Hname & (Hf2 & Ht2 & _ & _)); [congruence | assumption |].
    exists p, d2. cbn [negb]. split; [reflexivity|]. split; [exact Hname|].
    split; [exact Hf2 | congruence].
Qed.

Lemma resolveInstall_all_resolved pkgs isMultiInstall packageNames packagesInfo
    (d : Apt.DB) rows :
  faults d = [] -> Apt.packages (tables d) = Some rows ->
  Forall (fun n => resolvable rows n = true) pkgs ->
  exists found d',
    resolveInstall E pkgs isMultiInstall packageNames packagesInfo d
    = (inr (isMultiInstall
            || existsb (fun n => negb (Apt.hasPackage rows n)) pkgs,
            packageNames ++ pkgs, packagesInfo ++ found), d')
    /\ Forall2 (fun n p =>
                  Apt.Name p
                  = if Apt.hasPackage rows n then n else GoStrings.dropLast n)
         pkgs found
    /\ faults d' = [] /\ tables d' = tables d.
Proof.
  intros Hf Ht Hall. revert isMultiInstall packageNames packagesInfo d Hf Ht.
  induction Hall as [|n pkgs Hn _ IH];
    intros isMultiInstall packageNames packagesInfo d Hf Ht;
    cbn [resolveInstall existsb].
  - exists [], d. rewrite !app_nil_r, orb_false_r. auto.
  - destruct (lookupInstall_flag n d rows Hf Ht Hn)
      as (p & d1 & -> & Hname & Hf1 & Ht1).
    destruct (IH (isMultiInstall || negb (Apt.hasPackage rows n))
                (packageNames ++ [n]) (packagesInfo ++ [p]) d1 Hf1)
      as (found & d' & -> & Hfound & Hf' & Ht'); [congruence|].
    exists (p :: found), d'. rewrite <- !app_assoc, orb_assoc. cbn [app].
    split; [reflexivity|]. split; [now constructor|].
    split; [exact Hf' | congruence].
Qed.

(** X24. When every requested name resolves, [Install] hands the names
    to its later stages as they were typed, markers included, each with
    the package found for it (of that name, or of the name without its
    last byte when the name as typed has no row); the flag
    [isMultiInstall] is set exactly when some name has no row as typed.
    By then neither the table nor the desired configuration has
    changed. *)
Theorem Install_hands_over_as_typed
    (pkgs : list string) (apply : bool) (w : World Sys Config)
    (rows : list Apt.Row) :
  faults (db w) = [] ->
  Apt.packages (tables (db w)) = Some rows ->
  fst (checkRoot E w) = None ->
  pkgs <> [] ->
  Forall (fun n => resolvable rows n = true) pkgs ->
  exists found w',
    Install E pkgs apply w
    = installResolved E
        (existsb (fun n => negb (Apt.hasPackage rows n)) pkgs)
        pkgs found pkgs apply w'
    /\ Forall2 (fun n p =>
                  Apt.Name p
                  = if Apt.hasPackage rows n then n else GoStrings.dropLast n)
         pkgs found
    /\ tables (db w') = tables (db w)
    /\ config w' = config w.
Proof.
  intros Hf Ht Hroot Hpkgs Hall.
  pose proof (checkRoot_frame E w) as [Hdb Hconfig].
  destruct (checkRoot E w) as [err w1] eqn:Hcheck. cbn in Hroot, Hdb, Hconfig.
  subst err.
  destruct (validateDB_passes E w1 rows) as (d2 & Hvalidate & Hadv2);
    [congruence | congruence |].
  destruct Hadv2 as (Hf2 & Ht2 & Hl2 & Hj2).
  assert (Hlen : Nat.eqb (length pkgs) 0 = false)
    by (destruct pkgs; [contradiction | reflexivity]).
  destruct (resolveInstall_all_resolved pkgs false [] [] d2 rows Hf2)
    as (found & d3 & Hresolve & Hfound & Hf3 & Ht3); [congruence | assumption |].
  exists found, (with_db d3 (with_db d2 w1)).
  unfold Install. rewrite Hcheck, Hvalidate, Hlen. cbn [db with_db].
  rewrite Hresolve. cbn [app orb]. split; [reflexivity|]. split; [exact Hfound|].
  cbn [db config with_db]. split; congruence.
Qed.

Lemma recordChanges_marker_decides pkgs (w : World Sys Config) :
  Forall (fun pkg => pkg = "" \/ isMarker (GoStrings.lastByte pkg) = true) pkgs ->
  recordChanges E pkgs true w = recordChanges E pkgs false w.
Proof.
  intros Hall. revert w.
  induction Hall as [|pkg pkgs Hpkg _ IH]; intros w; cbn [recordChanges];
    [reflexivity|].
  destruct (Nat.eqb (String.length pkg) 0) eqn:Hlen; [apply IH|].
  destruct (canonicalName pkg (db w)) as [canonicalPkg d].
  destruct Hpkg as [-> | Hmarker].
  - discriminate Hlen.
  - unfold isMarker in Hmarker.
    destruct (GoStrings.lastByte pkg) as [last|]; [|discriminate].
    destruct (Ascii.eqb last "+"); cbn [orb] in Hmarker.
    + destruct (AddInstallPackage E canonicalPkg _) as [[e|] c];
        [reflexivity | apply IH].
    + rewrite Hmarker.
      destruct (AddRemovePackage E canonicalPkg _) as [[e|] c];
        [reflexivity | apply IH].
Qed.

(** X25. A marker decides where a name is recorded: for a request whose
    names all end in [+] or [-] (or are empty), [applyChange] does the same
    whether it was called for an installation or for a removal. *)
Theorem applyChange_marker_decides
    (pkgs : list string) (w : World Sys Config) :
  Forall (fun pkg => pkg = "" \/ isMarker (GoStrings.lastByte pkg) = true) pkgs ->
  applyChange E pkgs true w = applyChange E pkgs false w.
Proof.
  intros Hall. unfold applyChange.
  destruct (negb (IsAtomic E)); [reflexivity|].
  destruct (LoadConfig E (config w)) as [[e|] c]; [reflexivity|].
  now rewrite (recordChanges_marker_decides pkgs _ Hall).
Qed.

End HandOver.

(** Runs on a table holding [vim] and [nano]. *)
Lemma Remove_hands_over_requested_witness :
  exists found w',
    Remove Samples.collaborators ["vim"; "nano"] false
      (Samples.world Samples.scannedDB)
    = removeResolved Samples.collaborators ["vim"; "nano"] found
        ["vim"; "nano"] false w'
    /\ map Apt.Name found = ["vim"; "nano"]
    /\ tables (db w') = tables (db (Samples.world Samples.scannedDB))
    /\ config w' = config (Samples.world Samples.scannedDB).
Proof.
  apply (Remove_hands_over_requested Samples.collaborators ["vim"; "nano"] false
           (Samples.world Samples.scannedDB)
           [Apt.toRow Samples.vim; Apt.toRow Samples.nano]).
  - reflexivity.
  - reflexivity.
  - reflexivity.
  - discriminate.
  - repeat constructor.
Defined.

Lemma Install_hands_over_as_typed_witness :
  exists found w',
    Install Samples.collaborators ["vim+"; "nano"] false
      (Samples.world Samples.scannedDB)
    = installResolved Samples.collaborators
        (existsb (fun n => negb (Apt.hasPackage
                                   [Apt.toRow Samples.vim; Apt.toRow Samples.nano] n))
           ["vim+"; "nano"])
        ["vim+"; "nano"] found ["vim+"; "nano"] false w'
    /\ Forall2 (fun n p =>
                  Apt.Name p
                  = if Apt.hasPackage
                         [Apt.toRow Samples.vim; Apt.toRow Samples.nano] n
                    then n else GoStrings.dropLast n)
         ["vim+"; "nano"] found
    /\ tables (db w') = tables (db (Samples.world Samples.scannedDB))
    /\ config w' = config (Samples.world Samples.scannedDB).
Proof.
  apply (Install_hands_over_as_typed Samples.collaborators ["vim+"; "nano"] false
           (Samples.world Samples.scannedDB)
           [Apt.toRow Samples.vim; Apt.toRow Samples.nano]).
  - reflexivity.
  - reflexivity.
  - reflexivity.
  - discriminate.
  - repeat constructor.
Defined.

Lemma applyChange_marker_decides_witness :
  applyChange Samples.collaborators ["vim+"; "nano-"] true
    (Samples.world Samples.scannedDB)
  = applyChange Samples.collaborators ["vim+"; "nano-"] false
      (Samples.world Samples.scannedDB).
Proof.
  apply (applyChange_marker_decides Samples.collaborators ["vim+"; "nano-"]
           (Samples.world Samples.scannedDB)).
  repeat constructor; right; reflexivity.
Defined.

End SystemExtras.

(** ** The ALT provider's list of packages *)

Module AltProviderFacts.
Import AltProvider.

Section ReadingFacts.
Variable TrimSpace : string -> string.
Variable GetVersionFromAptCache : string -> option string.

Lemma scanLine_sound st text : sound st -> sound (scanLine TrimSpace GetVersionFromAptCache st text).
Proof.
  intros [Hpackages Hpkg]. unfold scanLine.
  destruct (String.eqb (TrimSpace text) "").
  - destruct (String.eqb (Distro.Name (pkg st)) "") eqn:Hname; cbn [negb].
    + split; assumption.
    + split; cbn [packages pkg]; [|repeat split].
      apply Forall_app. split; [assumption|]. constructor; [|constructor].
      split; [now apply String.eqb_neq | assumption].
  - destruct (splitColon (TrimSpace text)) as [[part0 part1]|].
    + split; cbn [packages pkg]; [assumption|].
      destruct (String.eqb (TrimSpace part0) "Package"); [exact Hpkg|].
      destruct (String.eqb (TrimSpace part0) "Version").
      { destruct (GetVersionFromAptCache _); exact Hpkg. }
      destruct (String.eqb (TrimSpace part0) "Description"); exact Hpkg.
    + destruct (String.eqb (currentKey st) "Description");
        split; cbn [packages pkg]; assumption.
Qed.

Lemma fold_scanLine_sound lines st :
  sound st -> sound (fold_left (scanLine TrimSpace GetVersionFromAptCache) lines st).
Proof.
  revert st. induction lines as [|text lines IH]; intros st Hst; [exact Hst|].
  cbn [fold_left]. apply IH, scanLine_sound, Hst.
Qed.

Lemma scanLines_sound lines :
  Forall (fun p => Distro.Name p <> "" /\ untouched p) (scanLines TrimSpace GetVersionFromAptCache lines).
Proof.
  unfold scanLines.
  set (st := fold_left _ lines _).
  assert (Hst : sound st).
  { apply fold_scanLine_sound. split; [constructor | repeat split]. }
  destruct Hst as [Hpackages Hpkg].
  destruct (String.eqb (Distro.Name (pkg st)) "") eqn:Hname; cbn [negb];
    [assumption|].
  apply Forall_app. split; [assumption|]. constructor; [|constructor].
  split; [now apply String.eqb_neq | assumption].
Qed.

Lemma installedMap_fold (names : list string) (m : gmap string bool)
    (name : string) :
  default false
    (fold_left (fun m name => <[name := true]> m) names m !! name) = true
  <-> In name names \/ default false (m !! name) = true.
Proof.
  revert m. induction names as [|n names IH]; intros m; cbn [fold_left In].
  - tauto.
  - rewrite IH. destruct (decide (n = name)) as [-> | Hne].
    + rewrite lookup_insert_eq. cbn. tauto.
    + rewrite lookup_insert_ne by exact Hne. tauto.
Qed.

Lemma installedMap_spec (names : list string) (name : string) :
  default false (installedMap names !! name) = true <-> In name names.
Proof.
  unfold installedMap. rewrite installedMap_fold, lookup_empty. cbn.
  split; [intros [H | H]; [exact H | discriminate] | now left].
Qed.

(** X26. Every package [GetPackages] returns has a name; its manager is
    [apt-get], and the reading sets neither its container nor its
    exporting flag. *)
Theorem GetPackages_named (lines installedPackages : list string) :
  Forall (fun p => Distro.Name p <> "" /\ Distro.Manager p = "apt-get"
                   /\ Distro.Container p = "" /\ Distro.Exporting p = false)
    (GetPackages TrimSpace GetVersionFromAptCache lines installedPackages).
Proof.
  unfold GetPackages. apply List.Forall_map.
  eapply List.Forall_impl; [|apply scanLines_sound].
  intros p (Hname & _ & Hexporting & Hcontainer & _). cbn. auto.
Qed.

(** X27. A package [GetPackages] returns is marked installed exactly
    when its name is among the installed packages of the container. *)
Theorem GetPackages_installed (lines installedPackages : list string) :
  Forall (fun p => Distro.Installed p = true
                   <-> In (Distro.Name p) installedPackages)
    (GetPackages TrimSpace GetVersionFromAptCache lines installedPackages).
Proof.
  unfold GetPackages. apply List.Forall_map.
  eapply List.Forall_impl; [|apply scanLines_sound].
  intros p (_ & Hinstalled & _). cbn [mark Distro.Installed Distro.Name].
  rewrite <- installedMap_spec.
  destruct (default false (installedMap installedPackages !! Distro.Name p));
    [tauto|]. rewrite Hinstalled. tauto.
Qed.

End ReadingFacts.

End AltProviderFacts.
